(** * CEmu emulation session: a shallow embedding of [cemu/emulator.py]
      and of [EmulationRunner.run] from [cemu/ui/main.py].

    The Python objects are mutable and the methods raise exceptions, so the
    session is threaded through a small state-and-exception monad in which
    the state survives a raised exception (as the Python object does).
    The CPU engine (unicorn) and the architecture backend are external to
    the repository: they are taken as an interface record, and every
    engine call is also recorded in a ghost trace carried by the session,
    which is what lets statements such as "the engine is not touched" or
    "memory is mapped once" be written down. *)

From Stdlib Require Import ZArith List String Bool Lia.
Import ListNotations.
Local Open Scope string_scope.
Local Open Scope list_scope.
Local Open Scope Z_scope.

(** ** Data model *)

Definition bytes := list Byte.byte.

(** [class EmulatorState(IntEnum)] *)
Inductive EmulatorState : Type :=
| INVALID
| STARTING
| NOT_RUNNING
| IDLE
| RUNNING
| TEARDOWN
| FINISHED.

Definition EmulatorState_value (s : EmulatorState) : Z :=
  match s with
  | INVALID => 0
  | STARTING => 1
  | NOT_RUNNING => 2
  | IDLE => 3
  | RUNNING => 4
  | TEARDOWN => 5
  | FINISHED => 6
  end.

Definition EmulatorState_name (s : EmulatorState) : string :=
  match s with
  | INVALID => "INVALID"
  | STARTING => "STARTING"
  | NOT_RUNNING => "NOT_RUNNING"
  | IDLE => "IDLE"
  | RUNNING => "RUNNING"
  | TEARDOWN => "TEARDOWN"
  | FINISHED => "FINISHED"
  end.

Definition state_eqb (a b : EmulatorState) : bool :=
  EmulatorState_value a =? EmulatorState_value b.

(** [cemu.memory.MemorySection], as the constructor calls of the default
    layout use it: name, address, size, permission flags (as the engine
    receives them from [permission.unicorn()], a total conversion of the
    flag set), and the bytes of the optional initial content as stored;
    the session reads them through [section_content]. *)
Record MemorySection : Type := mkSection {
  sec_name : string;
  sec_address : Z;
  sec_size : Z;
  sec_permission : string;
  sec_content : option bytes
}.

(** Modelled from the spec: the three reserved section names of
    [cemu.const] (MEMORY_TEXT_SECTION_NAME and its two siblings), which is
    not among the sources; the spec calls them text, data and stack. *)
Definition MEMORY_TEXT_SECTION_NAME : string := "text".
Definition MEMORY_DATA_SECTION_NAME : string := "data".
Definition MEMORY_STACK_SECTION_NAME : string := "stack".

Definition MEMORY_MAP_DEFAULT_LAYOUT : list MemorySection :=
  [ mkSection MEMORY_TEXT_SECTION_NAME 0x00004000 0x1000 "READ|EXEC" None;
    mkSection MEMORY_DATA_SECTION_NAME 0x00005000 0x1000 "READ|WRITE" None;
    mkSection MEMORY_STACK_SECTION_NAME 0x00006000 0x4000 "READ|WRITE" None ].

(** An assembled or decoded instruction ([cemu.arch.Instruction]): only the
    fields the session reads. *)
Record Instruction : Type := mkInsn {
  insn_address : Z;
  insn_bytes : bytes;
  insn_end : Z
}.

(** Python exceptions raised on the paths modelled here. *)
Inductive exn : Type :=
| RuntimeError (msg : string)
| PyException (msg : string)
| KeyError (key : string)
| ValueError (name : string)
| CemuEmulatorMissingRequiredSection (secname : string)
| AssertionError (msg : string)
| AttributeError (msg : string)
| UcError (code : Z).

Inductive result (A : Type) : Type :=
| Ok (a : A)
| Raise (x : exn).
Arguments Ok {A} a.
Arguments Raise {A} x.

(** Outcome of an engine call that may raise [UcError]. *)
(** Modelled from the spec: the [content] accessor of
    [cemu.memory.MemorySection], which is not among the sources. The spec
    has the invariant that a content, if present, must fit within the
    size of its section; the accessor raises [AttributeError] when it does
    not, and answers the bytes (or [None]) otherwise. *)
Definition section_content (s : MemorySection) : result (option bytes) :=
  match sec_content s with
  | None => Ok None
  | Some b =>
      if sec_size s <? Z.of_nat (List.length b)
      then Raise (AttributeError "Insufficient space")
      else Ok (Some b)
  end.

Inductive uc_result (A : Type) : Type :=
| UcOk (a : A)
| UcFail (code : Z).
Arguments UcOk {A} a.
Arguments UcFail {A} code.

(** The x86-32 segment kinds for which [setup] synthesises a descriptor. *)
Inductive SegmentKind : Type :=
| SegCodeAccessed
| SegDataAccessed
| SegDataAccessedExpandDown.

Definition Callback := string.

(** What a [popup] shows. *)
Inductive PopupMsg : Type :=
| PopupSetupError (e : exn)
| PopupRunFault (code : Z) (pc sp : Z).

(** Ghost trace: engine calls, log lines and UI calls, most recent first. *)
Inductive Event : Type :=
| EvHookAdd (kind : string)
| EvMemMap (address size : Z) (perm : string)
| EvMemWrite (address : Z) (data : bytes)
| EvMemRead (address size : Z)
| EvMemUnmap (address size : Z)
| EvRegWrite (name : string) (value : Z)
| EvRegRead (name : string)
| EvEmuStart (start_address end_address : Z)
| EvNowState (s : EmulatorState)
| EvCallback (s : EmulatorState) (cb : Callback)
| EvPopup (msg : PopupMsg)
| EvRunnerRun
| EvLogError (msg : string).

Definition is_mem_map (ev : Event) : bool :=
  match ev with
  | EvMemMap _ _ _ => true
  | _ => false
  end.

Definition count_mem_map (t : list Event) : nat :=
  List.length (filter is_mem_map t).

(** ** The external collaborators

    [cemu.core.context.architecture], [cemu.arch] and the unicorn engine.
    [Uc] is the engine's state; an engine call that raises leaves it as it
    was, except [emu_start], which may fault after having executed.
    Registers are addressed by name ([arch.uc_register] is folded into
    [uc_reg_read] and [uc_reg_write]) and reading one never raises.
    [assemble] answers [None] where [cemu.arch.assemble] raises, and
    [disassemble_first] gives the first instruction that
    [cemu.arch.disassemble] yields, if any. *)
Record Context (Uc : Type) : Type := mkContext {
  arch_registers : list string;
  arch_pc : string;
  arch_sp : string;
  arch_is_x86 : bool;
  arch_is_x86_32 : bool;
  arch_uc : Uc;
  selector_registers : list string;
  segment_descriptor : Z -> SegmentKind -> Z;
  assemble : string -> Z -> option (list Instruction);
  disassemble_first : bytes -> Z -> option Instruction;
  uc_mem_map : Uc -> Z -> Z -> string -> uc_result Uc;
  uc_mem_write : Uc -> Z -> bytes -> uc_result Uc;
  uc_mem_read : Uc -> Z -> Z -> uc_result bytes;
  uc_mem_unmap : Uc -> Z -> Z -> uc_result Uc;
  uc_reg_write : Uc -> string -> Z -> uc_result Uc;
  uc_reg_read : Uc -> string -> Z;
  uc_emu_start : Uc -> Z -> Z -> Uc * option Z
}.
Arguments arch_registers {Uc} c.
Arguments arch_pc {Uc} c.
Arguments arch_sp {Uc} c.
Arguments arch_is_x86 {Uc} c.
Arguments arch_is_x86_32 {Uc} c.
Arguments arch_uc {Uc} c.
Arguments selector_registers {Uc} c.
Arguments segment_descriptor {Uc} c.
Arguments assemble {Uc} c.
Arguments disassemble_first {Uc} c.
Arguments uc_mem_map {Uc} c.
Arguments uc_mem_write {Uc} c.
Arguments uc_mem_read {Uc} c.
Arguments uc_mem_unmap {Uc} c.
Arguments uc_reg_write {Uc} c.
Arguments uc_reg_read {Uc} c.
Arguments uc_emu_start {Uc} c.

Inductive Runner : Type :=
| EmulationRunner.

(** [class Emulator]: the fields of [__init__], [end_addr] (which only
    [__populate_memory] creates) and the ghost trace. *)
Record Emulator (Uc : Type) : Type := mkEmulator {
  use_step_mode : bool;
  state : EmulatorState;
  state_change_callbacks : list (EmulatorState * list Callback);
  threaded_runner : option Runner;
  vm : option Uc;
  code : bytes;
  codelines : string;
  sections : list MemorySection;
  registers : list (string * Z);
  start_addr : Z;
  end_addr : option Z;
  trace : list Event
}.
Arguments mkEmulator {Uc}.
Arguments use_step_mode {Uc} e.
Arguments state {Uc} e.
Arguments state_change_callbacks {Uc} e.
Arguments threaded_runner {Uc} e.
Arguments vm {Uc} e.
Arguments code {Uc} e.
Arguments codelines {Uc} e.
Arguments sections {Uc} e.
Arguments registers {Uc} e.
Arguments start_addr {Uc} e.
Arguments end_addr {Uc} e.
Arguments trace {Uc} e.

(** ** Python dictionaries and slices *)

(** [dict] lookup and store on an insertion-ordered dictionary. *)
Fixpoint dict_get (key : string) (d : list (string * Z)) : option Z :=
  match d with
  | [] => None
  | (k, v) :: rest => if String.eqb k key then Some v else dict_get key rest
  end.

Fixpoint dict_set (key : string) (value : Z) (d : list (string * Z))
  : list (string * Z) :=
  match d with
  | [] => [(key, value)]
  | (k, v) :: rest =>
      if String.eqb k key then (k, value) :: rest
      else (k, v) :: dict_set key value rest
  end.

Definition dict_has (key : string) (d : list (string * Z)) : bool :=
  match dict_get key d with
  | Some _ => true
  | None => false
  end.

Definition dict_keys (d : list (string * Z)) : list string := map fst d.

(** [{name: 0 for name in names}] *)
Definition zero_registers (names : list string) : list (string * Z) :=
  fold_left (fun d name => dict_set name 0 d) names [].

Definition str_in (s : string) (l : list string) : bool :=
  existsb (String.eqb s) l.

(** [b[i:]] for a Python int [i], negative offsets counting from the end. *)
Definition py_slice_from (b : bytes) (i : Z) : bytes :=
  if i <? 0
  then skipn (Z.to_nat (Z.max (Z.of_nat (List.length b) + i) 0)) b
  else skipn (Z.to_nat i) b.

Fixpoint callbacks_for (s : EmulatorState)
  (d : list (EmulatorState * list Callback)) : option (list Callback) :=
  match d with
  | [] => None
  | (k, v) :: rest => if state_eqb k s then Some v else callbacks_for s rest
  end.

(** The dictionary built by [Emulator.__init__]: no entry for [INVALID]. *)
Definition initial_callbacks : list (EmulatorState * list Callback) :=
  [ (STARTING, []); (NOT_RUNNING, []); (IDLE, []); (RUNNING, []);
    (TEARDOWN, []); (FINISHED, []) ].

(** ** Field updates *)

Section Updates.
Context {Uc : Type}.

Definition with_state (s : EmulatorState) (e : Emulator Uc) : Emulator Uc :=
  mkEmulator (use_step_mode e) s (state_change_callbacks e)
    (threaded_runner e) (vm e) (code e) (codelines e) (sections e)
    (registers e) (start_addr e) (end_addr e) (trace e).

Definition with_vm (v : option Uc) (e : Emulator Uc) : Emulator Uc :=
  mkEmulator (use_step_mode e) (state e) (state_change_callbacks e)
    (threaded_runner e) v (code e) (codelines e) (sections e)
    (registers e) (start_addr e) (end_addr e) (trace e).

Definition with_code (c : bytes) (e : Emulator Uc) : Emulator Uc :=
  mkEmulator (use_step_mode e) (state e) (state_change_callbacks e)
    (threaded_runner e) (vm e) c (codelines e) (sections e)
    (registers e) (start_addr e) (end_addr e) (trace e).

Definition with_sections (l : list MemorySection) (e : Emulator Uc)
  : Emulator Uc :=
  mkEmulator (use_step_mode e) (state e) (state_change_callbacks e)
    (threaded_runner e) (vm e) (code e) (codelines e) l
    (registers e) (start_addr e) (end_addr e) (trace e).

Definition with_registers (r : list (string * Z)) (e : Emulator Uc)
  : Emulator Uc :=
  mkEmulator (use_step_mode e) (state e) (state_change_callbacks e)
    (threaded_runner e) (vm e) (code e) (codelines e) (sections e)
    r (start_addr e) (end_addr e) (trace e).

Definition with_start_addr (a : Z) (e : Emulator Uc) : Emulator Uc :=
  mkEmulator (use_step_mode e) (state e) (state_change_callbacks e)
    (threaded_runner e) (vm e) (code e) (codelines e) (sections e)
    (registers e) a (end_addr e) (trace e).

Definition with_end_addr (a : option Z) (e : Emulator Uc) : Emulator Uc :=
  mkEmulator (use_step_mode e) (state e) (state_change_callbacks e)
    (threaded_runner e) (vm e) (code e) (codelines e) (sections e)
    (registers e) (start_addr e) a (trace e).

Definition with_trace (t : list Event) (e : Emulator Uc) : Emulator Uc :=
  mkEmulator (use_step_mode e) (state e) (state_change_callbacks e)
    (threaded_runner e) (vm e) (code e) (codelines e) (sections e)
    (registers e) (start_addr e) (end_addr e) t.

Definition emit (ev : Event) (e : Emulator Uc) : Emulator Uc :=
  with_trace (ev :: trace e) e.

(** [Emulator.__init__] *)
Definition new_emulator : Emulator Uc :=
  mkEmulator false STARTING initial_callbacks None None [] EmptyString []
    [] 0 None [].

(** [add_state_change_cb]; a state that is no key of the dictionary
    (only [INVALID]) raises [KeyError] and is left out here. *)
Fixpoint append_callback (s : EmulatorState) (cb : Callback)
  (d : list (EmulatorState * list Callback))
  : list (EmulatorState * list Callback) :=
  match d with
  | [] => []
  | (k, v) :: rest =>
      if state_eqb k s then (k, v ++ [cb]) :: rest
      else (k, v) :: append_callback s cb rest
  end.

Definition add_state_change_cb (s : EmulatorState) (cb : Callback)
  (e : Emulator Uc) : Emulator Uc :=
  mkEmulator (use_step_mode e) (state e)
    (append_callback s cb (state_change_callbacks e))
    (threaded_runner e) (vm e) (code e) (codelines e) (sections e)
    (registers e) (start_addr e) (end_addr e) (trace e).

Definition set_threaded_runner (r : Runner) (e : Emulator Uc)
  : Emulator Uc :=
  mkEmulator (use_step_mode e) (state e) (state_change_callbacks e)
    (Some r) (vm e) (code e) (codelines e) (sections e)
    (registers e) (start_addr e) (end_addr e) (trace e).

(** [is_running] *)
Definition is_running (e : Emulator Uc) : bool :=
  match state e with
  | RUNNING | IDLE => true
  | _ => false
  end.

(** [emu.state in (RUNNING, IDLE, FINISHED)] *)
Definition execution_capable (s : EmulatorState) : bool :=
  match s with
  | RUNNING | IDLE | FINISHED => true
  | _ => false
  end.
End Updates.

(** ** The state-and-exception monad *)

Section Monad.
Context {Uc : Type}.

Definition EmuM (A : Type) : Type := Emulator Uc -> result A * Emulator Uc.

Definition ret {A : Type} (a : A) : EmuM A := fun e => (Ok a, e).

Definition bind {A B : Type} (m : EmuM A) (k : A -> EmuM B) : EmuM B :=
  fun e =>
    match m e with
    | (Ok a, e') => k a e'
    | (Raise x, e') => (Raise x, e')
    end.

Definition raise {A : Type} (x : exn) : EmuM A := fun e => (Raise x, e).

Definition gets {A : Type} (f : Emulator Uc -> A) : EmuM A :=
  fun e => (Ok (f e), e).

Definition modify (f : Emulator Uc -> Emulator Uc) : EmuM unit :=
  fun e => (Ok tt, f e).

Definition log (ev : Event) : EmuM unit := modify (emit ev).

(** A call that does not touch the session and may raise. *)
Definition lift_result {A : Type} (r : result A) : EmuM A := fun e => (r, e).

(** [try: m except ...: h]: the handler answers [None] for an exception
    its [except] clause does not match, which then propagates. *)
Definition try_except {A : Type} (m : EmuM A) (h : exn -> option (EmuM A))
  : EmuM A :=
  fun e =>
    match m e with
    | (Ok a, e') => (Ok a, e')
    | (Raise x, e') =>
        match h x with
        | Some k => k e'
        | None => (Raise x, e')
        end
    end.

Fixpoint for_each {A : Type} (l : list A) (body : A -> EmuM unit) : EmuM unit :=
  match l with
  | [] => ret tt
  | a :: rest => bind (body a) (fun _ => for_each rest body)
  end.
End Monad.
Arguments EmuM Uc A : clear implicits.

Declare Scope emu_scope.
Delimit Scope emu_scope with emu.
Notation "x <- m ;; k" := (bind m (fun x => k))
  (at level 100, m at next level, right associativity) : emu_scope.
Notation "m ;;; k" := (bind m (fun _ => k))
  (at level 100, right associativity) : emu_scope.
Local Open Scope emu_scope.

(** ** The session's operations *)

Section Session.
Variable Uc : Type.
Variable ctx : Context Uc.

Local Abbreviation M := (EmuM Uc).

(** One call on [self.vm] that may raise [UcError]; the engine keeps its
    state when the call raises. *)
Definition vm_call (ev : Event) (op : Uc -> uc_result Uc) : M unit :=
  fun e =>
    match vm e with
    | None => (Raise (AttributeError "NoneType"), e)
    | Some uc =>
        match op uc with
        | UcOk uc' => (Ok tt, emit ev (with_vm (Some uc') e))
        | UcFail c => (Raise (UcError c), emit ev e)
        end
    end.

(** [Emulator.get_register_value] *)
Definition get_register_value (regname : string) : M (option Z) :=
  fun e =>
    match vm e with
    | None => (Ok None, e)
    | Some uc =>
        (Ok (Some (uc_reg_read ctx uc regname)), emit (EvRegRead regname) e)
    end.

(** [EmulationRegisters.__getitem__] *)
Definition registers_getitem (key : string) : M Z :=
  st <- gets state ;;
  regs <- gets registers ;;
  (if execution_capable st && dict_has key regs
   then
     val <- get_register_value key ;;
     match val with
     | Some v => modify (fun e => with_registers (dict_set key v (registers e)) e)
     | None => ret tt
     end
   else ret tt) ;;;
  regs' <- gets registers ;;
  match dict_get key regs' with
  | Some v => ret v
  | None => raise (KeyError key)
  end.

(** [EmulationRegisters.__setitem__], inherited from [UserDict]. *)
Definition registers_setitem (key : string) (value : Z) : M unit :=
  modify (fun e => with_registers (dict_set key value (registers e)) e).

(** [Emulator.pc] and [Emulator.sp] *)
Definition pc : M Z := registers_getitem (arch_pc ctx).
Definition sp : M Z := registers_getitem (arch_sp ctx).

(** [Emulator.find_section], on a section list. *)
Definition find_section_in (secs : list MemorySection)
  (section_name : string) : result MemorySection :=
  match filter (fun s => String.eqb (sec_name s) section_name) secs with
  | [] => Raise (KeyError section_name)
  | [m] => Ok m
  | _ :: _ :: _ => Raise (ValueError section_name)
  end.

Definition find_section (section_name : string) : M MemorySection :=
  fun e => (find_section_in (sections e) section_name, e).

(** The body of the loop of [__populate_memory]: [section.content] is
    evaluated after the mapping, in the test [if section.content:] (and
    once more, to the same bytes, as the argument of [mem_write]). *)
Definition map_section (section : MemorySection) : M unit :=
  vm_call
    (EvMemMap (sec_address section) (sec_size section)
       (sec_permission section))
    (fun uc =>
       uc_mem_map ctx uc (sec_address section) (sec_size section)
         (sec_permission section)) ;;;
  content <- lift_result (section_content section) ;;
  match content with
  | Some (b :: content) =>
      vm_call (EvMemWrite (sec_address section) (b :: content))
        (fun uc => uc_mem_write ctx uc (sec_address section) (b :: content))
  | _ => ret tt
  end.

(** [Emulator.__populate_memory] *)
Definition populate_memory : M bool :=
  v <- gets vm ;;
  match v with
  | None => log (EvLogError "VM is not initalized") ;;; ret false
  | Some _ =>
      secs <- gets sections ;;
      match secs with
      | [] => log (EvLogError "No section declared") ;;; ret false
      | first :: _ =>
          for_each secs map_section ;;;
          modify (with_start_addr (sec_address first)) ;;;
          modify (with_end_addr (Some (-1))) ;;;
          ret true
      end
  end.

(** The x86-32 selector block of [__populate_vm_registers]. *)
Definition populate_selectors : M unit :=
  text <- find_section MEMORY_TEXT_SECTION_NAME ;;
  registers_setitem "CS"
    (segment_descriptor ctx (Z.shiftr (sec_address text) 8)
       SegCodeAccessed) ;;;
  data <- find_section MEMORY_DATA_SECTION_NAME ;;
  registers_setitem "DS"
    (segment_descriptor ctx (Z.shiftr (sec_address data) 8)
       SegDataAccessed) ;;;
  stack <- find_section MEMORY_STACK_SECTION_NAME ;;
  registers_setitem "SS"
    (segment_descriptor ctx (Z.shiftr (sec_address stack) 8)
       SegDataAccessedExpandDown) ;;;
  registers_setitem "GS" 0 ;;;
  registers_setitem "FS" 0 ;;;
  registers_setitem "ES" 0.

(** The body of the loop over [self.registers.items()]: the items view of
    a [UserDict] fetches each value through [__getitem__]. *)
Definition push_register (regname : string) : M unit :=
  regvalue <- registers_getitem regname ;;
  if str_in regname (selector_registers ctx) then ret tt
  else
    vm_call (EvRegWrite regname regvalue)
      (fun uc => uc_reg_write ctx uc regname regvalue).

(** [Emulator.__populate_vm_registers]; the two [warn] lines format
    [self.registers[...]] and so go through [__getitem__] once more. *)
Definition populate_vm_registers : M bool :=
  v <- gets vm ;;
  match v with
  | None => ret false
  | Some _ =>
      pcv <- registers_getitem (arch_pc ctx) ;;
      (if pcv =? 0
       then
         section <- find_section MEMORY_TEXT_SECTION_NAME ;;
         registers_setitem (arch_pc ctx) (sec_address section) ;;;
         _ <- registers_getitem (arch_pc ctx) ;;
         ret tt
       else ret tt) ;;;
      spv <- registers_getitem (arch_sp ctx) ;;
      (if spv =? 0
       then
         section <- find_section MEMORY_STACK_SECTION_NAME ;;
         registers_setitem (arch_sp ctx)
           (sec_address section + sec_size section / 2) ;;;
         _ <- registers_getitem (arch_sp ctx) ;;
         ret tt
       else ret tt) ;;;
      (if arch_is_x86_32 ctx then populate_selectors else ret tt) ;;;
      regs <- gets registers ;;
      for_each (dict_keys regs) push_register ;;;
      ret true
  end.

(** The body of the loop of [__refresh_registers_from_vm]. *)
Definition refresh_register (regname : string) : M unit :=
  fun e =>
    match vm e with
    | None => (Raise (AttributeError "NoneType"), e)
    | Some uc =>
        (Ok tt,
         with_registers
           (dict_set regname (uc_reg_read ctx uc regname) (registers e))
           (emit (EvRegRead regname) e))
    end.

(** [Emulator.__refresh_registers_from_vm] *)
Definition refresh_registers_from_vm : M bool :=
  fun e =>
    match vm e with
    | None => (Ok false, e)
    | Some _ =>
        if negb (is_running e) then (Ok false, e)
        else
          (for_each (dict_keys (registers e)) refresh_register ;;;
           ret true) e
    end.

(** [Emulator.__generate_text_bytecode]: [assemble] answers [None] when
    [cemu.arch.assemble] raises. *)
Definition generate_text_bytecode : M bool :=
  cl <- gets codelines ;;
  sa <- gets start_addr ;;
  match assemble ctx cl sa with
  | None => log (EvLogError "Failed to compile") ;;; ret false
  | Some [] => log (EvLogError "Failed to compile") ;;; ret false
  | Some (i :: insns) =>
      let c := List.concat (map insn_bytes (i :: insns)) in
      modify (with_code c) ;;;
      modify (with_end_addr (Some (sa + Z.of_nat (List.length c)))) ;;;
      ret true
  end.

Definition validate_assembly_code : M bool := generate_text_bytecode.

(** The body of the loop of [__populate_text_section]. *)
Definition require_section (secname : string) : M unit :=
  try_except (_ <- find_section secname ;; ret tt)
    (fun x =>
       match x with
       | KeyError _ =>
           Some (raise (CemuEmulatorMissingRequiredSection secname))
       | _ => None
       end).

(** [Emulator.__populate_text_section] *)
Definition populate_text_section : M bool :=
  v <- gets vm ;;
  match v with
  | None => ret false
  | Some _ =>
      for_each
        [ MEMORY_TEXT_SECTION_NAME; MEMORY_DATA_SECTION_NAME;
          MEMORY_STACK_SECTION_NAME ] require_section ;;;
      text_section <- find_section MEMORY_TEXT_SECTION_NAME ;;
      ok <- generate_text_bytecode ;;
      if negb ok
      then log (EvLogError "__generate_text_bytecode() failed") ;;; ret false
      else
        c <- gets code ;;
        vm_call (EvMemWrite (sec_address text_section) c)
          (fun uc => uc_mem_write ctx uc (sec_address text_section) c) ;;;
        ret true
  end.

(** The part of [Emulator.setup] that follows [self.vm = arch.uc]: the
    hooks, then the three populate steps. *)
Definition setup_engine : M unit :=
  log (EvHookAdd "UC_HOOK_BLOCK") ;;;
  log (EvHookAdd "UC_HOOK_CODE") ;;;
  log (EvHookAdd "UC_HOOK_INTR") ;;;
  log (EvHookAdd "UC_HOOK_MEM_WRITE") ;;;
  log (EvHookAdd "UC_HOOK_MEM_READ") ;;;
  (if arch_is_x86 ctx then log (EvHookAdd "UC_HOOK_INSN") else ret tt) ;;;
  ok <- populate_memory ;;
  (if negb ok then raise (RuntimeError "populate_memory() failed")
   else ret tt) ;;;
  ok <- populate_vm_registers ;;
  (if negb ok then raise (RuntimeError "populate_registers() failed")
   else ret tt) ;;;
  ok <- populate_text_section ;;
  (if negb ok then raise (PyException "populate_text_section() failed")
   else ret tt).

(** [Emulator.setup] *)
Definition setup : M unit :=
  v <- gets vm ;;
  match v with
  | Some _ => ret tt
  | None => modify (with_vm (Some (arch_uc ctx))) ;;; setup_engine
  end.

(** The body of the loop of [teardown]. *)
Definition unmap_section (section : MemorySection) : M unit :=
  vm_call (EvMemUnmap (sec_address section) (sec_size section))
    (fun uc => uc_mem_unmap ctx uc (sec_address section) (sec_size section)).

(** [Emulator.teardown]; the [info] line formats [self.pc()]. *)
Definition teardown : M unit :=
  v <- gets vm ;;
  match v with
  | None => ret tt
  | Some _ =>
      _ <- pc ;;
      secs <- gets sections ;;
      for_each secs unmap_section ;;;
      modify (with_vm None)
  end.

(** The entry actions of [Emulator.set], by target state. *)
Definition entry_action (new_state : EmulatorState) : M unit :=
  match new_state with
  | RUNNING | IDLE =>
      try_except setup
        (fun x => Some (log (EvPopup (PopupSetupError x)))) ;;;
      st <- gets state ;;
      if state_eqb st RUNNING
      then _ <- refresh_registers_from_vm ;; ret tt
      else ret tt
  | FINISHED => _ <- refresh_registers_from_vm ;; ret tt
  | _ => ret tt
  end.

(** [Emulator.set], with the final [match self.state] left to [on_exit].
    The calls nested inside a transition ([reset] asks for [NOT_RUNNING],
    the runner for [FINISHED] or [IDLE]) never reach a branch of that
    match other than the default one, so they are the instance
    [set_nested]; the top-level [set] follows the runner and [reset]. *)
Definition set_with (on_exit : EmulatorState -> M unit)
  (new_state : EmulatorState) : M unit :=
  st <- gets state ;;
  if state_eqb st new_state then ret tt
  else
    entry_action new_state ;;;
    log (EvNowState new_state) ;;;
    modify (with_state new_state) ;;;
    cbs <- gets (fun e => callbacks_for new_state (state_change_callbacks e)) ;;
    match cbs with
    | None => raise (KeyError (EmulatorState_name new_state))
    | Some l =>
        for_each l (fun cb => log (EvCallback new_state cb)) ;;;
        st' <- gets state ;;
        on_exit st'
    end.

Definition set_nested : EmulatorState -> M unit :=
  set_with (fun _ => ret tt).

(** [Emulator.reset] *)
Definition reset : M unit :=
  modify (with_vm None) ;;;
  modify (with_code []) ;;;
  modify (with_sections MEMORY_MAP_DEFAULT_LAYOUT) ;;;
  modify (with_registers (zero_registers (arch_registers ctx))) ;;;
  modify (with_start_addr 0) ;;;
  set_nested NOT_RUNNING.

(** [emu.pc() or emu.start_addr] *)
Definition start_address_of (pcv sa : Z) : Z :=
  if pcv =? 0 then sa else pcv.

(** [Emulator.next_instruction] *)
Definition next_instruction (c : bytes) (addr : Z) : option Instruction :=
  disassemble_first ctx c addr.

(** Where a run stops: [None] when step mode finds nothing to decode. *)
Definition end_address_of (e : Emulator Uc) (start_address : Z)
  : option Z :=
  if use_step_mode e
  then
    match next_instruction
            (py_slice_from (code e) (start_address - start_addr e))
            start_address with
    | None => None
    | Some insn => Some (insn_end insn)
    end
  else Some (start_addr e + Z.of_nat (List.length (code e))).

(** [emu.vm.emu_start], inside [with emu.lock]; with a single thread of
    control the lock is free when taken and is released on both exits. *)
Definition emu_start (start_address end_address : Z) : M unit :=
  fun e =>
    match vm e with
    | None => (Raise (AttributeError "NoneType"), e)
    | Some uc =>
        let e' := emit (EvEmuStart start_address end_address) e in
        match uc_emu_start ctx uc start_address end_address with
        | (uc', None) => (Ok tt, with_vm (Some uc') e')
        | (uc', Some c) => (Raise (UcError c), with_vm (Some uc') e')
        end
    end.

(** The [try] block of [EmulationRunner.run]. *)
Definition run_body : M unit :=
  pcv <- pc ;;
  sa <- gets start_addr ;;
  let start_address := start_address_of pcv sa in
  stop <- gets (fun e => end_address_of e start_address) ;;
  match stop with
  | None => set_nested FINISHED
  | Some end_address =>
      emu_start start_address end_address ;;;
      pcv' <- pc ;;
      sa' <- gets start_addr ;;
      c <- gets code ;;
      if pcv' =? sa' + Z.of_nat (List.length c)
      then set_nested FINISHED
      else set_nested IDLE
  end.

(** The [except UcError] handler of [EmulationRunner.run]. *)
Definition run_fault (c : Z) : M unit :=
  pcv <- pc ;;
  spv <- sp ;;
  log (EvPopup (PopupRunFault c pcv spv)) ;;;
  set_nested FINISHED.

(** [except unicorn.unicorn.UcError as e]: no other exception is caught. *)
Definition run_handler (x : exn) : option (M unit) :=
  match x with
  | UcError c => Some (run_fault c)
  | _ => None
  end.

(** [EmulationRunner.run] *)
Definition run : M unit :=
  v <- gets vm ;;
  match v with
  | None => log (EvLogError "VM is not ready")
  | Some _ =>
      r <- gets is_running ;;
      if negb r then log (EvLogError "Emulator is in invalid state")
      else try_except run_body run_handler
  end.

(** The final [match self.state] of [Emulator.set]. *)
Definition exit_action (st : EmulatorState) : M unit :=
  match st with
  | RUNNING =>
      r <- gets threaded_runner ;;
      match r with
      | None => raise (AssertionError "No threaded runner defined")
      | Some EmulationRunner => log EvRunnerRun ;;; run
      end
  | TEARDOWN => teardown ;;; reset
  | _ => ret tt
  end.

(** [Emulator.set] *)
Definition set : EmulatorState -> M unit := set_with exit_action.

(** [Emulator.read] *)
Definition read (address size : Z) : M (option bytes) :=
  fun e =>
    match vm e with
    | None => (Ok None, e)
    | Some uc =>
        if negb (is_running e) then (Ok None, e)
        else
          match uc_mem_read ctx uc address size with
          | UcOk b => (Ok (Some b), emit (EvMemRead address size) e)
          | UcFail c => (Raise (UcError c), emit (EvMemRead address size) e)
          end
    end.

(** [Emulator.write] *)
Definition write (address : Z) (data : bytes) : M (option Z) :=
  fun e =>
    match vm e with
    | None => (Ok None, e)
    | Some _ =>
        if negb (is_running e) then (Ok None, e)
        else
          (vm_call (EvMemWrite address data)
             (fun uc => uc_mem_write ctx uc address data) ;;;
           ret (Some (Z.of_nat (List.length data)))) e
    end.

(** ** Predicates used by the statements *)

(** The engine refused a request: the call failed with the engine's
    error. [setup], its steps and [teardown] catch no exception, so such
    a call whose result is not [refused] had every request it made
    accepted. *)
Definition refused {A : Type} (r : result A) : Prop :=
  exists c, r = Raise (UcError c).

(** A computation is stable for a relation when the session it leaves is
    related to the one it started from, whether it returns or raises. *)
Definition stable {A : Type} (R : Emulator Uc -> Emulator Uc -> Prop)
  (m : M A) : Prop :=
  forall e, R e (snd (m e)).

(** Everything but the engine, the compiled code, the register cache and
    the code window is kept, and an engine is never dropped. *)
Definition same_configuration (e e' : Emulator Uc) : Prop :=
  use_step_mode e' = use_step_mode e /\
  state e' = state e /\
  state_change_callbacks e' = state_change_callbacks e /\
  threaded_runner e' = threaded_runner e /\
  codelines e' = codelines e /\
  sections e' = sections e /\
  (vm e <> None -> vm e' <> None).

(** The trace is extended, by events that all satisfy [P]. *)
Definition trace_adds (P : Event -> Prop) (e e' : Emulator Uc) : Prop :=
  exists t, trace e' = t ++ trace e /\ Forall P t.

Definition evolves (P : Event -> Prop) (e e' : Emulator Uc) : Prop :=
  same_configuration e e' /\ trace_adds P e e'.

Definition not_mem_map (ev : Event) : Prop := is_mem_map ev = false.

(** What the engine calls of [setup] leave alone. *)
Definition cache_kept (e0 e : Emulator Uc) : Prop :=
  vm e <> None /\ registers e = registers e0 /\ state e = state e0 /\
  start_addr e = start_addr e0 /\ code e = code e0 /\
  sections e = sections e0.


End Session.

Arguments vm_call {Uc} ev op.
Arguments get_register_value {Uc} ctx regname.
Arguments registers_getitem {Uc} ctx key.
Arguments registers_setitem {Uc} key value.
Arguments pc {Uc} ctx.
Arguments sp {Uc} ctx.
Arguments find_section {Uc} section_name.
Arguments map_section {Uc} ctx section.
Arguments populate_memory {Uc} ctx.
Arguments populate_selectors {Uc} ctx.
Arguments push_register {Uc} ctx regname.
Arguments populate_vm_registers {Uc} ctx.
Arguments refresh_register {Uc} ctx regname.
Arguments refresh_registers_from_vm {Uc} ctx.
Arguments generate_text_bytecode {Uc} ctx.
Arguments validate_assembly_code {Uc} ctx.
Arguments require_section {Uc} secname.
Arguments populate_text_section {Uc} ctx.
Arguments setup_engine {Uc} ctx.
Arguments setup {Uc} ctx.
Arguments unmap_section {Uc} ctx section.
Arguments teardown {Uc} ctx.
Arguments entry_action {Uc} ctx new_state.
Arguments set_with {Uc} ctx on_exit new_state.
Arguments set_nested {Uc} ctx.
Arguments reset {Uc} ctx.
Arguments next_instruction {Uc} ctx c addr.
Arguments end_address_of {Uc} ctx e start_address.
Arguments emu_start {Uc} ctx start_address end_address.
Arguments run_body {Uc} ctx.
Arguments run_fault {Uc} ctx c.
Arguments run_handler {Uc} ctx x.
Arguments run {Uc} ctx.
Arguments exit_action {Uc} ctx st.
Arguments set {Uc} ctx.
Arguments read {Uc} ctx address size.
Arguments write {Uc} ctx address data.
Arguments stable {Uc A} R m.
Arguments same_configuration {Uc} e e'.
Arguments trace_adds {Uc} P e e'.
Arguments evolves {Uc} P e e'.
Arguments cache_kept {Uc} e0 e.

(** ** A small engine and backend on which the model runs

    The engine is a register file; mapping and writing memory always
    succeed; a run started below the text base faults with code 8 where it
    started, any other run stops at its end address. The assembler emits
    one one-byte instruction per character of the source text. *)
Module Toy.
Definition Uc : Type := list (string * Z).

Definition reg_read (uc : Uc) (r : string) : Z :=
  match dict_get r uc with
  | Some v => v
  | None => 0
  end.

Definition emu_start (uc : Uc) (start_address end_address : Z)
  : Uc * option Z :=
  if start_address <? 0x4000
  then (dict_set "pc" start_address uc, Some 8)
  else (dict_set "pc" end_address uc, None).

Fixpoint assemble_chars (s : string) (base : Z) : list Instruction :=
  match s with
  | EmptyString => []
  | String _ rest =>
      mkInsn base [Byte.x90] (base + 1) :: assemble_chars rest (base + 1)
  end.

Definition disassemble_first (b : bytes) (addr : Z) : option Instruction :=
  match b with
  | [] => None
  | x :: _ => Some (mkInsn addr [x] (addr + 1))
  end.

Definition ctx : Context Uc :=
  mkContext Uc
    ["pc"; "sp"; "r0"] "pc" "sp" false false []
    ["CS"; "DS"; "ES"; "FS"; "GS"; "SS"]
    (fun base _ => base)
    (fun s base => Some (assemble_chars s base))
    disassemble_first
    (fun uc _ _ _ => UcOk uc)
    (fun uc _ _ => UcOk uc)
    (fun _ _ size => UcOk (repeat Byte.x00 (Z.to_nat size)))
    (fun uc _ _ => UcOk uc)
    (fun uc r v => UcOk (dict_set r v uc))
    reg_read
    emu_start.

(** A session as [CEmuWindow.__init__] leaves it: runner installed, one
    observer per state shown in the status bar, then [reset]. *)
Definition fresh : Emulator Uc :=
  snd (reset ctx
         (add_state_change_cb FINISHED "update_layout_step_finished"
            (add_state_change_cb IDLE "update_layout_step_running"
               (add_state_change_cb RUNNING "update_layout_running"
                  (add_state_change_cb NOT_RUNNING
                     "update_layout_not_running"
                     (set_threaded_runner EmulationRunner
                        new_emulator)))))).

Definition with_source (s : string) (e : Emulator Uc) : Emulator Uc :=
  mkEmulator (use_step_mode e) (state e) (state_change_callbacks e)
    (threaded_runner e) (vm e) (code e) s (sections e)
    (registers e) (start_addr e) (end_addr e) (trace e).

Definition with_step_mode (b : bool) (e : Emulator Uc) : Emulator Uc :=
  mkEmulator b (state e) (state_change_callbacks e)
    (threaded_runner e) (vm e) (code e) (codelines e) (sections e)
    (registers e) (start_addr e) (end_addr e) (trace e).
End Toy.


(** ** Further vocabulary for the statements *)

(** What mapping one section leaves in the trace, most recent first: the
    mapping, then the write of its content when it has some that fits. *)
Definition mapping_events (s : MemorySection) : list Event :=
  match section_content s with
  | Ok (Some (b :: content)) =>
      [ EvMemWrite (sec_address s) (b :: content);
        EvMemMap (sec_address s) (sec_size s) (sec_permission s) ]
  | _ => [ EvMemMap (sec_address s) (sec_size s) (sec_permission s) ]
  end.

Definition unmapping_event (s : MemorySection) : Event :=
  EvMemUnmap (sec_address s) (sec_size s).

(** The event is not a register write for a selector register. *)
Definition spares_selectors {Uc : Type} (ctx : Context Uc) (ev : Event)
  : Prop :=
  match ev with
  | EvRegWrite n _ => str_in n (selector_registers ctx) = false
  | _ => True
  end.

(** The event is not a call of the engine's run primitive. *)
Definition not_emu_start (ev : Event) : Prop :=
  match ev with
  | EvEmuStart _ _ => False
  | _ => True
  end.

(** The code window and the compiled bytes are kept. *)
Definition same_window {Uc : Type} (e e' : Emulator Uc) : Prop :=
  start_addr e' = start_addr e /\ end_addr e' = end_addr e /\
  code e' = code e.

(** Every register name of the cache of [e] is still one of [e']. *)
Definition keys_kept {Uc : Type} (e e' : Emulator Uc) : Prop :=
  forall k, dict_has k (registers e) = true ->
            dict_has k (registers e') = true.

(** The register writes that push a cache to the engine, most recent
    last: one per name that is not a selector register, in dictionary
    order, with the cached value. *)
Definition register_writes {Uc : Type} (ctx : Context Uc)
  (regs : list (string * Z)) : list Event :=
  map (fun k => EvRegWrite k (match dict_get k regs with
                              | Some v => v
                              | None => 0
                              end))
    (filter (fun k => negb (str_in k (selector_registers ctx)))
       (dict_keys regs)).

(** Outside [RUNNING], [IDLE] and [FINISHED], nothing is added to the
    trace and the state is kept. *)
Definition quiet {Uc : Type} (e e' : Emulator Uc) : Prop :=
  execution_capable (state e) = false ->
  trace e' = trace e /\ state e' = state e.

(** * Properties *)

(** ** Dictionaries and enumerations *)

Lemma state_eqb_eq (a b : EmulatorState) : state_eqb a b = true <-> a = b.
Proof.
  split.
  - destruct a, b; simpl; intro H; try reflexivity; discriminate H.
  - intros ->. destruct b; reflexivity.
Qed.

Lemma state_eqb_neq (a b : EmulatorState) : a <> b -> state_eqb a b = false.
Proof.
  intro H. destruct (state_eqb a b) eqn:E; [|reflexivity].
  apply state_eqb_eq in E. contradiction.
Qed.

Lemma dict_get_set_same (k : string) (v : Z) (d : list (string * Z)) :
  dict_get k (dict_set k v d) = Some v.
Proof.
  induction d as [|[k' v'] d IH]; simpl.
  - now rewrite String.eqb_refl.
  - destruct (String.eqb k' k) eqn:E; simpl; rewrite E; auto.
Qed.

Lemma dict_get_set_other (k k' : string) (v : Z) (d : list (string * Z)) :
  k <> k' -> dict_get k (dict_set k' v d) = dict_get k d.
Proof.
  intro Hne. induction d as [|[k0 v0] d IH]; simpl.
  - destruct (String.eqb_spec k' k); [congruence|reflexivity].
  - destruct (String.eqb_spec k0 k'); simpl.
    + subst k0. destruct (String.eqb_spec k' k); [congruence|reflexivity].
    + now rewrite IH.
Qed.

Lemma dict_has_set (k k' : string) (v : Z) (d : list (string * Z)) :
  dict_has k d = true -> dict_has k (dict_set k' v d) = true.
Proof.
  unfold dict_has. intro H.
  destruct (String.eqb_spec k k') as [->|Hne].
  - now rewrite dict_get_set_same.
  - now rewrite dict_get_set_other.
Qed.

Lemma dict_keys_set (k : string) (v : Z) (d : list (string * Z)) :
  dict_has k d = true -> dict_keys (dict_set k v d) = dict_keys d.
Proof.
  unfold dict_has, dict_keys.
  induction d as [|[k0 v0] d IH]; simpl; [discriminate|].
  destruct (String.eqb k0 k); simpl; [reflexivity|].
  intro H. now rewrite IH.
Qed.

Lemma dict_has_keys (k : string) (d : list (string * Z)) :
  In k (dict_keys d) -> dict_has k d = true.
Proof.
  unfold dict_has, dict_keys.
  induction d as [|[k0 v0] d IH]; simpl; [tauto|].
  intros [->|H].
  - now rewrite String.eqb_refl.
  - destruct (String.eqb k0 k); [reflexivity|auto].
Qed.

Lemma dict_set_values (k : string) (v : Z) (d : list (string * Z)) :
  forall k' v', In (k', v') (dict_set k v d) -> v' = v \/ In (k', v') d.
Proof.
  induction d as [|[k0 v0] d IH]; simpl; intros k' v'.
  - intros [H|[]]. left. congruence.
  - destruct (String.eqb k0 k); simpl.
    + intros [H|H]; [left; congruence|auto].
    + intros [H|H]; [auto|]. destruct (IH _ _ H); auto.
Qed.

Lemma fold_zero_values (names : list string) :
  forall d, (forall k v, In (k, v) d -> v = 0) ->
  forall k v,
    In (k, v) (fold_left (fun d name => dict_set name 0 d) names d) -> v = 0.
Proof.
  induction names as [|n names IH]; simpl; intros d Hd k v H; [eauto|].
  eapply IH; [|exact H].
  intros k' v' H'. destruct (dict_set_values _ _ _ _ _ H'); eauto.
Qed.

Lemma zero_registers_values (names : list string) (k : string) (v : Z) :
  In (k, v) (zero_registers names) -> v = 0.
Proof.
  apply fold_zero_values. intros ? ? [].
Qed.

Lemma fold_zero_get (names : list string) (k : string) :
  forall d, (In k names \/ dict_get k d = Some 0) ->
  dict_get k (fold_left (fun d name => dict_set name 0 d) names d) = Some 0.
Proof.
  induction names as [|n names IH]; simpl; intros d H.
  - destruct H as [[]|H]; exact H.
  - apply IH. destruct (String.eqb_spec k n) as [->|Hne].
    + right. apply dict_get_set_same.
    + destruct H as [[H|H]|H]; [congruence|now left|].
      right. now rewrite dict_get_set_other.
Qed.

Lemma zero_registers_get (names : list string) (k : string) :
  In k names -> dict_get k (zero_registers names) = Some 0.
Proof.
  intro H. apply fold_zero_get. now left.
Qed.

(** ** Guards of the public wrappers *)

(** C10: [read] and [write] return [None] and leave the session (engine
    and trace included) as it was whenever there is no engine or the state
    is neither [RUNNING] nor [IDLE]; this covers [FINISHED], where an
    engine may still exist; and when the guard passes and the engine
    accepts the write, [write] returns [len(data)]. *)
Theorem read_write_guard {Uc : Type} (ctx : Context Uc) (e : Emulator Uc)
  (address size : Z) (data : bytes) :
  (vm e = None \/ is_running e = false ->
   read ctx address size e = (Ok None, e) /\
   write ctx address data e = (Ok None, e)) /\
  (state e = FINISHED ->
   read ctx address size e = (Ok None, e) /\
   write ctx address data e = (Ok None, e)) /\
  (forall uc uc',
     vm e = Some uc -> is_running e = true ->
     uc_mem_write ctx uc address data = UcOk uc' ->
     write ctx address data e =
       (Ok (Some (Z.of_nat (List.length data))),
        emit (EvMemWrite address data) (with_vm (Some uc') e))).
Proof.
  assert (Hguard : vm e = None \/ is_running e = false ->
                   read ctx address size e = (Ok None, e) /\
                   write ctx address data e = (Ok None, e)).
  { unfold read, write. intros [Hvm|Hrun].
    - rewrite Hvm. split; reflexivity.
    - rewrite Hrun. destruct (vm e); split; reflexivity. }
  split; [exact Hguard|]. split.
  - intro Hst. apply Hguard. right. unfold is_running. now rewrite Hst.
  - intros uc uc' Hvm Hrun Hw.
    unfold write, bind, vm_call, ret. rewrite Hvm, Hrun, Hw.
    reflexivity.
Qed.

(** ** The register cache *)

(** C5: for a known key, [__getitem__] in state [RUNNING], [IDLE] or
    [FINISHED] with a live engine reads the engine's value, stores it
    under the key and returns it; in every other state it returns the
    stored value and leaves the whole session, trace of engine calls
    included, untouched. *)
Theorem registers_getitem_refresh {Uc : Type} (ctx : Context Uc)
  (e : Emulator Uc) (name : string)
  (Hknown : dict_has name (registers e) = true) :
  (forall uc,
     execution_capable (state e) = true -> vm e = Some uc ->
     registers_getitem ctx name e =
       (Ok (uc_reg_read ctx uc name),
        with_registers (dict_set name (uc_reg_read ctx uc name) (registers e))
          (emit (EvRegRead name) e)) /\
     dict_get name (registers (snd (registers_getitem ctx name e)))
       = Some (uc_reg_read ctx uc name)) /\
  (execution_capable (state e) = false ->
   exists v,
     dict_get name (registers e) = Some v /\
     registers_getitem ctx name e = (Ok v, e)).
Proof.
  split.
  - intros uc Hcap Hvm.
    assert (E : registers_getitem ctx name e =
                (Ok (uc_reg_read ctx uc name),
                 with_registers
                   (dict_set name (uc_reg_read ctx uc name) (registers e))
                   (emit (EvRegRead name) e))).
    { unfold registers_getitem, bind, gets, get_register_value, modify, ret.
      simpl. rewrite Hcap, Hknown. simpl. rewrite Hvm. simpl.
      rewrite dict_get_set_same. reflexivity. }
    split; [exact E|]. rewrite E. simpl. apply dict_get_set_same.
  - intro Hcap. unfold dict_has in Hknown.
    destruct (dict_get name (registers e)) as [v|] eqn:Hget;
      [|discriminate].
    exists v. split; [reflexivity|].
    unfold registers_getitem, bind, gets, ret. simpl.
    rewrite Hcap. simpl. rewrite Hget. reflexivity.
Qed.

Lemma registers_getitem_refresh_witness :
  registers_getitem Toy.ctx "sp"
    (with_state IDLE (with_vm (Some [("sp", 0x8000)]) Toy.fresh))
  = (Ok 0x8000,
     with_registers [("pc", 0); ("sp", 0x8000); ("r0", 0)]
       (emit (EvRegRead "sp")
          (with_state IDLE (with_vm (Some [("sp", 0x8000)]) Toy.fresh))))
  /\ registers_getitem Toy.ctx "sp"
       (with_vm (Some [("sp", 0x8000)]) Toy.fresh)
     = (Ok 0, with_vm (Some [("sp", 0x8000)]) Toy.fresh).
Proof.
  split.
  - destruct (registers_getitem_refresh Toy.ctx
                (with_state IDLE (with_vm (Some [("sp", 0x8000)]) Toy.fresh))
                "sp" eq_refl) as [H _].
    destruct (H [("sp", 0x8000)] eq_refl eq_refl) as [Hr _]. exact Hr.
  - destruct (registers_getitem_refresh Toy.ctx
                (with_vm (Some [("sp", 0x8000)]) Toy.fresh) "sp" eq_refl)
      as [_ H].
    destruct (H eq_refl) as [v [Hv Hr]].
    vm_compute in Hv. injection Hv as <-. exact Hr.
Defined.

(** C6, as the code has it: [__setitem__] is the inherited dictionary
    store; for every name, in the architecture's register set or not, it
    returns normally, and the value is then the one stored under that
    name. *)
Theorem registers_setitem_stores {Uc : Type} (e : Emulator Uc)
  (name : string) (value : Z) :
  registers_setitem name value e =
    (Ok tt, with_registers (dict_set name value (registers e)) e) /\
  dict_get name (registers (snd (registers_setitem name value e)))
    = Some value.
Proof.
  split; [reflexivity|]. simpl. apply dict_get_set_same.
Qed.

(** C6 fails on the code: a name outside the architecture's register set is
    stored, and no error is raised. *)
Lemma registers_setitem_unknown_name :
  ~ In "bogus" (arch_registers Toy.ctx) /\
  (forall x, fst (registers_setitem "bogus" 5 Toy.fresh) <> Raise x) /\
  registers (snd (registers_setitem "bogus" 5 Toy.fresh))
    = [("pc", 0); ("sp", 0); ("r0", 0); ("bogus", 5)].
Proof.
  split; [|split].
  - simpl. intros [H|[H|[H|[]]]]; discriminate H.
  - intros x H. discriminate H.
  - reflexivity.
Qed.

(** ** Setup with an engine in place *)

Lemma setup_with_engine {Uc : Type} (ctx : Context Uc) (e : Emulator Uc) :
  vm e <> None -> setup ctx e = (Ok tt, e).
Proof.
  intro H. unfold setup, bind, gets, ret. simpl.
  destruct (vm e); [reflexivity|contradiction].
Qed.

Lemma read_write_guard_witness :
  read Toy.ctx 0x4000 4 (with_state FINISHED (with_vm (Some []) Toy.fresh))
    = (Ok None, with_state FINISHED (with_vm (Some []) Toy.fresh)) /\
  write Toy.ctx 0x4000 [Byte.x90]
    (with_state FINISHED (with_vm (Some []) Toy.fresh))
    = (Ok None, with_state FINISHED (with_vm (Some []) Toy.fresh)) /\
  fst (write Toy.ctx 0x4000 [Byte.x90; Byte.x90]
         (with_state IDLE (with_vm (Some []) Toy.fresh)))
    = Ok (Some 2).
Proof.
  destruct (read_write_guard Toy.ctx
              (with_state FINISHED (with_vm (Some []) Toy.fresh))
              0x4000 4 [Byte.x90]) as [_ [H _]].
  destruct (H eq_refl) as [Hr Hw].
  destruct (read_write_guard Toy.ctx
              (with_state IDLE (with_vm (Some []) Toy.fresh))
              0x4000 4 [Byte.x90; Byte.x90]) as [_ [_ H']].
  split; [exact Hr|]. split; [exact Hw|].
  rewrite (H' [] [] eq_refl eq_refl eq_refl). reflexivity.
Defined.

(** ** Running the monad *)

Lemma bind_ok {Uc A B : Type} (m : EmuM Uc A) (k : A -> EmuM Uc B)
  (e e' : Emulator Uc) (a : A) :
  m e = (Ok a, e') -> bind m k e = k a e'.
Proof. intro H. unfold bind. now rewrite H. Qed.

Lemma bind_raise {Uc A B : Type} (m : EmuM Uc A) (k : A -> EmuM Uc B)
  (e e' : Emulator Uc) (x : exn) :
  m e = (Raise x, e') -> bind m k e = (Raise x, e').
Proof. intro H. unfold bind. now rewrite H. Qed.

(** ** What the steps of [setup] keep *)

Section Stability.
Variable Uc : Type.
Variable ctx : Context Uc.
Variable P : Event -> Prop.

Lemma evolves_refl (e : Emulator Uc) : evolves P e e.
Proof.
  split.
  - unfold same_configuration. tauto.
  - exists []. split; [reflexivity|constructor].
Qed.

Lemma evolves_trans (e1 e2 e3 : Emulator Uc) :
  evolves P e1 e2 -> evolves P e2 e3 -> evolves P e1 e3.
Proof.
  intros [[A1 [A2 [A3 [A4 [A5 [A6 A7]]]]]] [t1 [T1 F1]]]
         [[B1 [B2 [B3 [B4 [B5 [B6 B7]]]]]] [t2 [T2 F2]]].
  split.
  - unfold same_configuration. repeat split; try congruence. auto.
  - exists (t2 ++ t1). split.
    + rewrite T2, T1. apply app_assoc.
    + apply Forall_app. split; assumption.
Qed.

Lemma evolves_emit (ev : Event) (e e' : Emulator Uc) :
  P ev -> evolves P e e' -> evolves P e (emit ev e').
Proof.
  intros Hp [[A1 [A2 [A3 [A4 [A5 [A6 A7]]]]]] [t [T F]]]. split.
  - unfold same_configuration. simpl. repeat split; assumption.
  - exists (ev :: t). simpl. rewrite T. split; [reflexivity|].
    constructor; assumption.
Qed.

Lemma evolves_with_vm (uc : Uc) (e e' : Emulator Uc) :
  evolves P e e' -> evolves P e (with_vm (Some uc) e').
Proof.
  intros [[A1 [A2 [A3 [A4 [A5 [A6 A7]]]]]] HT]. split; [|exact HT].
  unfold same_configuration. simpl. repeat split; try assumption.
  intros _. discriminate.
Qed.

Lemma evolves_with_registers (r : list (string * Z)) (e e' : Emulator Uc) :
  evolves P e e' -> evolves P e (with_registers r e').
Proof. intros [HC HT]. split; [exact HC|exact HT]. Qed.

Lemma evolves_with_code (c : bytes) (e e' : Emulator Uc) :
  evolves P e e' -> evolves P e (with_code c e').
Proof. intros [HC HT]. split; [exact HC|exact HT]. Qed.

Lemma evolves_with_start_addr (a : Z) (e e' : Emulator Uc) :
  evolves P e e' -> evolves P e (with_start_addr a e').
Proof. intros [HC HT]. split; [exact HC|exact HT]. Qed.

Lemma evolves_with_end_addr (a : option Z) (e e' : Emulator Uc) :
  evolves P e e' -> evolves P e (with_end_addr a e').
Proof. intros [HC HT]. split; [exact HC|exact HT]. Qed.

Lemma stable_ret {A : Type} (a : A) : stable (evolves P) (@ret Uc A a).
Proof. intro e. apply evolves_refl. Qed.

Lemma stable_raise {A : Type} (x : exn) : stable (evolves P) (@raise Uc A x).
Proof. intro e. apply evolves_refl. Qed.

Lemma stable_gets {A : Type} (f : Emulator Uc -> A) :
  stable (evolves P) (gets f).
Proof. intro e. apply evolves_refl. Qed.

Lemma stable_modify (f : Emulator Uc -> Emulator Uc) :
  (forall e, evolves P e (f e)) -> stable (evolves P) (modify f).
Proof. intros H e. apply H. Qed.

Lemma stable_lift_result {A : Type} (r : result A) :
  stable (evolves P) (@lift_result Uc A r).
Proof. intro e. apply evolves_refl. Qed.

Lemma stable_log (ev : Event) : P ev -> stable (evolves P) (@log Uc ev).
Proof. intros H e. simpl. apply evolves_emit; [exact H|apply evolves_refl]. Qed.

Lemma stable_bind {A B : Type} (m : EmuM Uc A) (k : A -> EmuM Uc B) :
  stable (evolves P) m -> (forall a, stable (evolves P) (k a)) ->
  stable (evolves P) (bind m k).
Proof.
  intros Hm Hk e. unfold bind. specialize (Hm e).
  destruct (m e) as [[a|x] e']; simpl in *.
  - eapply evolves_trans; [exact Hm|apply Hk].
  - exact Hm.
Qed.

Lemma stable_try_except {A : Type} (m : EmuM Uc A)
  (h : exn -> option (EmuM Uc A)) :
  stable (evolves P) m ->
  (forall x k, h x = Some k -> stable (evolves P) k) ->
  stable (evolves P) (try_except m h).
Proof.
  intros Hm Hh e. unfold try_except. specialize (Hm e).
  destruct (m e) as [[a|x] e']; simpl in *; [exact Hm|].
  destruct (h x) as [k|] eqn:E; [|exact Hm].
  eapply evolves_trans; [exact Hm|apply (Hh _ _ E)].
Qed.

Lemma stable_for_each {A : Type} (l : list A) (body : A -> EmuM Uc unit) :
  (forall a, stable (evolves P) (body a)) ->
  stable (evolves P) (for_each l body).
Proof.
  intro Hb. induction l as [|a l IH]; simpl.
  - apply stable_ret.
  - apply stable_bind; [apply Hb|intros _; exact IH].
Qed.

Lemma stable_vm_call (ev : Event) (op : Uc -> uc_result Uc) :
  P ev -> stable (evolves P) (vm_call ev op).
Proof.
  intros Hp e. unfold vm_call. destruct (vm e) as [uc|]; simpl.
  - destruct (op uc); simpl.
    + apply evolves_emit; [exact Hp|]. apply evolves_with_vm, evolves_refl.
    + apply evolves_emit; [exact Hp|apply evolves_refl].
  - apply evolves_refl.
Qed.

Lemma stable_find_section (n : string) :
  stable (evolves P) (@find_section Uc n).
Proof. intro e. apply evolves_refl. Qed.

Lemma stable_registers_setitem (k : string) (v : Z) :
  stable (evolves P) (@registers_setitem Uc k v).
Proof. intro e. simpl. apply evolves_with_registers, evolves_refl. Qed.

Hypothesis P_reg_read : forall n, P (EvRegRead n).
Hypothesis P_reg_write : forall n v, P (EvRegWrite n v).
Hypothesis P_mem_write : forall a d, P (EvMemWrite a d).
Hypothesis P_log_error : forall m, P (EvLogError m).

Lemma stable_get_register_value (n : string) :
  stable (evolves P) (get_register_value ctx n).
Proof.
  intro e. unfold get_register_value. destruct (vm e); simpl.
  - apply evolves_emit; [apply P_reg_read|apply evolves_refl].
  - apply evolves_refl.
Qed.

Lemma stable_registers_getitem (k : string) :
  stable (evolves P) (registers_getitem ctx k).
Proof.
  unfold registers_getitem.
  apply stable_bind; [apply stable_gets|intro st].
  apply stable_bind; [apply stable_gets|intro regs].
  apply stable_bind.
  - destruct (execution_capable st && dict_has k regs); [|apply stable_ret].
    apply stable_bind; [apply stable_get_register_value|].
    intros [v|]; [|apply stable_ret].
    apply stable_modify. intro e.
    apply evolves_with_registers, evolves_refl.
  - intros _. apply stable_bind; [apply stable_gets|intro regs'].
    destruct (dict_get k regs'); [apply stable_ret|apply stable_raise].
Qed.

Lemma stable_populate_selectors :
  stable (evolves P) (populate_selectors ctx).
Proof.
  unfold populate_selectors.
  repeat first
    [ apply stable_registers_setitem
    | apply stable_bind; [|intro]
    | apply stable_find_section ].
Qed.

Lemma stable_push_register (n : string) :
  stable (evolves P) (push_register ctx n).
Proof.
  unfold push_register.
  apply stable_bind; [apply stable_registers_getitem|intro v].
  destruct (str_in n (selector_registers ctx)); [apply stable_ret|].
  apply stable_vm_call, P_reg_write.
Qed.

Lemma stable_populate_vm_registers :
  stable (evolves P) (populate_vm_registers ctx).
Proof.
  unfold populate_vm_registers.
  apply stable_bind; [apply stable_gets|intros [uc|]]; [|apply stable_ret].
  apply stable_bind; [apply stable_registers_getitem|intro pcv].
  apply stable_bind.
  { destruct (pcv =? 0); [|apply stable_ret].
    repeat first
      [ apply stable_registers_setitem | apply stable_registers_getitem
      | apply stable_find_section | apply stable_ret
      | apply stable_bind; [|intro] ]. }
  intros _.
  apply stable_bind; [apply stable_registers_getitem|intro spv].
  apply stable_bind.
  { destruct (spv =? 0); [|apply stable_ret].
    repeat first
      [ apply stable_registers_setitem | apply stable_registers_getitem
      | apply stable_find_section | apply stable_ret
      | apply stable_bind; [|intro] ]. }
  intros _.
  apply stable_bind.
  { destruct (arch_is_x86_32 ctx);
      [apply stable_populate_selectors|apply stable_ret]. }
  intros _.
  apply stable_bind; [apply stable_gets|intro regs].
  apply stable_bind; [|intros _; apply stable_ret].
  apply stable_for_each, stable_push_register.
Qed.

Lemma stable_generate_text_bytecode :
  stable (evolves P) (generate_text_bytecode ctx).
Proof.
  unfold generate_text_bytecode.
  apply stable_bind; [apply stable_gets|intro cl].
  apply stable_bind; [apply stable_gets|intro sa].
  destruct (assemble ctx cl sa) as [[|i insns]|].
  - apply stable_bind; [apply stable_log, P_log_error|].
    intros _. apply stable_ret.
  - apply stable_bind.
    { apply stable_modify. intro e. apply evolves_with_code, evolves_refl. }
    intros _. apply stable_bind; [|intros _; apply stable_ret].
    apply stable_modify. intro e. apply evolves_with_end_addr, evolves_refl.
  - apply stable_bind; [apply stable_log, P_log_error|].
    intros _. apply stable_ret.
Qed.

Lemma stable_require_section (n : string) :
  stable (evolves P) (@require_section Uc n).
Proof.
  unfold require_section. apply stable_try_except.
  - apply stable_bind; [apply stable_find_section|].
    intros _. apply stable_ret.
  - intros x k. destruct x; intro H; try discriminate H.
    injection H as <-. apply stable_raise.
Qed.

Lemma stable_populate_text_section :
  stable (evolves P) (populate_text_section ctx).
Proof.
  unfold populate_text_section.
  apply stable_bind; [apply stable_gets|intros [uc|]]; [|apply stable_ret].
  apply stable_bind.
  { apply stable_for_each, stable_require_section. }
  intros _.
  apply stable_bind; [apply stable_find_section|intro text].
  apply stable_bind; [apply stable_generate_text_bytecode|intro ok].
  destruct ok; simpl.
  - apply stable_bind; [apply stable_gets|intro c].
    apply stable_bind; [|intros _; apply stable_ret].
    apply stable_vm_call, P_mem_write.
  - apply stable_bind; [apply stable_log, P_log_error|].
    intros _. apply stable_ret.
Qed.
End Stability.

Section SetupFrame.
Variable Uc : Type.
Variable ctx : Context Uc.

Let any_event : Event -> Prop := fun _ => True.

Lemma stable_map_section (s : MemorySection) :
  stable (evolves any_event) (map_section ctx s).
Proof.
  unfold map_section.
  apply stable_bind; [apply stable_vm_call; exact I|intros _].
  apply stable_bind; [apply stable_lift_result|intros [[|b c]|]];
    try apply stable_ret.
  apply stable_vm_call. exact I.
Qed.

Lemma stable_populate_memory :
  stable (evolves any_event) (populate_memory ctx).
Proof.
  unfold populate_memory.
  apply stable_bind; [apply stable_gets|intros [uc|]].
  - apply stable_bind; [apply stable_gets|intros [|first rest]].
    + apply stable_bind; [apply stable_log; exact I|].
      intros _. apply stable_ret.
    + apply stable_bind; [apply stable_for_each, stable_map_section|].
      intros _. apply stable_bind.
      { apply stable_modify. intro e.
        apply evolves_with_start_addr, evolves_refl. }
      intros _. apply stable_bind; [|intros _; apply stable_ret].
      apply stable_modify. intro e.
      apply evolves_with_end_addr, evolves_refl.
  - apply stable_bind; [apply stable_log; exact I|].
    intros _. apply stable_ret.
Qed.

Lemma stable_setup_engine : stable (evolves any_event) (setup_engine ctx).
Proof.
  assert (Hlog : forall ev, stable (evolves any_event) (@log Uc ev)).
  { intro ev. apply stable_log. exact I. }
  unfold setup_engine.
  do 5 (apply stable_bind; [apply Hlog|intros _]).
  apply stable_bind.
  { destruct (arch_is_x86 ctx); [apply Hlog|apply stable_ret]. }
  intros _.
  apply stable_bind; [apply stable_populate_memory|intro ok1].
  apply stable_bind.
  { destruct ok1; [apply stable_ret|apply stable_raise]. }
  intros _.
  apply stable_bind.
  { apply stable_populate_vm_registers; intros; exact I. }
  intro ok2.
  apply stable_bind.
  { destruct ok2; [apply stable_ret|apply stable_raise]. }
  intros _.
  apply stable_bind.
  { apply stable_populate_text_section; intros; exact I. }
  intro ok3.
  destruct ok3; [apply stable_ret|apply stable_raise].
Qed.

Lemma stable_setup : stable (evolves any_event) (setup ctx).
Proof.
  unfold setup.
  apply stable_bind; [apply stable_gets|intros [uc|]]; [apply stable_ret|].
  apply stable_bind; [|intros _; apply stable_setup_engine].
  apply stable_modify. intro e. apply evolves_with_vm, evolves_refl.
Qed.

(** After [setup], returned or raised, an engine handle is in place. *)
Lemma setup_leaves_engine (e : Emulator Uc) : vm (snd (setup ctx e)) <> None.
Proof.
  destruct (vm e) as [uc|] eqn:Hvm.
  - rewrite setup_with_engine; simpl; rewrite Hvm; discriminate.
  - unfold setup, bind at 1, gets. rewrite Hvm.
    unfold bind at 1, modify.
    destruct (stable_setup_engine (with_vm (Some (arch_uc ctx)) e))
      as [[_ [_ [_ [_ [_ [_ Hv]]]]]] _].
    apply Hv. simpl. discriminate.
Qed.
End SetupFrame.

(** ** Memory mapping is done once *)

Lemma count_mem_map_adds {Uc : Type} (e e' : Emulator Uc) :
  trace_adds not_mem_map e e' ->
  count_mem_map (trace e') = count_mem_map (trace e).
Proof.
  intros [t [Ht Hf]]. unfold count_mem_map. rewrite Ht, filter_app.
  replace (filter is_mem_map t) with (@nil Event); [reflexivity|].
  clear Ht. induction Hf as [|ev t Hev _ IH]; simpl; [reflexivity|].
  unfold not_mem_map in Hev. rewrite Hev. exact IH.
Qed.

Lemma map_section_count {Uc : Type} (ctx : Context Uc) (s : MemorySection)
  (e e' : Emulator Uc) :
  map_section ctx s e = (Ok tt, e') ->
  count_mem_map (trace e') = S (count_mem_map (trace e)).
Proof.
  unfold map_section, bind, vm_call, lift_result.
  destruct (vm e) as [uc|]; [|discriminate].
  destruct (uc_mem_map ctx uc _ _ _) as [uc1|c]; [|discriminate].
  destruct (section_content s) as [[[|b content]|]|x]; simpl;
    try discriminate;
    try (intro H; injection H as <-; reflexivity).
  destruct (uc_mem_write ctx uc1 _ _); intro H; [|discriminate].
  injection H as <-. reflexivity.
Qed.

Lemma for_each_map_count {Uc : Type} (ctx : Context Uc)
  (secs : list MemorySection) :
  forall e e' : Emulator Uc,
    for_each secs (map_section ctx) e = (Ok tt, e') ->
    count_mem_map (trace e') =
      (count_mem_map (trace e) + List.length secs)%nat.
Proof.
  induction secs as [|s secs IH]; simpl; intros e e' H.
  - unfold ret in H. injection H as <-. simpl. lia.
  - unfold bind in H.
    destruct (map_section ctx s e) as [[[]|x] e1] eqn:Hs; [|discriminate].
    rewrite (IH _ _ H), (map_section_count _ _ _ _ Hs). lia.
Qed.

Lemma populate_memory_count {Uc : Type} (ctx : Context Uc)
  (e e' : Emulator Uc) :
  populate_memory ctx e = (Ok true, e') ->
  count_mem_map (trace e') =
    (count_mem_map (trace e) + List.length (sections e))%nat.
Proof.
  unfold populate_memory, bind, gets, log, modify, ret. simpl.
  destruct (vm e); [|discriminate].
  destruct (sections e) as [|first rest]; [discriminate|].
  destruct (for_each (first :: rest) (map_section ctx) e)
    as [[[]|x] e1] eqn:Hl; [|discriminate].
  intro H. injection H as <-. simpl.
  apply (for_each_map_count _ _ _ _ Hl).
Qed.

Lemma bind_inv {Uc A B : Type} (m : EmuM Uc A) (k : A -> EmuM Uc B)
  (e e' : Emulator Uc) (b : B) :
  bind m k e = (Ok b, e') ->
  exists a e1, m e = (Ok a, e1) /\ k a e1 = (Ok b, e').
Proof.
  unfold bind. destruct (m e) as [[a|x] e1]; [|discriminate].
  intro H. exists a, e1. split; [reflexivity|exact H].
Qed.

Lemma setup_engine_count {Uc : Type} (ctx : Context Uc)
  (e e' : Emulator Uc) :
  setup_engine ctx e = (Ok tt, e') ->
  count_mem_map (trace e') =
    (count_mem_map (trace e) + List.length (sections e))%nat.
Proof.
  assert (Hkeep : forall A (m : EmuM Uc A) e1 r e2,
             stable (evolves not_mem_map) m -> m e1 = (r, e2) ->
             count_mem_map (trace e2) = count_mem_map (trace e1)).
  { intros A m e1 r e2 Hm E. apply count_mem_map_adds.
    specialize (Hm e1). rewrite E in Hm. apply Hm. }
  unfold setup_engine. intro H.
  do 5 (apply bind_inv in H; destruct H as [[] [? [E H]]];
        injection E as <-).
  apply bind_inv in H. destruct H as [[] [e1 [Ex86 H]]].
  assert (He1 : count_mem_map (trace e1) = count_mem_map (trace e) /\
                sections e1 = sections e).
  { destruct (arch_is_x86 ctx); injection Ex86 as <-; split; reflexivity. }
  destruct He1 as [Hc1 Hs1].
  apply bind_inv in H. destruct H as [ok1 [e2 [Hpm H]]].
  apply bind_inv in H. destruct H as [[] [e2' [E H]]].
  destruct ok1; [|discriminate E]. injection E as <-.
  apply bind_inv in H. destruct H as [ok2 [e3 [Hpr H]]].
  apply bind_inv in H. destruct H as [[] [e3' [E H]]].
  destruct ok2; [|discriminate E]. injection E as <-.
  apply bind_inv in H. destruct H as [ok3 [e4 [Hpt H]]].
  destruct ok3; [|discriminate H]. injection H as <-.
  assert (St : stable (evolves not_mem_map) (populate_text_section ctx))
    by (apply stable_populate_text_section; intros; reflexivity).
  assert (Sr : stable (evolves not_mem_map) (populate_vm_registers ctx))
    by (apply stable_populate_vm_registers; intros; reflexivity).
  rewrite (Hkeep _ _ _ _ _ St Hpt), (Hkeep _ _ _ _ _ Sr Hpr).
  rewrite (populate_memory_count _ _ _ Hpm), Hc1, Hs1. reflexivity.
Qed.

(** C9: a second [setup] without an intervening [teardown] returns at once
    and changes no field of the session, whatever the first call did; with
    an engine in place [setup] is the identity; and when the first call
    succeeds on an engine-less session, the two calls together map each
    section exactly once. *)
Theorem setup_idempotent {Uc : Type} (ctx : Context Uc) (e : Emulator Uc) :
  setup ctx (snd (setup ctx e)) = (Ok tt, snd (setup ctx e)) /\
  (vm e <> None -> setup ctx e = (Ok tt, e)) /\
  (vm e = None -> fst (setup ctx e) = Ok tt ->
   count_mem_map (trace (snd (setup ctx (snd (setup ctx e))))) =
     (count_mem_map (trace e) + List.length (sections e))%nat).
Proof.
  assert (H2 : setup ctx (snd (setup ctx e)) = (Ok tt, snd (setup ctx e))).
  { apply setup_with_engine, setup_leaves_engine. }
  split; [exact H2|]. split; [apply setup_with_engine|].
  intros Hvm Hok. rewrite H2. simpl.
  destruct (setup ctx e) as [r e1] eqn:Hs. simpl in *. subst r.
  unfold setup, bind at 1, gets in Hs. rewrite Hvm in Hs.
  unfold bind at 1, modify in Hs.
  apply setup_engine_count in Hs. exact Hs.
Qed.

Lemma setup_idempotent_witness :
  setup Toy.ctx (snd (setup Toy.ctx (Toy.with_source "ab" Toy.fresh)))
    = (Ok tt, snd (setup Toy.ctx (Toy.with_source "ab" Toy.fresh))) /\
  count_mem_map
    (trace (snd (setup Toy.ctx
                   (snd (setup Toy.ctx (Toy.with_source "ab" Toy.fresh))))))
    = 3%nat.
Proof.
  destruct (setup_idempotent Toy.ctx (Toy.with_source "ab" Toy.fresh))
    as [H1 [_ H3]].
  split; [exact H1|]. rewrite (H3 eq_refl eq_refl). reflexivity.
Defined.

(** ** Looking sections up *)



Lemma require_section_result {Uc : Type} (n : string) (e : Emulator Uc) :
  require_section n e =
    (match find_section_in (sections e) n with
     | Ok _ => Ok tt
     | Raise (KeyError _) => Raise (CemuEmulatorMissingRequiredSection n)
     | Raise x => Raise x
     end, e).
Proof.
  unfold require_section, try_except, bind, find_section, ret, raise.
  destruct (find_section_in (sections e) n) as [s|x]; [reflexivity|].
  destruct x; reflexivity.
Qed.




(** ** Loops that run to their end *)

Lemma for_each_ok {Uc A : Type} (Inv : Emulator Uc -> Prop) (l : list A)
  (body : A -> EmuM Uc unit) :
  (forall a e, In a l -> Inv e -> exists e', body a e = (Ok tt, e') /\ Inv e') ->
  forall e, Inv e -> exists e', for_each l body e = (Ok tt, e') /\ Inv e'.
Proof.
  induction l as [|a l IH]; intros Hb e He; simpl.
  - exists e. split; [reflexivity|exact He].
  - destruct (Hb a e (or_introl eq_refl) He) as [e1 [E1 He1]].
    destruct (IH (fun a' e' Hin => Hb a' e' (or_intror Hin)) e1 He1)
      as [e2 [E2 He2]].
    exists e2. split; [|exact He2].
    now rewrite (bind_ok _ _ _ _ _ E1).
Qed.

Lemma registers_getitem_cached {Uc : Type} (ctx : Context Uc)
  (e : Emulator Uc) (k : string) (v : Z) :
  execution_capable (state e) = false ->
  dict_get k (registers e) = Some v ->
  registers_getitem ctx k e = (Ok v, e).
Proof.
  intros Hcap Hget.
  unfold registers_getitem, bind, gets, ret. simpl.
  rewrite Hcap. simpl. rewrite Hget. reflexivity.
Qed.

(** ** Steps whose requests are served

    Each lemma follows one step of [setup] or [teardown] to its result:
    either the step returns with what it promises, or the engine refused
    one of its requests. *)

Ltac refusal H E :=
  rewrite (bind_raise _ _ _ _ _ E) in H; injection H as <- <-;
  right; eexists; reflexivity.

Section Served.
Variable Uc : Type.
Variable ctx : Context Uc.

Lemma vm_call_served (ev : Event) (op : Uc -> uc_result Uc)
  (e0 e e' : Emulator Uc) (r : result unit) :
  cache_kept e0 e -> vm_call ev op e = (r, e') ->
  (r = Ok tt /\ cache_kept e0 e') \/ refused r.
Proof.
  intros [Hvm Hrest]. unfold vm_call.
  destruct (vm e) as [uc|] eqn:E; [|contradiction].
  destruct (op uc) as [uc'|c]; intro H; injection H as <- <-.
  - left. split; [reflexivity|].
    split; [simpl; discriminate|exact Hrest].
  - right. eexists. reflexivity.
Qed.

Lemma for_each_served {A : Type} (Inv : Emulator Uc -> Prop) (l : list A)
  (body : A -> EmuM Uc unit) :
  (forall a e r e',
     In a l -> Inv e -> body a e = (r, e') ->
     (r = Ok tt /\ Inv e') \/ refused r) ->
  forall e r e',
    Inv e -> for_each l body e = (r, e') ->
    (r = Ok tt /\ Inv e') \/ refused r.
Proof.
  induction l as [|a l IH]; intros Hb e r e' He H; simpl in H.
  - injection H as <- <-. auto.
  - destruct (body a e) as [r1 e1] eqn:E.
    destruct (Hb a e r1 e1 (or_introl eq_refl) He E) as [[-> He1]|[c ->]];
      [|refusal H E].
    rewrite (bind_ok _ _ _ _ _ E) in H.
    exact (IH (fun a' e0 r0 e0' Hin => Hb a' e0 r0 e0' (or_intror Hin))
              e1 r e' He1 H).
Qed.

Lemma map_section_served (s : MemorySection) (c : option bytes)
  (e0 e e' : Emulator Uc) (r : result unit) :
  section_content s = Ok c -> cache_kept e0 e ->
  map_section ctx s e = (r, e') ->
  (r = Ok tt /\ cache_kept e0 e') \/ refused r.
Proof.
  intros Hc He H. unfold map_section in H.
  destruct (vm_call
              (EvMemMap (sec_address s) (sec_size s) (sec_permission s))
              (fun uc => uc_mem_map ctx uc (sec_address s) (sec_size s)
                           (sec_permission s)) e) as [r1 e1] eqn:E1.
  destruct (vm_call_served _ _ e0 e e1 r1 He E1) as [[-> He1]|[c1 ->]];
    [|refusal H E1].
  rewrite (bind_ok _ _ _ _ _ E1) in H.
  unfold bind at 1, lift_result in H. rewrite Hc in H.
  destruct c as [[|b bs]|].
  - injection H as <- <-. auto.
  - exact (vm_call_served _ _ e0 e1 e' r He1 H).
  - injection H as <- <-. auto.
Qed.

Lemma populate_memory_served (e e' : Emulator Uc) (first : MemorySection)
  (rest : list MemorySection) (r : result bool) :
  vm e <> None -> sections e = first :: rest ->
  (forall s, In s (sections e) -> exists c, section_content s = Ok c) ->
  populate_memory ctx e = (r, e') ->
  (r = Ok true /\
   start_addr e' = sec_address first /\
   vm e' <> None /\ registers e' = registers e /\ state e' = state e /\
   code e' = code e /\ sections e' = sections e) \/ refused r.
Proof.
  intros Hvm Hsec Hfit H. unfold populate_memory in H.
  destruct (vm e) as [uc|] eqn:E; [|contradiction].
  unfold bind at 1, gets at 1 in H. rewrite E in H.
  unfold bind at 1, gets at 1 in H. rewrite Hsec in H.
  destruct (for_each (first :: rest) (map_section ctx) e) as [r1 e1] eqn:E1.
  destruct (for_each_served (cache_kept e) (first :: rest) (map_section ctx))
    with (e := e) (r := r1) (e' := e1) as [[-> He1]|[c ->]];
    [| |exact E1| |refusal H E1].
  - intros s e2 r2 e2' Hin He2 H2.
    destruct (Hfit s) as [c Hc]; [now rewrite Hsec|].
    exact (map_section_served s c e e2 e2' r2 Hc He2 H2).
  - unfold cache_kept. rewrite E. repeat split; auto; discriminate.
  - rewrite (bind_ok _ _ _ _ _ E1) in H. injection H as <- <-.
    destruct He1 as [H1 [H2 [H3 [H4 [H5 H6]]]]].
    left. simpl. auto 10.
Qed.

Lemma push_register_served (e0 e e' : Emulator Uc) (k : string)
  (r : result unit) :
  execution_capable (state e0) = false ->
  dict_has k (registers e0) = true ->
  cache_kept e0 e ->
  push_register ctx k e = (r, e') ->
  (r = Ok tt /\ cache_kept e0 e') \/ refused r.
Proof.
  intros Hcap Hk He H.
  pose proof He as [_ [Hr [Hs _]]].
  unfold dict_has in Hk.
  destruct (dict_get k (registers e0)) as [v|] eqn:Hget; [|discriminate].
  unfold push_register in H.
  rewrite (bind_ok _ _ _ _ _
             (registers_getitem_cached ctx e k v
                ltac:(now rewrite Hs) ltac:(now rewrite Hr))) in H.
  destruct (str_in k (selector_registers ctx)).
  - injection H as <- <-. auto.
  - exact (vm_call_served _ _ e0 e e' r He H).
Qed.

Lemma push_registers_served (e e' : Emulator Uc) (r : result unit) :
  execution_capable (state e) = false -> vm e <> None ->
  for_each (dict_keys (registers e)) (push_register ctx) e = (r, e') ->
  (r = Ok tt /\ cache_kept e e') \/ refused r.
Proof.
  intros Hcap Hvm H.
  apply (for_each_served (cache_kept e) (dict_keys (registers e))
           (push_register ctx)) with (e := e); [| |exact H].
  - intros k e1 r1 e1' Hin He1 H1.
    apply (push_register_served e e1 e1' k r1); auto.
    now apply dict_has_keys.
  - unfold cache_kept. auto 10.
Qed.

Lemma bind_ret {A B : Type} (a : A) (k : A -> EmuM Uc B) (e : Emulator Uc) :
  bind (ret a) k e = k a e.
Proof. reflexivity. Qed.

Lemma populate_selectors_ok (e : Emulator Uc) (text data stack : MemorySection) :
  find_section_in (sections e) MEMORY_TEXT_SECTION_NAME = Ok text ->
  find_section_in (sections e) MEMORY_DATA_SECTION_NAME = Ok data ->
  find_section_in (sections e) MEMORY_STACK_SECTION_NAME = Ok stack ->
  populate_selectors ctx e =
    (Ok tt,
     with_registers
       (dict_set "ES" 0
          (dict_set "FS" 0
             (dict_set "GS" 0
                (dict_set "SS"
                   (segment_descriptor ctx (Z.shiftr (sec_address stack) 8)
                      SegDataAccessedExpandDown)
                   (dict_set "DS"
                      (segment_descriptor ctx
                         (Z.shiftr (sec_address data) 8) SegDataAccessed)
                      (dict_set "CS"
                         (segment_descriptor ctx
                            (Z.shiftr (sec_address text) 8) SegCodeAccessed)
                         (registers e))))))) e).
Proof.
  intros Ht Hd Hs.
  unfold populate_selectors, bind, find_section, registers_setitem, modify.
  simpl. rewrite Ht. simpl. rewrite Hd. simpl. rewrite Hs. reflexivity.
Qed.

(** The block that defaults a register to a value taken from a section. *)
Lemma seed_block_ok (e : Emulator Uc) (k n : string) (s : MemorySection)
  (f : MemorySection -> Z) :
  execution_capable (state e) = false ->
  find_section_in (sections e) n = Ok s ->
  bind (find_section n)
    (fun section =>
       bind (registers_setitem k (f section))
         (fun _ => bind (registers_getitem ctx k) (fun _ => ret tt))) e
  = (Ok tt, with_registers (dict_set k (f s) (registers e)) e).
Proof.
  intros Hcap Hf.
  unfold bind at 1, find_section. rewrite Hf.
  unfold bind at 1, registers_setitem, modify.
  rewrite (bind_ok _ _ _ _ _
             (registers_getitem_cached ctx
                (with_registers (dict_set k (f s) (registers e)) e)
                k (f s) Hcap (dict_get_set_same _ _ _))).
  reflexivity.
Qed.



(** [__populate_vm_registers] on a zeroed program counter and stack
    pointer: both are defaulted from the layout. *)
Lemma populate_vm_registers_defaults (e e' : Emulator Uc)
  (text data stack : MemorySection) (r : result bool) :
  execution_capable (state e) = false -> vm e <> None ->
  dict_get (arch_pc ctx) (registers e) = Some 0 ->
  dict_get (arch_sp ctx) (registers e) = Some 0 ->
  arch_pc ctx <> arch_sp ctx ->
  ~ In (arch_pc ctx) ["CS"; "DS"; "SS"; "GS"; "FS"; "ES"] ->
  ~ In (arch_sp ctx) ["CS"; "DS"; "SS"; "GS"; "FS"; "ES"] ->
  find_section_in (sections e) MEMORY_TEXT_SECTION_NAME = Ok text ->
  find_section_in (sections e) MEMORY_DATA_SECTION_NAME = Ok data ->
  find_section_in (sections e) MEMORY_STACK_SECTION_NAME = Ok stack ->
  populate_vm_registers ctx e = (r, e') ->
  (r = Ok true /\
   vm e' <> None /\ state e' = state e /\ start_addr e' = start_addr e /\
   code e' = code e /\ sections e' = sections e /\
   dict_get (arch_pc ctx) (registers e') = Some (sec_address text) /\
   dict_get (arch_sp ctx) (registers e')
     = Some (sec_address stack + sec_size stack / 2)) \/ refused r.
Proof.
  intros Hcap Hvm Hpc Hsp Hne Hselpc Hselsp Ht Hd Hs H.
  unfold populate_vm_registers in H.
  destruct (vm e) as [uc|] eqn:E; [|contradiction].
  unfold bind at 1, gets at 1 in H. rewrite E in H.
  rewrite (bind_ok _ _ _ _ _ (registers_getitem_cached ctx e _ 0 Hcap Hpc))
    in H.
  change (0 =? 0) with true in H. cbv iota in H.
  rewrite (bind_ok _ _ _ _ _
             (seed_block_ok e (arch_pc ctx) _ text sec_address Hcap Ht))
    in H.
  set (e1 := with_registers
               (dict_set (arch_pc ctx) (sec_address text) (registers e)) e)
    in *.
  assert (Hsp1 : dict_get (arch_sp ctx) (registers e1) = Some 0).
  { simpl. rewrite dict_get_set_other; [exact Hsp|congruence]. }
  rewrite (bind_ok _ _ _ _ _
             (registers_getitem_cached ctx e1 _ 0 Hcap Hsp1)) in H.
  change (0 =? 0) with true in H. cbv iota in H.
  rewrite (bind_ok _ _ _ _ _
             (seed_block_ok e1 (arch_sp ctx) _ stack
                (fun s => sec_address s + sec_size s / 2) Hcap Hs)) in H.
  set (e2 := with_registers
               (dict_set (arch_sp ctx)
                  (sec_address stack + sec_size stack / 2) (registers e1))
               e1) in *.
  assert (Hpc2 : dict_get (arch_pc ctx) (registers e2)
                 = Some (sec_address text)).
  { simpl. rewrite dict_get_set_other; [apply dict_get_set_same|exact Hne]. }
  assert (Hsp2 : dict_get (arch_sp ctx) (registers e2)
                 = Some (sec_address stack + sec_size stack / 2)).
  { simpl. apply dict_get_set_same. }
  assert (Hsel : exists e3,
             (if arch_is_x86_32 ctx then populate_selectors ctx else ret tt)
               e2 = (Ok tt, e3) /\
             vm e3 = vm e /\ state e3 = state e /\
             start_addr e3 = start_addr e /\ code e3 = code e /\
             sections e3 = sections e /\
             dict_get (arch_pc ctx) (registers e3) = Some (sec_address text) /\
             dict_get (arch_sp ctx) (registers e3)
               = Some (sec_address stack + sec_size stack / 2)).
  { destruct (arch_is_x86_32 ctx).
    - eexists. split; [apply (populate_selectors_ok e2 text data stack);
                       assumption|].
      simpl in Hselpc, Hselsp. simpl registers.
      repeat split; try reflexivity;
        repeat (rewrite dict_get_set_other;
                [|intro Heq;
                  first [ solve [apply Hselpc; rewrite Heq; simpl; auto 10]
                        | solve [apply Hselsp; rewrite Heq; simpl; auto 10] ]]);
        first [assumption|apply dict_get_set_same].
    - exists e2. repeat split; assumption. }
  destruct Hsel as [e3 [E3 [V3 [S3 [A3 [C3 [X3 [P3 Q3]]]]]]]].
  rewrite (bind_ok _ _ _ _ _ E3) in H.
  unfold bind at 1, gets at 1 in H.
  destruct (for_each (dict_keys (registers e3)) (push_register ctx) e3)
    as [r4 e4] eqn:E4.
  destruct (push_registers_served e3 e4 r4) as [[-> He4]|[c ->]];
    [now rewrite S3|rewrite V3, E; discriminate|exact E4| |refusal H E4].
  rewrite (bind_ok _ _ _ _ _ E4) in H. injection H as <- <-.
  destruct He4 as [V4 [R4 [S4 [A4 [C4 X4]]]]].
  left. split; [reflexivity|].
  rewrite R4. repeat split; congruence.
Qed.
End Served.

(** ** The provisional start address *)

(** C4, as the code has it: on a non-empty section list whose contents
    fit, when the engine refuses none of the mapping requests,
    [__populate_memory] returns [True] and records as [start_addr] the
    address of the first section in list order ([self.sections[0]]),
    wherever the lowest address lies in the list. *)
Theorem populate_memory_start_addr {Uc : Type} (ctx : Context Uc)
  (e : Emulator Uc) (first : MemorySection) (rest : list MemorySection) :
  vm e <> None -> sections e = first :: rest ->
  (forall s, In s (sections e) -> exists c, section_content s = Ok c) ->
  ~ refused (fst (populate_memory ctx e)) ->
  exists e',
    populate_memory ctx e = (Ok true, e') /\
    start_addr e' = sec_address first.
Proof.
  intros Hvm Hsec Hfit Hnr.
  destruct (populate_memory ctx e) as [r e'] eqn:E.
  destruct (populate_memory_served Uc ctx e e' first rest r Hvm Hsec Hfit E)
    as [[-> [Hs _]]|Href]; [|contradiction].
  exists e'. split; [reflexivity|exact Hs].
Qed.

Lemma populate_memory_start_addr_witness :
  exists e',
    populate_memory Toy.ctx
      (with_sections
         [ mkSection MEMORY_STACK_SECTION_NAME 0x6000 0x4000 "READ|WRITE"
             None;
           mkSection MEMORY_TEXT_SECTION_NAME 0x4000 0x1000 "READ|EXEC"
             (Some [Byte.x90]);
           mkSection MEMORY_DATA_SECTION_NAME 0x5000 0x1000 "READ|WRITE"
             None ]
         (with_vm (Some []) Toy.fresh)) = (Ok true, e') /\
    start_addr e' = 0x6000.
Proof.
  apply (populate_memory_start_addr Toy.ctx
           (with_sections
              [ mkSection MEMORY_STACK_SECTION_NAME 0x6000 0x4000
                  "READ|WRITE" None;
                mkSection MEMORY_TEXT_SECTION_NAME 0x4000 0x1000 "READ|EXEC"
                  (Some [Byte.x90]);
                mkSection MEMORY_DATA_SECTION_NAME 0x5000 0x1000
                  "READ|WRITE" None ]
              (with_vm (Some []) Toy.fresh))
           (mkSection MEMORY_STACK_SECTION_NAME 0x6000 0x4000 "READ|WRITE"
              None)
           [ mkSection MEMORY_TEXT_SECTION_NAME 0x4000 0x1000 "READ|EXEC"
               (Some [Byte.x90]);
             mkSection MEMORY_DATA_SECTION_NAME 0x5000 0x1000 "READ|WRITE"
               None ]).
  - discriminate.
  - reflexivity.
  - intros s [<-|[<-|[<-|[]]]]; eexists; reflexivity.
  - intros [c H]. vm_compute in H. discriminate H.
Defined.

(** C4 fails on the code: with the data section listed before the text
    section, the recorded address is the data section's 0x5000 although the
    text section lies lower, at 0x4000. *)
Lemma populate_memory_first_not_lowest :
  let e :=
    with_sections
      [ mkSection MEMORY_DATA_SECTION_NAME 0x5000 0x1000 "READ|WRITE" None;
        mkSection MEMORY_TEXT_SECTION_NAME 0x4000 0x1000 "READ|EXEC" None;
        mkSection MEMORY_STACK_SECTION_NAME 0x6000 0x4000 "READ|WRITE" None ]
      (with_vm (Some []) Toy.fresh) in
  fst (populate_memory Toy.ctx e) = Ok true /\
  start_addr (snd (populate_memory Toy.ctx e)) = 0x5000 /\
  exists s,
    In s (sections e) /\
    sec_address s < start_addr (snd (populate_memory Toy.ctx e)).
Proof.
  split; [reflexivity|]. split; [reflexivity|].
  exists (mkSection MEMORY_TEXT_SECTION_NAME 0x4000 0x1000 "READ|EXEC" None).
  split; [simpl; auto|reflexivity].
Qed.

(** ** Setup without a reserved section *)

Lemma hooks_installed {Uc : Type} (ctx : Context Uc) (e : Emulator Uc) :
  exists t,
    (if arch_is_x86 ctx then log (EvHookAdd "UC_HOOK_INSN") else ret tt)
      (emit (EvHookAdd "UC_HOOK_MEM_READ")
         (emit (EvHookAdd "UC_HOOK_MEM_WRITE")
            (emit (EvHookAdd "UC_HOOK_INTR")
               (emit (EvHookAdd "UC_HOOK_CODE")
                  (emit (EvHookAdd "UC_HOOK_BLOCK") e)))))
    = (Ok tt, with_trace t e).
Proof.
  destruct (arch_is_x86 ctx); eexists; reflexivity.
Qed.





(** ** The state transition *)

Lemma for_each_log {Uc A : Type} (f : A -> Event) (l : list A) :
  forall e : Emulator Uc,
    for_each l (fun a => log (f a)) e
    = (Ok tt, with_trace (rev (map f l) ++ trace e) e).
Proof.
  induction l as [|a l IH]; intro e; simpl.
  - destruct e; reflexivity.
  - unfold bind, log at 1, modify. rewrite IH. simpl.
    rewrite <- app_assoc. reflexivity.
Qed.

Lemma stable_refresh_registers_from_vm {Uc : Type} (ctx : Context Uc)
  (P : Event -> Prop) :
  (forall n, P (EvRegRead n)) ->
  stable (evolves P) (refresh_registers_from_vm ctx).
Proof.
  intros HP e. unfold refresh_registers_from_vm.
  destruct (vm e) as [uc|] eqn:E; [|apply evolves_refl].
  destruct (negb (is_running e)); [apply evolves_refl|].
  apply stable_bind; [|intros _; apply stable_ret].
  apply stable_for_each. intros k e'. unfold refresh_register.
  destruct (vm e'); simpl; [|apply evolves_refl].
  apply evolves_with_registers, evolves_emit; [apply HP|apply evolves_refl].
Qed.

(** Refreshing the cache never raises. *)
Lemma refresh_registers_from_vm_returns {Uc : Type} (ctx : Context Uc)
  (e : Emulator Uc) :
  exists b, fst (refresh_registers_from_vm ctx e) = Ok b.
Proof.
  unfold refresh_registers_from_vm.
  destruct (vm e) as [uc|] eqn:E; [|eexists; reflexivity].
  destruct (negb (is_running e)); [eexists; reflexivity|].
  destruct (for_each_ok (fun e' : Emulator Uc => vm e' <> None)
              (dict_keys (registers e)) (refresh_register ctx)) with (e := e)
    as [e' [E' _]].
  - intros k e1 _ H1. unfold refresh_register.
    destruct (vm e1) as [uc1|] eqn:E1; [|contradiction].
    eexists. split; [reflexivity|]. simpl. now rewrite E1.
  - now rewrite E.
  - exists true. now rewrite (bind_ok _ _ _ _ _ E').
Qed.

(** Past the entry action, [set] commits the state, fires the observers of
    the target state in registration order and runs the exit action. *)
Lemma set_with_commit {Uc : Type} (ctx : Context Uc)
  (on_exit : EmulatorState -> EmuM Uc unit) (S : EmulatorState)
  (e e1 : Emulator Uc) (l : list Callback) :
  state e <> S ->
  entry_action ctx S e = (Ok tt, e1) ->
  callbacks_for S (state_change_callbacks e1) = Some l ->
  set_with ctx on_exit S e =
    on_exit S
      (with_trace (rev (map (EvCallback S) l) ++ EvNowState S :: trace e1)
         (with_state S e1)).
Proof.
  intros Hne Hentry Hcb. unfold set_with.
  unfold bind at 1, gets at 1. rewrite (state_eqb_neq _ _ Hne).
  rewrite (bind_ok _ _ _ _ _ Hentry).
  unfold bind at 1, log at 1, modify at 1.
  unfold bind at 1, modify at 1.
  unfold bind at 1, gets at 1.
  cbn [state_change_callbacks with_state emit with_trace]. rewrite Hcb.
  rewrite (bind_ok _ _ _ _ _ (for_each_log (EvCallback S) l _)).
  reflexivity.
Qed.

(** C1, as the code has it: when [setup] raises inside a transition to
    [RUNNING] or [IDLE], [set] catches the exception and shows it in a
    popup, then carries on: it refreshes the cache if the previous state
    was [RUNNING], commits the target state, fires every observer
    registered for it and runs the exit action; for [IDLE] the call
    returns normally in state [IDLE], for [RUNNING] the execution driver is
    invoked on the committed session. *)
Theorem set_continues_after_setup_failure {Uc : Type} (ctx : Context Uc)
  (e e1 : Emulator Uc) (S : EmulatorState) (x : exn) (l : list Callback) :
  S = RUNNING \/ S = IDLE ->
  state e <> S ->
  setup ctx e = (Raise x, e1) ->
  callbacks_for S (state_change_callbacks e) = Some l ->
  let reported := emit (EvPopup (PopupSetupError x)) e1 in
  let refreshed :=
    if state_eqb (state e) RUNNING
    then snd (refresh_registers_from_vm ctx reported)
    else reported in
  let committed :=
    with_trace
      (rev (map (EvCallback S) l) ++ EvNowState S :: trace refreshed)
      (with_state S refreshed) in
  set ctx S e = exit_action ctx S committed /\
  (S = IDLE -> set ctx S e = (Ok tt, committed)) /\
  (S = RUNNING -> threaded_runner e = Some EmulationRunner ->
   set ctx S e = run ctx (emit EvRunnerRun committed)).
Proof.
  intros HS Hne Hsetup Hcb reported refreshed committed.
  pose proof (stable_setup Uc ctx e) as Hframe. rewrite Hsetup in Hframe.
  destruct Hframe as [[_ [Hst1 [Hcb1 [Hrun1 _]]]] _]. simpl in Hst1, Hcb1, Hrun1.
  assert (Hfr : state_change_callbacks refreshed = state_change_callbacks e /\
                threaded_runner refreshed = threaded_runner e).
  { unfold refreshed. destruct (state_eqb (state e) RUNNING).
    - destruct (stable_refresh_registers_from_vm ctx (fun _ => True)
                  (fun _ => I) reported)
        as [[_ [_ [Hc [Hr _]]]] _].
      rewrite Hc, Hr. simpl. auto.
    - simpl. auto. }
  destruct Hfr as [Hcbr Hrunr].
  assert (Hentry : entry_action ctx S e = (Ok tt, refreshed)).
  { assert (Hgen :
      (bind (try_except (setup ctx)
               (fun x0 => Some (log (EvPopup (PopupSetupError x0)))))
         (fun _ =>
            bind (gets state)
              (fun st =>
                 if state_eqb st RUNNING
                 then bind (refresh_registers_from_vm ctx) (fun _ => ret tt)
                 else ret tt))) e = (Ok tt, refreshed)).
    { unfold bind at 1, try_except. rewrite Hsetup.
      unfold log, modify. fold reported.
      unfold bind at 1, gets. replace (state reported) with (state e)
        by (simpl; congruence).
      unfold refreshed.
      destruct (state_eqb (state e) RUNNING); [|reflexivity].
      destruct (refresh_registers_from_vm_returns ctx reported) as [b Hb].
      unfold bind.
      destruct (refresh_registers_from_vm ctx reported) as [r e2].
      simpl in Hb. subst r. reflexivity. }
    destruct HS as [-> | ->]; exact Hgen. }
  assert (Hset : set ctx S e = exit_action ctx S committed).
  { unfold set. apply set_with_commit; [exact Hne|exact Hentry|].
    now rewrite Hcbr. }
  split; [exact Hset|]. split.
  - intros ->. rewrite Hset. reflexivity.
  - intros -> Hrunner. rewrite Hset. unfold exit_action.
    unfold bind at 1, gets.
    replace (threaded_runner committed) with (threaded_runner e)
      by (simpl; congruence).
    rewrite Hrunner. reflexivity.
Qed.

Lemma set_continues_after_setup_failure_witness :
  fst (set Toy.ctx IDLE (with_sections [] Toy.fresh)) = Ok tt /\
  state (snd (set Toy.ctx IDLE (with_sections [] Toy.fresh))) = IDLE /\
  trace (snd (set Toy.ctx IDLE (with_sections [] Toy.fresh))) =
    EvCallback IDLE "update_layout_step_running"
    :: EvNowState IDLE
    :: EvPopup (PopupSetupError (RuntimeError "populate_memory() failed"))
    :: trace (snd (setup Toy.ctx (with_sections [] Toy.fresh))).
Proof.
  destruct (set_continues_after_setup_failure Toy.ctx
              (with_sections [] Toy.fresh)
              (snd (setup Toy.ctx (with_sections [] Toy.fresh)))
              IDLE (RuntimeError "populate_memory() failed")
              ["update_layout_step_running"]
              (or_intror eq_refl)
              ltac:(discriminate) eq_refl eq_refl) as [_ [H _]].
  rewrite (H eq_refl). repeat split.
Defined.

(** C1 fails on the code: on the freshly reset session with an empty
    section list [setup] raises, yet the transition to [IDLE] returns
    normally with the state changed to [IDLE] and the [IDLE] observer
    fired, and the transition to [RUNNING] fires the [RUNNING] observer and
    invokes the execution driver, which starts the engine. *)
Lemma set_goes_on_after_setup_failure :
  let e := with_sections [] Toy.fresh in
  vm e = None /\
  fst (setup Toy.ctx e) = Raise (RuntimeError "populate_memory() failed") /\
  fst (set Toy.ctx IDLE e) = Ok tt /\
  state (snd (set Toy.ctx IDLE e)) = IDLE /\
  In (EvCallback IDLE "update_layout_step_running")
    (trace (snd (set Toy.ctx IDLE e))) /\
  In (EvNowState RUNNING) (trace (snd (set Toy.ctx RUNNING e))) /\
  In (EvCallback RUNNING "update_layout_running")
    (trace (snd (set Toy.ctx RUNNING e))) /\
  In EvRunnerRun (trace (snd (set Toy.ctx RUNNING e))) /\
  In (EvEmuStart 0 0) (trace (snd (set Toy.ctx RUNNING e))).
Proof.
  repeat split; vm_compute; tauto.
Qed.

(** ** The execution driver *)

Lemma registers_getitem_live {Uc : Type} (ctx : Context Uc)
  (e : Emulator Uc) (k : string) (uc : Uc) :
  execution_capable (state e) = true -> vm e = Some uc ->
  dict_has k (registers e) = true ->
  registers_getitem ctx k e =
    (Ok (uc_reg_read ctx uc k),
     with_registers (dict_set k (uc_reg_read ctx uc k) (registers e))
       (emit (EvRegRead k) e)).
Proof.
  intros Hcap Hvm Hk.
  unfold registers_getitem, bind, gets, get_register_value, modify, ret.
  simpl. rewrite Hcap, Hk. simpl. rewrite Hvm. simpl.
  rewrite dict_get_set_same. reflexivity.
Qed.

Lemma set_with_no_observers {Uc : Type} (ctx : Context Uc)
  (on_exit : EmulatorState -> EmuM Uc unit) (S : EmulatorState)
  (e e1 : Emulator Uc) :
  state e <> S ->
  entry_action ctx S e = (Ok tt, e1) ->
  callbacks_for S (state_change_callbacks e1) = None ->
  set_with ctx on_exit S e =
    (Raise (KeyError (EmulatorState_name S)),
     with_state S (emit (EvNowState S) e1)).
Proof.
  intros Hne Hentry Hcb. unfold set_with.
  unfold bind at 1, gets at 1. rewrite (state_eqb_neq _ _ Hne).
  rewrite (bind_ok _ _ _ _ _ Hentry).
  unfold bind at 1, log at 1, modify at 1.
  unfold bind at 1, modify at 1.
  unfold bind at 1, gets at 1.
  cbn [state_change_callbacks with_state emit with_trace]. rewrite Hcb.
  reflexivity.
Qed.

Lemma entry_action_nested {Uc : Type} (ctx : Context Uc) (S : EmulatorState)
  (e : Emulator Uc) :
  S = FINISHED \/ S = IDLE -> vm e <> None ->
  exists e1,
    entry_action ctx S e = (Ok tt, e1) /\ evolves (fun _ => True) e e1.
Proof.
  intros HS Hvm.
  assert (Hrefresh : forall e0 : Emulator Uc,
             exists e1,
               bind (refresh_registers_from_vm ctx) (fun _ => ret tt) e0
               = (Ok tt, e1) /\ evolves (fun _ => True) e0 e1).
  { intro e0.
    destruct (refresh_registers_from_vm_returns ctx e0) as [b Hb].
    pose proof (stable_refresh_registers_from_vm ctx (fun _ => True)
                  (fun _ => I) e0) as Hst.
    unfold bind.
    destruct (refresh_registers_from_vm ctx e0) as [r e1].
    simpl in Hb, Hst. subst r. exists e1. split; [reflexivity|exact Hst]. }
  destruct HS as [-> | ->]; simpl.
  - apply Hrefresh.
  - unfold bind at 1, try_except.
    rewrite (setup_with_engine ctx e Hvm).
    unfold bind at 1, gets.
    destruct (state_eqb (state e) RUNNING).
    + apply Hrefresh.
    + exists e. split; [reflexivity|apply evolves_refl].
Qed.

(** A transition requested by the driver ends in the requested state. *)
Lemma set_nested_reaches {Uc : Type} (ctx : Context Uc) (S : EmulatorState)
  (e : Emulator Uc) :
  S = FINISHED \/ S = IDLE -> vm e <> None ->
  exists r e' t,
    set_nested ctx S e = (r, e') /\
    state e' = S /\
    trace e' = t ++ trace e /\
    (state e <> S -> In (EvNowState S) t) /\
    (r = Ok tt \/ exists k, r = Raise (KeyError k)) /\
    (callbacks_for S (state_change_callbacks e) <> None -> r = Ok tt).
Proof.
  intros HS Hvm. unfold set_nested.
  destruct (state_eqb (state e) S) eqn:Heq.
  - apply state_eqb_eq in Heq.
    exists (Ok tt), e, []. unfold set_with, bind at 1, gets at 1.
    rewrite (proj2 (state_eqb_eq _ _) Heq).
    repeat split; auto. intro H. contradiction.
  - assert (Hne : state e <> S).
    { intro H. apply state_eqb_eq in H. congruence. }
    destruct (entry_action_nested ctx S e HS Hvm)
      as [e1 [Hentry [[_ [_ [Hcb _]]] [t1 [Ht1 _]]]]].
    destruct (callbacks_for S (state_change_callbacks e1)) as [l|] eqn:Hl.
    + rewrite (set_with_commit ctx _ S e e1 l Hne Hentry Hl).
      exists (Ok tt), (with_trace
                         (rev (map (EvCallback S) l)
                          ++ EvNowState S :: trace e1) (with_state S e1)),
        (rev (map (EvCallback S) l) ++ EvNowState S :: t1).
      repeat split; auto.
      * simpl. rewrite Ht1, <- app_assoc. reflexivity.
      * intros _. apply in_or_app. right. now left.
    + rewrite (set_with_no_observers ctx _ S e e1 Hne Hentry Hl).
      exists (Raise (KeyError (EmulatorState_name S))),
        (with_state S (emit (EvNowState S) e1)), (EvNowState S :: t1).
      repeat split.
      * simpl. now rewrite Ht1.
      * intros _. now left.
      * right. eauto.
      * rewrite <- Hcb, Hl. intro H. contradiction.
Qed.

Lemma is_running_capable {Uc : Type} (e : Emulator Uc) :
  is_running e = true -> execution_capable (state e) = true.
Proof. unfold is_running. destruct (state e); simpl; congruence. Qed.

(** The [try] block up to and including the engine's run primitive. *)
Lemma run_body_started {Uc : Type} (ctx : Context Uc) (e : Emulator Uc)
  (uc uc' : Uc) (stop : Z) (fault : option Z) :
  vm e = Some uc -> is_running e = true ->
  dict_has (arch_pc ctx) (registers e) = true ->
  let start :=
    start_address_of (uc_reg_read ctx uc (arch_pc ctx)) (start_addr e) in
  end_address_of ctx e start = Some stop ->
  uc_emu_start ctx uc start stop = (uc', fault) ->
  let started :=
    with_vm (Some uc')
      (emit (EvEmuStart start stop)
         (with_registers
            (dict_set (arch_pc ctx) (uc_reg_read ctx uc (arch_pc ctx))
               (registers e))
            (emit (EvRegRead (arch_pc ctx)) e))) in
  run_body ctx e =
    match fault with
    | Some c => (Raise (UcError c), started)
    | None =>
        let pcv := uc_reg_read ctx uc' (arch_pc ctx) in
        let read :=
          with_registers (dict_set (arch_pc ctx) pcv (registers started))
            (emit (EvRegRead (arch_pc ctx)) started) in
        if pcv =? start_addr e + Z.of_nat (List.length (code e))
        then set_nested ctx FINISHED read
        else set_nested ctx IDLE read
    end.
Proof.
  intros Hvm Hrun Hpc start Hstop Hstart started.
  pose proof (is_running_capable e Hrun) as Hcap.
  unfold run_body, pc.
  rewrite (bind_ok _ _ _ _ _
             (registers_getitem_live ctx e _ uc Hcap Hvm Hpc)).
  unfold bind at 1, gets at 1. cbn [start_addr with_registers emit with_trace].
  fold start.
  unfold bind at 1, gets at 1.
  change (end_address_of ctx
            (with_registers
               (dict_set (arch_pc ctx) (uc_reg_read ctx uc (arch_pc ctx))
                  (registers e)) (emit (EvRegRead (arch_pc ctx)) e)) start)
    with (end_address_of ctx e start).
  rewrite Hstop.
  unfold bind at 1, emu_start.
  cbn [vm with_registers emit with_trace]. rewrite Hvm, Hstart.
  fold started.
  destruct fault as [c|]; [reflexivity|].
  assert (Hpc' : dict_has (arch_pc ctx) (registers started) = true).
  { simpl. now apply dict_has_set. }
  rewrite (bind_ok _ _ _ _ _
             (registers_getitem_live ctx started _ uc' Hcap eq_refl Hpc')).
  unfold bind, gets. cbv zeta.
  change (start_addr
            (with_registers
               (dict_set (arch_pc ctx) (uc_reg_read ctx uc' (arch_pc ctx))
                  (registers started))
               (emit (EvRegRead (arch_pc ctx)) started)))
    with (start_addr e).
  change (code
            (with_registers
               (dict_set (arch_pc ctx) (uc_reg_read ctx uc' (arch_pc ctx))
                  (registers started))
               (emit (EvRegRead (arch_pc ctx)) started)))
    with (code e).
  destruct (uc_reg_read ctx uc' (arch_pc ctx)
            =? start_addr e + Z.of_nat (List.length (code e))); reflexivity.
Qed.

Lemma run_guard_passed {Uc : Type} (ctx : Context Uc) (e : Emulator Uc)
  (uc : Uc) :
  vm e = Some uc -> is_running e = true ->
  run ctx e = try_except (run_body ctx) (run_handler ctx) e.
Proof.
  intros Hvm Hrun. unfold run, bind at 1, gets at 1. rewrite Hvm.
  unfold bind at 1, gets at 1. rewrite Hrun. reflexivity.
Qed.

(** What is not an engine fault passes through the handler of the driver. *)
Lemma run_handler_passes {Uc : Type} (ctx : Context Uc)
  (m : EmuM Uc unit) (e e' : Emulator Uc) (r : result unit) :
  m e = (r, e') ->
  r = Ok tt \/ (exists k, r = Raise (KeyError k)) ->
  try_except m (run_handler ctx) e = (r, e').
Proof.
  intros Hm Hr. unfold try_except. rewrite Hm.
  destruct Hr as [-> | [k ->]]; reflexivity.
Qed.

(** C7: when the guard of the driver passes, a stop address is found and
    the engine's run primitive returns without a fault, the session ends
    in [FINISHED] if the program counter read back from the engine equals
    [start_addr + len(code)] and in [IDLE] otherwise; the call returns
    normally as long as the state reached has an observer list. *)
Theorem run_finished_or_idle {Uc : Type} (ctx : Context Uc)
  (e : Emulator Uc) (uc uc' : Uc) (stop : Z) :
  vm e = Some uc -> is_running e = true ->
  dict_has (arch_pc ctx) (registers e) = true ->
  let start :=
    start_address_of (uc_reg_read ctx uc (arch_pc ctx)) (start_addr e) in
  end_address_of ctx e start = Some stop ->
  uc_emu_start ctx uc start stop = (uc', None) ->
  let target :=
    if uc_reg_read ctx uc' (arch_pc ctx)
       =? start_addr e + Z.of_nat (List.length (code e))
    then FINISHED else IDLE in
  state (snd (run ctx e)) = target /\
  In (EvEmuStart start stop) (trace (snd (run ctx e))) /\
  (callbacks_for target (state_change_callbacks e) <> None ->
   fst (run ctx e) = Ok tt).
Proof.
  intros Hvm Hrun Hpc start Hstop Hstart target.
  rewrite (run_guard_passed ctx e uc Hvm Hrun).
  pose proof (run_body_started ctx e uc uc' stop None Hvm Hrun Hpc
                Hstop Hstart) as Hbody.
  cbv zeta in Hbody. fold start in Hbody.
  set (started := with_vm (Some uc') _) in Hbody.
  set (read := with_registers _ (emit (EvRegRead (arch_pc ctx)) started))
    in Hbody.
  assert (Hnested : run_body ctx e = set_nested ctx target read).
  { rewrite Hbody. unfold target. destruct (_ =? _); reflexivity. }
  destruct (set_nested_reaches ctx target read)
    as [r [e' [t [Hset [Hstate [Htrace [_ [Hr Hok]]]]]]]].
  { unfold target. destruct (_ =? _); auto. }
  { simpl. discriminate. }
  rewrite Hset in Hnested.
  rewrite (run_handler_passes ctx _ e e' r Hnested Hr). simpl.
  split; [exact Hstate|]. split.
  - rewrite Htrace. apply in_or_app. right. simpl. auto.
  - exact Hok.
Qed.

Lemma run_finished_or_idle_witness :
  state (snd (run Toy.ctx
                (with_state RUNNING
                   (snd (setup Toy.ctx (Toy.with_source "ab" Toy.fresh))))))
    = FINISHED /\
  state (snd (run Toy.ctx
                (Toy.with_step_mode true
                   (with_state RUNNING
                      (snd (setup Toy.ctx
                              (Toy.with_source "ab" Toy.fresh)))))))
    = IDLE.
Proof.
  split.
  - pose proof (run_finished_or_idle Toy.ctx
                  (with_state RUNNING
                     (snd (setup Toy.ctx (Toy.with_source "ab" Toy.fresh))))
                  [("pc", 0x4000); ("sp", 0x8000); ("r0", 0)]
                  [("pc", 0x4002); ("sp", 0x8000); ("r0", 0)]
                  0x4002 eq_refl eq_refl eq_refl eq_refl eq_refl) as H.
    cbv zeta in H. destruct H as [H _]. exact H.
  - pose proof (run_finished_or_idle Toy.ctx
                  (Toy.with_step_mode true
                     (with_state RUNNING
                        (snd (setup Toy.ctx
                                (Toy.with_source "ab" Toy.fresh)))))
                  [("pc", 0x4000); ("sp", 0x8000); ("r0", 0)]
                  [("pc", 0x4001); ("sp", 0x8000); ("r0", 0)]
                  0x4001 eq_refl eq_refl eq_refl eq_refl eq_refl) as H.
    cbv zeta in H. destruct H as [H _]. exact H.
Defined.

(** C8: when the guard of the driver passes and the engine's run primitive
    raises a fault, in step mode or in free-run mode, the driver pops up
    the fault code with the program counter and the stack pointer read
    from the engine after the fault, and only then moves the session to
    [FINISHED]; the call itself returns normally as long as [FINISHED] has
    an observer list. *)
Theorem run_fault_forces_finished {Uc : Type} (ctx : Context Uc)
  (e : Emulator Uc) (uc uc' : Uc) (stop c : Z) :
  vm e = Some uc -> is_running e = true ->
  dict_has (arch_pc ctx) (registers e) = true ->
  dict_has (arch_sp ctx) (registers e) = true ->
  let start :=
    start_address_of (uc_reg_read ctx uc (arch_pc ctx)) (start_addr e) in
  end_address_of ctx e start = Some stop ->
  uc_emu_start ctx uc start stop = (uc', Some c) ->
  let report :=
    EvPopup (PopupRunFault c (uc_reg_read ctx uc' (arch_pc ctx))
               (uc_reg_read ctx uc' (arch_sp ctx))) in
  state (snd (run ctx e)) = FINISHED /\
  (exists t before,
     trace (snd (run ctx e)) = t ++ report :: before /\
     In (EvNowState FINISHED) t /\
     In (EvEmuStart start stop) before) /\
  (callbacks_for FINISHED (state_change_callbacks e) <> None ->
   fst (run ctx e) = Ok tt).
Proof.
  intros Hvm Hrun Hpc Hsp start Hstop Hstart report.
  pose proof (is_running_capable e Hrun) as Hcap.
  pose proof (run_body_started ctx e uc uc' stop (Some c) Hvm Hrun Hpc
                Hstop Hstart) as Hbody.
  cbv zeta in Hbody. fold start in Hbody.
  set (started := with_vm (Some uc') _) in Hbody.
  assert (Hpc1 : dict_has (arch_pc ctx) (registers started) = true).
  { simpl. now apply dict_has_set. }
  pose proof (registers_getitem_live ctx started _ uc' Hcap eq_refl Hpc1)
    as Hread1.
  set (e1 := with_registers _ (emit (EvRegRead (arch_pc ctx)) started))
    in Hread1.
  assert (Hsp1 : dict_has (arch_sp ctx) (registers e1) = true).
  { simpl. now do 2 apply dict_has_set. }
  pose proof (registers_getitem_live ctx e1 _ uc' Hcap eq_refl Hsp1)
    as Hread2.
  set (e2 := with_registers _ (emit (EvRegRead (arch_sp ctx)) e1)) in Hread2.
  assert (Hres : run ctx e = set_nested ctx FINISHED (emit report e2)).
  { rewrite (run_guard_passed ctx e uc Hvm Hrun).
    unfold try_except. rewrite Hbody. cbn [run_handler].
    unfold run_fault, pc, sp.
    rewrite (bind_ok _ _ _ _ _ Hread1), (bind_ok _ _ _ _ _ Hread2).
    reflexivity. }
  destruct (set_nested_reaches ctx FINISHED (emit report e2))
    as [r [e' [t [Hset [Hstate [Htrace [Hnow [_ Hok]]]]]]]].
  { now left. }
  { simpl. discriminate. }
  rewrite Hres, Hset. simpl.
  split; [exact Hstate|]. split.
  - exists t, (trace e2). split; [exact Htrace|]. split.
    + apply Hnow. simpl. unfold is_running in Hrun.
      destruct (state e); congruence.
    + simpl. auto.
  - exact Hok.
Qed.

Lemma run_fault_forces_finished_witness :
  state (snd (run Toy.ctx
                (with_state RUNNING
                   (with_vm (Some [("pc", 0x10); ("sp", 0x8000)])
                      (snd (setup Toy.ctx
                              (Toy.with_source "ab" Toy.fresh)))))))
    = FINISHED /\
  In (EvPopup (PopupRunFault 8 0x10 0x8000))
    (trace (snd (run Toy.ctx
                   (with_state RUNNING
                      (with_vm (Some [("pc", 0x10); ("sp", 0x8000)])
                         (snd (setup Toy.ctx
                                 (Toy.with_source "ab" Toy.fresh)))))))).
Proof.
  pose proof (run_fault_forces_finished Toy.ctx
                (with_state RUNNING
                   (with_vm (Some [("pc", 0x10); ("sp", 0x8000)])
                      (snd (setup Toy.ctx
                              (Toy.with_source "ab" Toy.fresh)))))
                [("pc", 0x10); ("sp", 0x8000)]
                [("pc", 0x10); ("sp", 0x8000)]
                0x4002 8 eq_refl eq_refl eq_refl eq_refl eq_refl eq_refl)
    as H.
  cbv zeta in H. destruct H as [H1 [[t [before [Ht _]]] _]].
  split; [exact H1|]. rewrite Ht. apply in_or_app. right. now left.
Defined.

(** ** Setup, teardown and reset on the default layout *)

Section DefaultLayout.
Variable Uc : Type.
Variable ctx : Context Uc.

Lemma populate_text_section_served (e e' : Emulator Uc)
  (text data stack : MemorySection) (i : Instruction)
  (insns : list Instruction) (r : result bool) :
  vm e <> None ->
  find_section_in (sections e) MEMORY_TEXT_SECTION_NAME = Ok text ->
  find_section_in (sections e) MEMORY_DATA_SECTION_NAME = Ok data ->
  find_section_in (sections e) MEMORY_STACK_SECTION_NAME = Ok stack ->
  assemble ctx (codelines e) (start_addr e) = Some (i :: insns) ->
  populate_text_section ctx e = (r, e') ->
  (r = Ok true /\
   vm e' <> None /\ registers e' = registers e /\ state e' = state e /\
   sections e' = sections e) \/ refused r.
Proof.
  intros Hvm Ht Hd Hs Hasm H.
  unfold populate_text_section in H.
  destruct (vm e) as [uc|] eqn:E; [|contradiction].
  unfold bind at 1, gets at 1 in H. rewrite E in H.
  assert (Hreq : for_each
                   [MEMORY_TEXT_SECTION_NAME; MEMORY_DATA_SECTION_NAME;
                    MEMORY_STACK_SECTION_NAME] require_section e
                 = (Ok tt, e)).
  { simpl. unfold bind. rewrite !require_section_result, Ht, Hd, Hs.
    reflexivity. }
  rewrite (bind_ok _ _ _ _ _ Hreq) in H.
  unfold bind at 1, find_section at 1 in H. rewrite Ht in H.
  assert (Hgen : generate_text_bytecode ctx e =
                 (Ok true,
                  with_end_addr
                    (Some (start_addr e
                           + Z.of_nat
                               (List.length
                                  (List.concat (map insn_bytes (i :: insns))))))
                    (with_code (List.concat (map insn_bytes (i :: insns))) e))).
  { unfold generate_text_bytecode, bind, gets. rewrite Hasm. reflexivity. }
  rewrite (bind_ok _ _ _ _ _ Hgen) in H.
  change (negb true) with false in H. cbv iota in H.
  unfold bind, gets, vm_call, ret in H. cbv beta iota in H.
  cbn [vm code with_end_addr with_code] in H. rewrite E in H.
  destruct (uc_mem_write ctx uc (sec_address text)
              (List.concat (map insn_bytes (i :: insns)))) as [uc'|c].
  - injection H as <- <-. left. simpl. repeat split. discriminate.
  - injection H as <- <-. right. eexists. reflexivity.
Qed.

(** The unmapping loop of [teardown]. *)
Lemma unmap_sections_served (secs : list MemorySection) :
  forall (e e' : Emulator Uc) (r : result unit),
    vm e <> None ->
    for_each secs (unmap_section ctx) e = (r, e') ->
    (r = Ok tt /\ cache_kept e e' /\
     state_change_callbacks e' = state_change_callbacks e /\
     trace e' = rev (map unmapping_event secs) ++ trace e) \/ refused r.
Proof.
  induction secs as [|s secs IH]; intros e e' r Hvm H; simpl in H.
  - injection H as <- <-. left. unfold cache_kept. auto 10.
  - destruct (unmap_section ctx s e) as [r1 e1] eqn:E1.
    assert (H1 : (r1 = Ok tt /\ cache_kept e e1 /\
                  state_change_callbacks e1 = state_change_callbacks e /\
                  trace e1 = unmapping_event s :: trace e) \/ refused r1).
    { unfold unmap_section, vm_call in E1.
      destruct (vm e) as [uc|] eqn:E; [|contradiction].
      destruct (uc_mem_unmap ctx uc (sec_address s) (sec_size s));
        injection E1 as <- <-.
      - left. unfold cache_kept. simpl. repeat split. discriminate.
      - right. eexists. reflexivity. }
    destruct H1 as [[-> [[V1 [R1 [S1 [A1 [C1 X1]]]]] [B1 T1]]]|[c ->]];
      [|refusal H E1].
    rewrite (bind_ok _ _ _ _ _ E1) in H.
    destruct (IH e1 e' r V1 H)
      as [[-> [[V2 [R2 [S2 [A2 [C2 X2]]]]] [B2 T2]]]|Href]; [|now right].
    left. split; [reflexivity|]. split.
    + unfold cache_kept. repeat split; congruence.
    + split; [congruence|].
      rewrite T2, T1. simpl. rewrite <- app_assoc. reflexivity.
Qed.

(** [teardown] outside the execution-capable states: the read of the
    program counter is served by the cache. *)
Lemma teardown_served (e e' : Emulator Uc) (v : Z) (r : result unit) :
  vm e <> None -> execution_capable (state e) = false ->
  dict_get (arch_pc ctx) (registers e) = Some v ->
  teardown ctx e = (r, e') ->
  (r = Ok tt /\
   vm e' = None /\ registers e' = registers e /\ state e' = state e /\
   sections e' = sections e /\
   state_change_callbacks e' = state_change_callbacks e /\
   trace e' = rev (map unmapping_event (sections e)) ++ trace e)
  \/ refused r.
Proof.
  intros Hvm Hcap Hpc H. unfold teardown in H.
  destruct (vm e) as [uc|] eqn:E; [|contradiction].
  unfold bind at 1, gets at 1 in H. rewrite E in H. unfold pc in H.
  rewrite (bind_ok _ _ _ _ _ (registers_getitem_cached ctx e _ v Hcap Hpc))
    in H.
  unfold bind at 1, gets at 1 in H.
  destruct (for_each (sections e) (unmap_section ctx) e) as [r1 e1] eqn:E1.
  destruct (unmap_sections_served (sections e) e e1 r1)
    as [[-> [[_ [R1 [S1 [_ [_ X1]]]]] [B1 T1]]]|[c ->]];
    [rewrite E; discriminate|exact E1| |refusal H E1].
  rewrite (bind_ok _ _ _ _ _ E1) in H. injection H as <- <-.
  left. simpl. auto 10.
Qed.

(** [setup] on a freshly reset session whose source assembles. *)
Lemma setup_default_layout (e e' : Emulator Uc) (i : Instruction)
  (insns : list Instruction) (r : result unit) :
  state e = NOT_RUNNING -> vm e = None ->
  sections e = MEMORY_MAP_DEFAULT_LAYOUT ->
  registers e = zero_registers (arch_registers ctx) ->
  In (arch_pc ctx) (arch_registers ctx) ->
  In (arch_sp ctx) (arch_registers ctx) ->
  arch_pc ctx <> arch_sp ctx ->
  ~ In (arch_pc ctx) ["CS"; "DS"; "SS"; "GS"; "FS"; "ES"] ->
  ~ In (arch_sp ctx) ["CS"; "DS"; "SS"; "GS"; "FS"; "ES"] ->
  assemble ctx (codelines e) 0x4000 = Some (i :: insns) ->
  setup ctx e = (r, e') ->
  (r = Ok tt /\
   vm e' <> None /\ state e' = NOT_RUNNING /\
   sections e' = MEMORY_MAP_DEFAULT_LAYOUT /\
   dict_get (arch_pc ctx) (registers e') = Some 0x4000 /\
   dict_get (arch_sp ctx) (registers e') = Some 0x8000) \/ refused r.
Proof.
  intros Hst Hvm Hsec Hregs Hinpc Hinsp Hne Hselpc Hselsp Hasm H.
  unfold setup, bind at 1, gets at 1 in H. rewrite Hvm in H.
  unfold bind at 1, modify at 1 in H.
  set (e0 := with_vm (Some (arch_uc ctx)) e) in *.
  unfold setup_engine in H.
  do 5 (unfold bind at 1, log at 1, modify at 1 in H).
  destruct (hooks_installed ctx e0) as [t1 Hhooks].
  rewrite (bind_ok _ _ _ _ _ Hhooks) in H.
  set (e1 := with_trace t1 e0) in *.
  destruct (populate_memory ctx e1) as [r2 e2] eqn:E2.
  destruct (populate_memory_served Uc ctx e1 e2
              (mkSection MEMORY_TEXT_SECTION_NAME 0x4000 0x1000
                 "READ|EXEC" None)
              (tl MEMORY_MAP_DEFAULT_LAYOUT) r2)
    as [[-> [A2 [V2 [R2 [S2 [_ X2]]]]]]|[c ->]];
    [simpl; discriminate|exact Hsec| |exact E2| |refusal H E2].
  { intros s Hin. simpl in Hin. rewrite Hsec in Hin.
    destruct Hin as [<-|[<-|[<-|[]]]]; eexists; reflexivity. }
  pose proof (stable_populate_memory Uc ctx e1) as F2.
  rewrite E2 in F2. destruct F2 as [[_ [_ [_ [_ [L2 _]]]]] _].
  rewrite (bind_ok _ _ _ _ _ E2) in H. simpl negb in H. cbv iota in H.
  rewrite bind_ret in H.
  assert (Hsec2 : sections e2 = MEMORY_MAP_DEFAULT_LAYOUT).
  { rewrite X2. exact Hsec. }
  destruct (populate_vm_registers ctx e2) as [r3 e3] eqn:E3.
  destruct (populate_vm_registers_defaults Uc ctx e2 e3
              (mkSection MEMORY_TEXT_SECTION_NAME 0x4000 0x1000
                 "READ|EXEC" None)
              (mkSection MEMORY_DATA_SECTION_NAME 0x5000 0x1000
                 "READ|WRITE" None)
              (mkSection MEMORY_STACK_SECTION_NAME 0x6000 0x4000
                 "READ|WRITE" None) r3)
    as [[-> [V3 [S3 [A3 [_ [X3 [P3 Q3]]]]]]]|[c ->]];
    try assumption; try (rewrite Hsec2; reflexivity).
  { rewrite S2. simpl. now rewrite Hst. }
  { rewrite R2. simpl. rewrite Hregs. now apply zero_registers_get. }
  { rewrite R2. simpl. rewrite Hregs. now apply zero_registers_get. }
  2:{ refusal H E3. }
  pose proof (stable_populate_vm_registers Uc ctx (fun _ => True)
                (fun _ => I) (fun _ _ => I) e2) as F3.
  rewrite E3 in F3. destruct F3 as [[_ [_ [_ [_ [L3 _]]]]] _].
  rewrite (bind_ok _ _ _ _ _ E3) in H. simpl negb in H. cbv iota in H.
  rewrite bind_ret in H.
  assert (Hsec3 : sections e3 = MEMORY_MAP_DEFAULT_LAYOUT).
  { rewrite X3. exact Hsec2. }
  destruct (populate_text_section ctx e3) as [r4 e4] eqn:E4.
  destruct (populate_text_section_served e3 e4
              (mkSection MEMORY_TEXT_SECTION_NAME 0x4000 0x1000
                 "READ|EXEC" None)
              (mkSection MEMORY_DATA_SECTION_NAME 0x5000 0x1000
                 "READ|WRITE" None)
              (mkSection MEMORY_STACK_SECTION_NAME 0x6000 0x4000
                 "READ|WRITE" None) i insns r4)
    as [[-> [V4 [R4 [S4 X4]]]]|[c ->]];
    try assumption; try (rewrite Hsec3; reflexivity).
  { simpl in L2, L3, A2, A3. rewrite L3, L2, A3, A2. exact Hasm. }
  2:{ refusal H E4. }
  rewrite (bind_ok _ _ _ _ _ E4) in H. simpl negb in H. cbv iota in H.
  injection H as <- <-. left. split; [reflexivity|].
  split; [exact V4|]. split; [simpl in S2; congruence|].
  split; [congruence|]. rewrite R4. split; assumption.
Qed.
End DefaultLayout.

(** C3, as the code has it: on a freshly reset session (default layout,
    zeroed cache, no engine, [NOT_RUNNING]) whose source assembles, when
    the engine refuses none of the requests that [setup] and then
    [teardown] make for it, both calls return, and leave no engine handle,
    the state [NOT_RUNNING] and the default layout; the cache however
    keeps what [setup] seeded, the text base in the program counter and
    the middle of the stack in the stack pointer. Every cache entry is
    zero again after the [reset] that the [TEARDOWN] transition runs right
    after [teardown]. *)
Theorem setup_then_teardown_default {Uc : Type} (ctx : Context Uc)
  (e : Emulator Uc) (i : Instruction) (insns : list Instruction) :
  ~ refused (fst (setup ctx e)) ->
  ~ refused (fst (teardown ctx (snd (setup ctx e)))) ->
  state e = NOT_RUNNING -> vm e = None ->
  sections e = MEMORY_MAP_DEFAULT_LAYOUT ->
  registers e = zero_registers (arch_registers ctx) ->
  In (arch_pc ctx) (arch_registers ctx) ->
  In (arch_sp ctx) (arch_registers ctx) ->
  arch_pc ctx <> arch_sp ctx ->
  ~ In (arch_pc ctx) ["CS"; "DS"; "SS"; "GS"; "FS"; "ES"] ->
  ~ In (arch_sp ctx) ["CS"; "DS"; "SS"; "GS"; "FS"; "ES"] ->
  assemble ctx (codelines e) 0x4000 = Some (i :: insns) ->
  exists e1 e2 e3,
    setup ctx e = (Ok tt, e1) /\
    teardown ctx e1 = (Ok tt, e2) /\
    vm e2 = None /\ state e2 = NOT_RUNNING /\
    sections e2 = MEMORY_MAP_DEFAULT_LAYOUT /\
    dict_get (arch_pc ctx) (registers e2) = Some 0x4000 /\
    dict_get (arch_sp ctx) (registers e2) = Some 0x8000 /\
    reset ctx e2 = (Ok tt, e3) /\
    vm e3 = None /\ state e3 = NOT_RUNNING /\
    sections e3 = MEMORY_MAP_DEFAULT_LAYOUT /\
    (forall k v, In (k, v) (registers e3) -> v = 0).
Proof.
  intros Hnr1 Hnr2 Hst Hvm Hsec Hregs Hinpc Hinsp Hne Hselpc Hselsp Hasm.
  destruct (setup ctx e) as [r1 e1] eqn:E1.
  destruct (setup_default_layout Uc ctx e e1 i insns r1)
    as [[-> [V1 [S1 [X1 [P1 Q1]]]]]|Href]; try assumption;
    [|contradiction].
  simpl in Hnr2.
  destruct (teardown ctx e1) as [r2 e2] eqn:E2.
  destruct (teardown_served Uc ctx e1 e2 0x4000 r2)
    as [[-> [V2 [R2 [S2 [X2 _]]]]]|Href]; try assumption;
    [now rewrite S1| |contradiction].
  exists e1, e2.
  eexists. split; [reflexivity|]. split; [exact E2|].
  split; [exact V2|]. split; [congruence|]. split; [congruence|].
  split; [now rewrite R2|]. split; [now rewrite R2|].
  assert (Hreset : reset ctx e2 =
                   (Ok tt,
                    with_start_addr 0
                      (with_registers (zero_registers (arch_registers ctx))
                         (with_sections MEMORY_MAP_DEFAULT_LAYOUT
                            (with_code [] (with_vm None e2)))))).
  { unfold reset, set_nested, set_with. unfold bind, modify, gets. simpl.
    rewrite S2, S1. reflexivity. }
  split; [exact Hreset|]. simpl.
  split; [reflexivity|]. split; [congruence|]. split; [reflexivity|].
  apply zero_registers_values.
Qed.

Lemma setup_then_teardown_default_witness :
  exists e2 e3,
    teardown Toy.ctx (snd (setup Toy.ctx (Toy.with_source "ab" Toy.fresh)))
      = (Ok tt, e2) /\
    vm e2 = None /\ state e2 = NOT_RUNNING /\
    dict_get "pc" (registers e2) = Some 0x4000 /\
    reset Toy.ctx e2 = (Ok tt, e3) /\
    (forall k v, In (k, v) (registers e3) -> v = 0).
Proof.
  destruct (setup_then_teardown_default Toy.ctx
              (Toy.with_source "ab" Toy.fresh)
              (mkInsn 0x4000 [Byte.x90] 0x4001)
              [mkInsn 0x4001 [Byte.x90] 0x4002])
    as [e1 [e2 [e3 [H1 [H2 [H3 [H4 [_ [H6 [_ [H8 [_ [_ [_ H12]]]]]]]]]]]]]].
  - intros [c H]. vm_compute in H. discriminate H.
  - intros [c H]. vm_compute in H. discriminate H.
  - reflexivity.
  - reflexivity.
  - reflexivity.
  - reflexivity.
  - simpl. auto.
  - simpl. auto.
  - discriminate.
  - simpl. intuition discriminate.
  - simpl. intuition discriminate.
  - reflexivity.
  - exists e2, e3. rewrite H1. simpl. repeat split; assumption.
Defined.

(** C3 fails on the code: after [setup] and [teardown] on the freshly reset
    session, the cache still holds the seeded program counter and stack
    pointer. *)
Lemma teardown_keeps_seeded_registers :
  let e := Toy.with_source "ab" Toy.fresh in
  let e2 := snd (teardown Toy.ctx (snd (setup Toy.ctx e))) in
  sections e = MEMORY_MAP_DEFAULT_LAYOUT /\
  fst (setup Toy.ctx e) = Ok tt /\
  fst (teardown Toy.ctx (snd (setup Toy.ctx e))) = Ok tt /\
  vm e2 = None /\ state e2 = NOT_RUNNING /\
  registers e2 = [("pc", 0x4000); ("sp", 0x8000); ("r0", 0)] /\
  ~ (forall k v, In (k, v) (registers e2) -> v = 0).
Proof.
  repeat split; try reflexivity.
  intro H. specialize (H "pc" 0x4000 (or_introl eq_refl)). discriminate H.
Qed.

(** * Further properties of the session *)

(** ** Section lookup *)

Lemma filter_first {A : Type} (f : A -> bool) (l : list A) (x : A)
  (r : list A) :
  filter f l = x :: r ->
  exists l1 l2,
    l = l1 ++ x :: l2 /\ f x = true /\
    (forall y, In y l1 -> f y = false) /\ filter f l2 = r.
Proof.
  induction l as [|a l IH]; simpl; [discriminate|].
  destruct (f a) eqn:Ha.
  - intro H. injection H as -> <-.
    exists [], l. repeat split; auto. intros y [].
  - intro H. destruct (IH H) as [l1 [l2 [-> [Hx [Hl1 Hr]]]]].
    exists (a :: l1), l2. repeat split; auto.
    intros y [<-|Hy]; auto.
Qed.

Lemma filter_none {A : Type} (f : A -> bool) (l : list A) :
  filter f l = [] -> forall y, In y l -> f y = false.
Proof.
  induction l as [|a l IH]; simpl; [intros _ y []|].
  destruct (f a) eqn:Ha; [discriminate|].
  intros H y [<-|Hy]; auto.
Qed.

(** X1: [find_section] returns the one section of the list that bears the
    name; it raises [KeyError] exactly when no section bears it, and
    [ValueError] exactly when two sections at different places do. *)
Theorem find_section_in_cases (secs : list MemorySection) (n : string) :
  match find_section_in secs n with
  | Ok s =>
      exists l1 l2,
        secs = l1 ++ s :: l2 /\ sec_name s = n /\
        forall s', In s' (l1 ++ l2) -> sec_name s' <> n
  | Raise (KeyError k) =>
      k = n /\ forall s', In s' secs -> sec_name s' <> n
  | Raise (ValueError k) =>
      k = n /\
      exists l1 s1 l2 s2 l3,
        secs = l1 ++ s1 :: l2 ++ s2 :: l3 /\
        sec_name s1 = n /\ sec_name s2 = n
  | Raise _ => False
  end.
Proof.
  assert (Hname : forall s : MemorySection,
             String.eqb (sec_name s) n = true <-> sec_name s = n).
  { intro s. apply String.eqb_eq. }
  assert (Hnot : forall s : MemorySection,
             String.eqb (sec_name s) n = false -> sec_name s <> n).
  { intros s H E. apply Hname in E. congruence. }
  unfold find_section_in.
  destruct (filter (fun s => String.eqb (sec_name s) n) secs)
    as [|s1 [|s2 r]] eqn:Hf.
  - split; [reflexivity|]. intros s' Hin. apply Hnot.
    apply (filter_none _ _ Hf s' Hin).
  - destruct (filter_first _ _ _ _ Hf) as [l1 [l2 [-> [Hs [Hl1 Hl2]]]]].
    exists l1, l2. split; [reflexivity|]. split; [now apply Hname|].
    intros s' Hin. apply Hnot. apply in_app_or in Hin.
    destruct Hin as [Hin|Hin]; [now apply Hl1|].
    apply (filter_none _ _ Hl2 s' Hin).
  - split; [reflexivity|].
    destruct (filter_first _ _ _ _ Hf) as [l1 [l2 [-> [Hs1 [_ Hl2]]]]].
    destruct (filter_first _ _ _ _ Hl2) as [l2' [l3 [-> [Hs2 _]]]].
    exists l1, s1, l2', s2, l3. split; [reflexivity|].
    split; now apply Hname.
Qed.

(** ** Observers *)

Lemma callbacks_for_append_same (s : EmulatorState) (cb : Callback)
  (d : list (EmulatorState * list Callback)) (l : list Callback) :
  callbacks_for s d = Some l ->
  callbacks_for s (append_callback s cb d) = Some (l ++ [cb]).
Proof.
  induction d as [|[k v] d IH]; simpl; [discriminate|].
  destruct (state_eqb k s) eqn:E; simpl; rewrite E.
  - intro H. injection H as <-. reflexivity.
  - exact IH.
Qed.

Lemma callbacks_for_append_other (s s' : EmulatorState) (cb : Callback)
  (d : list (EmulatorState * list Callback)) :
  s' <> s ->
  callbacks_for s' (append_callback s cb d) = callbacks_for s' d.
Proof.
  intro Hne. induction d as [|[k v] d IH]; simpl; [reflexivity|].
  destruct (state_eqb k s) eqn:E; simpl.
  - apply state_eqb_eq in E. subst k.
    rewrite (state_eqb_neq s s'); [reflexivity|congruence].
  - rewrite IH. reflexivity.
Qed.

Lemma callbacks_for_append_none (s s' : EmulatorState) (cb : Callback)
  (d : list (EmulatorState * list Callback)) :
  callbacks_for s' d = None ->
  callbacks_for s' (append_callback s cb d) = None.
Proof.
  induction d as [|[k v] d IH]; simpl; [reflexivity|].
  destruct (state_eqb k s') eqn:E'; [discriminate|].
  intro H. destruct (state_eqb k s); simpl; rewrite E'; auto.
Qed.

(** X2: [add_state_change_cb] puts the observer at the end of the list of
    its state and leaves the lists of the other states as they were. *)
Theorem add_state_change_cb_appends {Uc : Type} (e : Emulator Uc)
  (s : EmulatorState) (cb : Callback) (l : list Callback) :
  callbacks_for s (state_change_callbacks e) = Some l ->
  callbacks_for s (state_change_callbacks (add_state_change_cb s cb e))
    = Some (l ++ [cb]) /\
  forall s', s' <> s ->
    callbacks_for s' (state_change_callbacks (add_state_change_cb s cb e))
    = callbacks_for s' (state_change_callbacks e).
Proof.
  intro H. split.
  - now apply callbacks_for_append_same.
  - intros s' Hne. now apply callbacks_for_append_other.
Qed.

Lemma add_state_change_cb_appends_witness :
  callbacks_for IDLE
    (state_change_callbacks
       (add_state_change_cb IDLE "refresh_memory_view" Toy.fresh))
  = Some ["update_layout_step_running"; "refresh_memory_view"].
Proof.
  destruct (add_state_change_cb_appends Toy.fresh IDLE "refresh_memory_view"
              ["update_layout_step_running"] eq_refl) as [H _].
  exact H.
Defined.

(** The entry action of a transition never raises: a failing [setup] is
    caught, and refreshing the cache cannot fail. *)
Lemma entry_action_returns {Uc : Type} (ctx : Context Uc)
  (S : EmulatorState) (e : Emulator Uc) :
  exists e1,
    entry_action ctx S e = (Ok tt, e1) /\ evolves (fun _ => True) e e1.
Proof.
  assert (Hrefresh : forall e0 : Emulator Uc,
             exists e1,
               bind (refresh_registers_from_vm ctx) (fun _ => ret tt) e0
               = (Ok tt, e1) /\ evolves (fun _ => True) e0 e1).
  { intro e0.
    destruct (refresh_registers_from_vm_returns ctx e0) as [b Hb].
    pose proof (stable_refresh_registers_from_vm ctx (fun _ => True)
                  (fun _ => I) e0) as Hst.
    unfold bind.
    destruct (refresh_registers_from_vm ctx e0) as [r e1].
    simpl in Hb, Hst. subst r. exists e1. split; [reflexivity|exact Hst]. }
  assert (Harm : exists e1,
             bind (try_except (setup ctx)
                     (fun x => Some (log (EvPopup (PopupSetupError x)))))
               (fun _ =>
                  bind (gets state)
                    (fun st =>
                       if state_eqb st RUNNING
                       then bind (refresh_registers_from_vm ctx)
                              (fun _ => ret tt)
                       else ret tt)) e = (Ok tt, e1) /\
             evolves (fun _ => True) e e1).
  { pose proof (stable_setup Uc ctx e) as Hsetup.
    unfold bind at 1, try_except.
    destruct (setup ctx e) as [[[]|x] e0]; simpl in Hsetup.
    - unfold bind at 1, gets.
      destruct (state_eqb (state e0) RUNNING).
      + destruct (Hrefresh e0) as [e1 [E1 H1]]. exists e1.
        split; [exact E1|]. eapply evolves_trans; eassumption.
      + exists e0. split; [reflexivity|exact Hsetup].
    - unfold log, modify. unfold bind at 1, gets.
      assert (Hpop : evolves (fun _ => True) e
                       (emit (EvPopup (PopupSetupError x)) e0)).
      { apply evolves_emit; [exact I|exact Hsetup]. }
      destruct (state_eqb (state (emit (EvPopup (PopupSetupError x)) e0))
                  RUNNING).
      + destruct (Hrefresh (emit (EvPopup (PopupSetupError x)) e0))
          as [e1 [E1 H1]].
        exists e1. split; [exact E1|].
        eapply evolves_trans; eassumption.
      + eexists. split; [reflexivity|exact Hpop]. }
  destruct S; simpl; try (exists e; split; [reflexivity|apply evolves_refl]).
  - exact Harm.
  - exact Harm.
  - apply Hrefresh.
Qed.

(** X3: in a transition to a state other than [RUNNING] and [TEARDOWN],
    from a different state, the entry action never raises (a failing
    [setup] on the way to [IDLE] is caught) and the state is changed.
    When the target state has an observer list, its observers are then
    fired, all of them and no other, in registration order, and the call
    returns normally; when it has none ([INVALID], in the dictionary of
    [__init__]), the call raises [KeyError] with the state already
    changed. *)
Theorem set_fires_observers {Uc : Type} (ctx : Context Uc)
  (e : Emulator Uc) (S : EmulatorState) :
  S <> RUNNING -> S <> TEARDOWN -> state e <> S ->
  exists e1,
    entry_action ctx S e = (Ok tt, e1) /\
    set ctx S e =
      match callbacks_for S (state_change_callbacks e) with
      | Some l =>
          (Ok tt,
           with_trace
             (rev (map (EvCallback S) l) ++ EvNowState S :: trace e1)
             (with_state S e1))
      | None =>
          (Raise (KeyError (EmulatorState_name S)),
           with_state S (emit (EvNowState S) e1))
      end.
Proof.
  intros Hrun Htear Hne.
  destruct (entry_action_returns ctx S e)
    as [e1 [Hentry [[_ [_ [Hcb1 _]]] _]]].
  exists e1. split; [exact Hentry|].
  unfold set.
  destruct (callbacks_for S (state_change_callbacks e)) as [l|] eqn:Hcb.
  - rewrite (set_with_commit ctx _ S e e1 l Hne Hentry);
      [|now rewrite Hcb1].
    destruct S; try reflexivity; contradiction.
  - apply (set_with_no_observers ctx _ S e e1 Hne Hentry).
    now rewrite Hcb1.
Qed.

Lemma set_fires_observers_witness :
  fst (set Toy.ctx STARTING
         (add_state_change_cb STARTING "second"
            (add_state_change_cb STARTING "first" Toy.fresh))) = Ok tt /\
  trace (snd (set Toy.ctx STARTING
                (add_state_change_cb STARTING "second"
                   (add_state_change_cb STARTING "first" Toy.fresh))))
  = [ EvCallback STARTING "second"; EvCallback STARTING "first";
      EvNowState STARTING;
      EvCallback NOT_RUNNING "update_layout_not_running";
      EvNowState NOT_RUNNING ].
Proof.
  destruct (set_fires_observers Toy.ctx
              (add_state_change_cb STARTING "second"
                 (add_state_change_cb STARTING "first" Toy.fresh))
              STARTING
              ltac:(discriminate) ltac:(discriminate)
              ltac:(vm_compute; discriminate))
    as [e1 [H1 H2]].
  rewrite H2. vm_compute in H1. injection H1 as <-.
  split; vm_compute; reflexivity.
Defined.

(** X4: [INVALID] has no observer list in the dictionary of [__init__], and
    registering observers never gives it one; a transition to [INVALID]
    therefore raises [KeyError], but only after the state has been
    changed to [INVALID]. *)
Theorem set_invalid_raises_after_commit {Uc : Type} (ctx : Context Uc)
  (e : Emulator Uc) :
  state e <> INVALID ->
  callbacks_for INVALID (state_change_callbacks e) = None ->
  set ctx INVALID e =
    (Raise (KeyError "INVALID"),
     with_state INVALID (emit (EvNowState INVALID) e)) /\
  forall s cb,
    callbacks_for INVALID
      (state_change_callbacks (add_state_change_cb s cb e)) = None.
Proof.
  intros Hne Hcb. split.
  - unfold set. now rewrite (set_with_no_observers ctx _ INVALID e e Hne).
  - intros s cb. now apply callbacks_for_append_none.
Qed.

Lemma set_invalid_raises_after_commit_witness :
  fst (set Toy.ctx INVALID Toy.fresh) = Raise (KeyError "INVALID") /\
  state (snd (set Toy.ctx INVALID Toy.fresh)) = INVALID.
Proof.
  destruct (set_invalid_raises_after_commit Toy.ctx Toy.fresh
              ltac:(vm_compute; discriminate) ltac:(vm_compute; reflexivity))
    as [H _].
  rewrite H. split; reflexivity.
Defined.

(** ** Teardown and reset *)

(** X5: [teardown] drops the engine handle exactly when it returns
    normally: if reading the program counter or unmapping a section
    raises, the exception propagates and the handle stays assigned. *)
Theorem teardown_drops_handle_iff_returns {Uc : Type} (ctx : Context Uc)
  (e : Emulator Uc) :
  match fst (teardown ctx e) with
  | Ok _ => vm (snd (teardown ctx e)) = None
  | Raise _ => vm e <> None /\ vm (snd (teardown ctx e)) <> None
  end.
Proof.
  assert (H : forall r e',
             teardown ctx e = (r, e') ->
             match r with
             | Ok _ => vm e' = None
             | Raise _ => vm e <> None /\ vm e' <> None
             end).
  { intros r e' Ht. unfold teardown, bind at 1, gets at 1 in Ht.
    destruct (vm e) as [uc|] eqn:E.
    2:{ injection Ht as <- <-. exact E. }
    assert (Hvm : Some uc <> None) by discriminate.
    pose proof (stable_registers_getitem Uc ctx (fun _ => True)
                  (fun _ => I) (arch_pc ctx) e) as H1.
    unfold bind at 1, pc in Ht.
    destruct (registers_getitem ctx (arch_pc ctx) e) as [[v|x] e1];
      simpl in H1; destruct H1 as [[_ [_ [_ [_ [_ [_ Hv1]]]]]] _].
    2:{ injection Ht as <- <-. rewrite E in Hv1. auto. }
    unfold bind at 1, gets at 1 in Ht.
    pose proof (stable_for_each Uc (fun _ => True) (sections e1)
                  (unmap_section ctx)
                  (fun s => stable_vm_call Uc (fun _ => True) _ _ I) e1)
      as H2.
    unfold bind at 1 in Ht.
    destruct (for_each (sections e1) (unmap_section ctx) e1)
      as [[[]|x] e2];
      simpl in H2; destruct H2 as [[_ [_ [_ [_ [_ [_ Hv2]]]]]] _].
    - injection Ht as <- <-. reflexivity.
    - injection Ht as <- <-. rewrite E in Hv1. auto. }
  destruct (teardown ctx e) as [r e'] eqn:Ht. simpl. now apply H.
Qed.

(** X6: when the engine refuses none of the unmappings, [teardown] of a
    session with an engine returns after unmapping every section of the
    list once, in list order, then drops the handle; state, layout and
    register cache are those left by the read of the program counter
    that the log line makes. *)
Theorem teardown_unmaps_every_section {Uc : Type} (ctx : Context Uc)
  (e : Emulator Uc) :
  vm e <> None ->
  dict_has (arch_pc ctx) (registers e) = true ->
  ~ refused (fst (teardown ctx e)) ->
  exists e',
    teardown ctx e = (Ok tt, e') /\
    vm e' = None /\
    trace e' =
      rev (map unmapping_event (sections e))
      ++ trace (snd (pc ctx e)) /\
    registers e' = registers (snd (pc ctx e)) /\
    sections e' = sections e /\ state e' = state e.
Proof.
  intros Hvm Hpc Hnr.
  assert (Hread : exists v e0,
             pc ctx e = (Ok v, e0) /\ vm e0 <> None /\
             sections e0 = sections e /\ state e0 = state e).
  { unfold pc. destruct (vm e) as [uc|] eqn:E; [|contradiction].
    destruct (execution_capable (state e)) eqn:Hcap.
    - rewrite (registers_getitem_live ctx e _ uc Hcap E Hpc).
      eexists. eexists. split; [reflexivity|]. simpl. rewrite E.
      repeat split. discriminate.
    - unfold dict_has in Hpc.
      destruct (dict_get (arch_pc ctx) (registers e)) as [v|] eqn:Hget;
        [|discriminate].
      rewrite (registers_getitem_cached ctx e _ v Hcap Hget).
      exists v, e. rewrite E. repeat split. discriminate. }
  destruct Hread as [v [e0 [Hread [V0 [X0 S0]]]]].
  rewrite Hread. simpl snd.
  destruct (teardown ctx e) as [r e'] eqn:H. simpl in Hnr.
  unfold teardown, bind at 1, gets at 1 in H.
  destruct (vm e) as [uc|] eqn:E; [|contradiction].
  rewrite (bind_ok _ _ _ _ _ Hread) in H.
  unfold bind at 1, gets at 1 in H.
  destruct (for_each (sections e0) (unmap_section ctx) e0) as [r1 e1] eqn:E1.
  destruct (unmap_sections_served Uc ctx (sections e0) e0 e1 r1 V0 E1)
    as [[-> [[_ [R1 [S1 [_ [_ X1]]]]] [_ T1]]]|[c ->]].
  - rewrite (bind_ok _ _ _ _ _ E1) in H. injection H as <- <-.
    eexists. split; [reflexivity|]. simpl.
    rewrite T1, R1, X1, S1, X0, S0. auto 10.
  - rewrite (bind_raise _ _ _ _ _ E1) in H. injection H as <- <-.
    exfalso. apply Hnr. eexists. reflexivity.
Qed.

Lemma teardown_unmaps_every_section_witness :
  exists e',
    teardown Toy.ctx (snd (setup Toy.ctx (Toy.with_source "ab" Toy.fresh)))
      = (Ok tt, e') /\
    vm e' = None /\
    firstn 3 (trace e') =
      [ EvMemUnmap 0x6000 0x4000; EvMemUnmap 0x5000 0x1000;
        EvMemUnmap 0x4000 0x1000 ].
Proof.
  destruct (teardown_unmaps_every_section Toy.ctx
              (snd (setup Toy.ctx (Toy.with_source "ab" Toy.fresh)))
              ltac:(vm_compute; discriminate) ltac:(vm_compute; reflexivity)
              ltac:(intros [c H]; vm_compute in H; discriminate H))
    as [e' [H1 [H2 [H3 _]]]].
  exists e'. split; [exact H1|]. split; [exact H2|].
  rewrite H3. vm_compute. reflexivity.
Defined.

Lemma zero_registers_fold_lookup (names : list string) (k : string) :
  forall d,
    dict_get k (fold_left (fun d name => dict_set name 0 d) names d)
    = if str_in k names then Some 0 else dict_get k d.
Proof.
  unfold str_in. induction names as [|n names IH]; intro d; simpl;
    [reflexivity|].
  rewrite IH. destruct (String.eqb_spec k n) as [->|Hne]; simpl.
  - rewrite dict_get_set_same. now destruct (existsb _ names).
  - now rewrite dict_get_set_other.
Qed.

(** X7: [reset] leaves no engine handle, no compiled code, the default
    layout, a zero start address and the state [NOT_RUNNING], whatever the
    session was; its register cache has exactly the architecture's
    register names as keys, each with value zero; and it returns normally
    as long as [NOT_RUNNING] has an observer list. *)
Theorem reset_pristine {Uc : Type} (ctx : Context Uc) (e : Emulator Uc) :
  vm (snd (reset ctx e)) = None /\
  code (snd (reset ctx e)) = [] /\
  sections (snd (reset ctx e)) = MEMORY_MAP_DEFAULT_LAYOUT /\
  start_addr (snd (reset ctx e)) = 0 /\
  state (snd (reset ctx e)) = NOT_RUNNING /\
  (forall k,
     dict_get k (registers (snd (reset ctx e)))
     = if str_in k (arch_registers ctx) then Some 0 else None) /\
  (callbacks_for NOT_RUNNING (state_change_callbacks e) <> None ->
   fst (reset ctx e) = Ok tt).
Proof.
  set (cleared :=
         with_start_addr 0
           (with_registers (zero_registers (arch_registers ctx))
              (with_sections MEMORY_MAP_DEFAULT_LAYOUT
                 (with_code [] (with_vm None e))))).
  assert (Hreset : reset ctx e = set_nested ctx NOT_RUNNING cleared)
    by reflexivity.
  assert (Hregs : forall k,
             dict_get k (zero_registers (arch_registers ctx))
             = if str_in k (arch_registers ctx) then Some 0 else None).
  { intro k. unfold zero_registers. now rewrite zero_registers_fold_lookup. }
  rewrite Hreset. unfold set_nested.
  destruct (state_eqb (state e) NOT_RUNNING) eqn:Heq.
  - assert (Hnoop : set_with ctx (fun _ => ret tt) NOT_RUNNING cleared
                    = (Ok tt, cleared)).
    { unfold set_with, bind at 1, gets at 1.
      change (state cleared) with (state e). now rewrite Heq. }
    rewrite Hnoop. simpl. apply state_eqb_eq in Heq. auto 10.
  - assert (Hne : state cleared <> NOT_RUNNING).
    { simpl. intro H. apply state_eqb_eq in H. congruence. }
    destruct (callbacks_for NOT_RUNNING (state_change_callbacks e))
      as [l|] eqn:Hl.
    + rewrite (set_with_commit ctx _ NOT_RUNNING cleared cleared l Hne
                 eq_refl Hl).
      simpl. auto 10.
    + rewrite (set_with_no_observers ctx _ NOT_RUNNING cleared cleared Hne
                 eq_refl Hl).
      simpl. repeat split; auto. intro H. contradiction.
Qed.

(** X8: when the engine refuses none of the unmappings, a transition to
    [TEARDOWN] of a session with an engine returns normally and ends in
    [NOT_RUNNING] with no engine, no code, the default layout and a zeroed
    cache; the [TEARDOWN] observers are fired while the engine is still
    mapped, then every section is unmapped, then the [NOT_RUNNING]
    observers are fired. *)
Theorem set_teardown_resets {Uc : Type} (ctx : Context Uc)
  (e : Emulator Uc) (v : Z) (l1 l2 : list Callback) :
  vm e <> None -> state e <> TEARDOWN ->
  dict_get (arch_pc ctx) (registers e) = Some v ->
  callbacks_for TEARDOWN (state_change_callbacks e) = Some l1 ->
  callbacks_for NOT_RUNNING (state_change_callbacks e) = Some l2 ->
  ~ refused (fst (set ctx TEARDOWN e)) ->
  exists e',
    set ctx TEARDOWN e = (Ok tt, e') /\
    vm e' = None /\ state e' = NOT_RUNNING /\ code e' = [] /\
    sections e' = MEMORY_MAP_DEFAULT_LAYOUT /\
    registers e' = zero_registers (arch_registers ctx) /\
    start_addr e' = 0 /\
    trace e' =
      rev (map (EvCallback NOT_RUNNING) l2) ++ EvNowState NOT_RUNNING
      :: rev (map unmapping_event (sections e))
      ++ rev (map (EvCallback TEARDOWN) l1) ++ EvNowState TEARDOWN
      :: trace e.
Proof.
  intros Hvm Hne Hpc Hl1 Hl2 Hnr.
  destruct (set ctx TEARDOWN e) as [r e'] eqn:H. simpl in Hnr.
  unfold set in H.
  rewrite (set_with_commit ctx _ TEARDOWN e e l1 Hne eq_refl Hl1) in H.
  set (committed := with_trace _ (with_state TEARDOWN e)) in H.
  unfold exit_action in H.
  destruct (teardown ctx committed) as [r1 e1] eqn:E1.
  destruct (teardown_served Uc ctx committed e1 v r1 Hvm eq_refl Hpc E1)
    as [[-> [V1 [_ [S1 [_ [C1 T1]]]]]]|[c ->]].
  2:{ rewrite (bind_raise _ _ _ _ _ E1) in H. injection H as <- <-.
      exfalso. apply Hnr. eexists. reflexivity. }
  rewrite (bind_ok _ _ _ _ _ E1) in H.
  set (cleared :=
         with_start_addr 0
           (with_registers (zero_registers (arch_registers ctx))
              (with_sections MEMORY_MAP_DEFAULT_LAYOUT
                 (with_code [] (with_vm None e1))))).
  assert (Hreset : reset ctx e1 = set_nested ctx NOT_RUNNING cleared)
    by reflexivity.
  rewrite Hreset in H. unfold set_nested in H.
  assert (Hne' : state cleared <> NOT_RUNNING).
  { simpl. rewrite S1. simpl. discriminate. }
  assert (Hl2' : callbacks_for NOT_RUNNING (state_change_callbacks cleared)
                 = Some l2).
  { simpl. rewrite C1. exact Hl2. }
  rewrite (set_with_commit ctx _ NOT_RUNNING cleared cleared l2 Hne'
             eq_refl Hl2') in H.
  injection H as <- <-.
  eexists. split; [reflexivity|]. simpl.
  rewrite T1. simpl. auto 10.
Qed.

Lemma set_teardown_resets_witness :
  exists e',
    set Toy.ctx TEARDOWN
      (snd (setup Toy.ctx (Toy.with_source "ab" Toy.fresh))) = (Ok tt, e') /\
    vm e' = None /\ state e' = NOT_RUNNING /\
    registers e' = [("pc", 0); ("sp", 0); ("r0", 0)].
Proof.
  destruct (set_teardown_resets Toy.ctx
              (snd (setup Toy.ctx (Toy.with_source "ab" Toy.fresh)))
              0x4000 [] ["update_layout_not_running"]
              ltac:(vm_compute; discriminate) ltac:(vm_compute; discriminate)
              ltac:(vm_compute; reflexivity) ltac:(vm_compute; reflexivity)
              ltac:(vm_compute; reflexivity)
              ltac:(intros [c H]; vm_compute in H; discriminate H))
    as [e' [H1 [H2 [H3 [_ [_ [H6 _]]]]]]].
  exists e'. repeat split; assumption.
Defined.

(** ** The register cache, again *)

(** X9: outside [RUNNING], [IDLE] and [FINISHED] the cache is a plain
    dictionary: a value stored under a name is the value read back under
    that name, reading touches nothing, and the entries under other names
    are not affected. *)
Theorem registers_set_then_get {Uc : Type} (ctx : Context Uc)
  (e : Emulator Uc) (k : string) (v : Z) :
  execution_capable (state e) = false ->
  bind (registers_setitem k v) (fun _ => registers_getitem ctx k) e
    = (Ok v, with_registers (dict_set k v (registers e)) e) /\
  forall k', k' <> k ->
    fst (bind (registers_setitem k v) (fun _ => registers_getitem ctx k') e)
    = fst (registers_getitem ctx k' e).
Proof.
  intro Hcap. split.
  - unfold bind at 1, registers_setitem, modify.
    apply registers_getitem_cached; [exact Hcap|].
    simpl. apply dict_get_set_same.
  - intros k' Hne. unfold bind at 1, registers_setitem, modify.
    unfold registers_getitem, bind, gets, ret, raise. simpl.
    rewrite Hcap. simpl. rewrite (dict_get_set_other k' k v _ Hne).
    now destruct (dict_get k' (registers e)).
Qed.

Lemma registers_set_then_get_witness :
  bind (registers_setitem "r0" 7) (fun _ => registers_getitem Toy.ctx "r0")
    Toy.fresh
  = (Ok 7, with_registers [("pc", 0); ("sp", 0); ("r0", 7)] Toy.fresh).
Proof.
  destruct (registers_set_then_get Toy.ctx Toy.fresh "r0" 7 eq_refl)
    as [H _].
  exact H.
Defined.

Lemma dict_set_set (k : string) (v v' : Z) (d : list (string * Z)) :
  dict_set k v' (dict_set k v d) = dict_set k v' d.
Proof.
  induction d as [|[k0 v0] d IH]; simpl.
  - now rewrite String.eqb_refl.
  - destruct (String.eqb k0 k) eqn:E; simpl; rewrite E;
      [reflexivity|now rewrite IH].
Qed.

(** X10: in [RUNNING], [IDLE] or [FINISHED] with a live engine, a value
    stored in the cache under a name it already holds does not survive
    the next read of that name: the read returns the engine's value and
    overwrites the stored one; nothing pushes the stored value to the
    engine. *)
Theorem registers_set_overwritten_by_engine {Uc : Type} (ctx : Context Uc)
  (e : Emulator Uc) (uc : Uc) (k : string) (v : Z) :
  execution_capable (state e) = true -> vm e = Some uc ->
  dict_has k (registers e) = true ->
  bind (registers_setitem k v) (fun _ => registers_getitem ctx k) e
    = (Ok (uc_reg_read ctx uc k),
       with_registers (dict_set k (uc_reg_read ctx uc k) (registers e))
         (emit (EvRegRead k) e)).
Proof.
  intros Hcap Hvm _.
  change (bind (registers_setitem k v) (fun _ => registers_getitem ctx k) e)
    with (registers_getitem ctx k
            (with_registers (dict_set k v (registers e)) e)).
  rewrite (registers_getitem_live ctx
             (with_registers (dict_set k v (registers e)) e) k uc Hcap Hvm).
  - simpl. now rewrite dict_set_set.
  - simpl. unfold dict_has. now rewrite dict_get_set_same.
Qed.

Lemma registers_set_overwritten_by_engine_witness :
  fst (bind (registers_setitem "r0" 7)
         (fun _ => registers_getitem Toy.ctx "r0")
         (with_state IDLE (with_vm (Some [("r0", 3)]) Toy.fresh)))
  = Ok 3.
Proof.
  rewrite (registers_set_overwritten_by_engine Toy.ctx
             (with_state IDLE (with_vm (Some [("r0", 3)]) Toy.fresh))
             [("r0", 3)] "r0" 7 eq_refl eq_refl eq_refl).
  reflexivity.
Defined.

(** ** Synchronising the cache with the engine *)

Lemma fold_set_lookup (f : string -> Z) (keys : list string) (k : string) :
  forall d,
    dict_get k (fold_left (fun d n => dict_set n (f n) d) keys d)
    = if str_in k keys then Some (f k) else dict_get k d.
Proof.
  unfold str_in. induction keys as [|n keys IH]; intro d; simpl;
    [reflexivity|].
  rewrite IH. destruct (String.eqb_spec k n) as [->|Hne]; simpl.
  - rewrite dict_get_set_same. now destruct (existsb _ keys).
  - now rewrite dict_get_set_other.
Qed.

Lemma fold_set_keys (f : string -> Z) (keys : list string) :
  forall d,
    (forall n, In n keys -> dict_has n d = true) ->
    dict_keys (fold_left (fun d n => dict_set n (f n) d) keys d)
    = dict_keys d.
Proof.
  induction keys as [|n keys IH]; intros d H; simpl; [reflexivity|].
  rewrite IH.
  - apply dict_keys_set. apply H. now left.
  - intros n' Hn'. apply dict_has_set. apply H. now right.
Qed.

Lemma str_in_In (k : string) (l : list string) :
  In k l -> str_in k l = true.
Proof.
  intro H. unfold str_in. apply existsb_exists. exists k.
  split; [exact H|apply String.eqb_refl].
Qed.

(** The loop of [__refresh_registers_from_vm], run to its end. *)
Lemma refresh_registers_loop {Uc : Type} (ctx : Context Uc) (uc : Uc)
  (keys : list string) :
  forall e : Emulator Uc,
    vm e = Some uc ->
    for_each keys (refresh_register ctx) e
    = (Ok tt,
       with_trace (rev (map EvRegRead keys) ++ trace e)
         (with_registers
            (fold_left (fun d n => dict_set n (uc_reg_read ctx uc n) d)
               keys (registers e)) e)).
Proof.
  induction keys as [|n keys IH]; intros e Hvm; simpl.
  - destruct e; reflexivity.
  - unfold bind, refresh_register at 1. rewrite Hvm.
    rewrite IH; [|exact Hvm]. simpl. rewrite <- app_assoc. reflexivity.
Qed.

Lemma refresh_registers_running {Uc : Type} (ctx : Context Uc)
  (e : Emulator Uc) (uc : Uc) :
  vm e = Some uc -> is_running e = true ->
  refresh_registers_from_vm ctx e
  = (Ok true,
     with_trace (rev (map EvRegRead (dict_keys (registers e))) ++ trace e)
       (with_registers
          (fold_left (fun d n => dict_set n (uc_reg_read ctx uc n) d)
             (dict_keys (registers e)) (registers e)) e)).
Proof.
  intros Hvm Hrun. unfold refresh_registers_from_vm.
  rewrite Hvm, Hrun. simpl negb. cbv iota.
  now rewrite (bind_ok _ _ _ _ _
                 (refresh_registers_loop ctx uc _ e Hvm)).
Qed.

(** X11: in [RUNNING] or [IDLE] with an engine, refreshing the cache reads
    every cached register once, in dictionary order, and leaves each
    entry equal to the engine's value, with the same keys in the same
    order; the engine is not modified. With no engine, or in any other
    state, it returns [False] and changes nothing. *)
Theorem refresh_synchronises_cache {Uc : Type} (ctx : Context Uc)
  (e : Emulator Uc) :
  (forall uc,
     vm e = Some uc -> is_running e = true ->
     exists e',
       refresh_registers_from_vm ctx e = (Ok true, e') /\
       (forall k, In k (dict_keys (registers e)) ->
                  dict_get k (registers e') = Some (uc_reg_read ctx uc k)) /\
       dict_keys (registers e') = dict_keys (registers e) /\
       vm e' = Some uc /\ state e' = state e /\
       trace e' =
         rev (map EvRegRead (dict_keys (registers e))) ++ trace e) /\
  (vm e = None \/ is_running e = false ->
   refresh_registers_from_vm ctx e = (Ok false, e)).
Proof.
  split.
  - intros uc Hvm Hrun.
    rewrite (refresh_registers_running ctx e uc Hvm Hrun).
    eexists. split; [reflexivity|]. simpl. repeat split; auto.
    + intros k Hk. rewrite fold_set_lookup. now rewrite (str_in_In _ _ Hk).
    + apply fold_set_keys. intros n Hn. now apply dict_has_keys.
  - unfold refresh_registers_from_vm. intros [H|H]; rewrite H.
    + reflexivity.
    + destruct (vm e); reflexivity.
Qed.

Lemma refresh_synchronises_cache_witness :
  dict_get "r0"
    (registers
       (snd (refresh_registers_from_vm Toy.ctx
               (with_state IDLE
                  (with_vm (Some [("pc", 0x4001); ("r0", 9)]) Toy.fresh)))))
  = Some 9.
Proof.
  destruct (refresh_synchronises_cache Toy.ctx
              (with_state IDLE
                 (with_vm (Some [("pc", 0x4001); ("r0", 9)]) Toy.fresh)))
    as [H _].
  destruct (H [("pc", 0x4001); ("r0", 9)] eq_refl eq_refl)
    as [e' [H1 [H2 _]]].
  rewrite H1. simpl snd.
  rewrite (H2 "r0" ltac:(vm_compute; auto)). vm_compute. reflexivity.
Defined.

(** ** Frames for an arbitrary preorder on sessions *)

Section Frame.
Variable Uc : Type.
Variable R : Emulator Uc -> Emulator Uc -> Prop.
Hypothesis R_refl : forall e, R e e.
Hypothesis R_trans : forall e1 e2 e3, R e1 e2 -> R e2 e3 -> R e1 e3.

Lemma frame_ret {A : Type} (a : A) : stable R (@ret Uc A a).
Proof. intro e. apply R_refl. Qed.

Lemma frame_raise {A : Type} (x : exn) : stable R (@raise Uc A x).
Proof. intro e. apply R_refl. Qed.

Lemma frame_gets {A : Type} (f : Emulator Uc -> A) : stable R (gets f).
Proof. intro e. apply R_refl. Qed.

Lemma frame_find_section (n : string) : stable R (@find_section Uc n).
Proof. intro e. apply R_refl. Qed.

Lemma frame_modify (f : Emulator Uc -> Emulator Uc) :
  (forall e, R e (f e)) -> stable R (modify f).
Proof. intros H e. apply H. Qed.

Lemma frame_bind {A B : Type} (m : EmuM Uc A) (k : A -> EmuM Uc B) :
  stable R m -> (forall a, stable R (k a)) -> stable R (bind m k).
Proof.
  intros Hm Hk e. unfold bind. specialize (Hm e).
  destruct (m e) as [[a|x] e']; simpl in *.
  - eapply R_trans; [exact Hm|apply Hk].
  - exact Hm.
Qed.

Lemma frame_try_except {A : Type} (m : EmuM Uc A)
  (h : exn -> option (EmuM Uc A)) :
  stable R m -> (forall x k, h x = Some k -> stable R k) ->
  stable R (try_except m h).
Proof.
  intros Hm Hh e. unfold try_except. specialize (Hm e).
  destruct (m e) as [[a|x] e']; simpl in *; [exact Hm|].
  destruct (h x) as [k|] eqn:E; [|exact Hm].
  eapply R_trans; [exact Hm|apply (Hh _ _ E)].
Qed.

Lemma frame_for_each {A : Type} (l : list A) (body : A -> EmuM Uc unit) :
  (forall a, stable R (body a)) -> stable R (for_each l body).
Proof.
  intro Hb. induction l as [|a l IH]; simpl.
  - apply frame_ret.
  - apply frame_bind; [apply Hb|intros _; exact IH].
Qed.

Lemma frame_require_section (n : string) :
  stable R (@require_section Uc n).
Proof.
  unfold require_section. apply frame_try_except.
  - apply frame_bind; [apply frame_find_section|].
    intros _. apply frame_ret.
  - intros x k. destruct x; intro H; try discriminate H.
    injection H as <-. apply frame_raise.
Qed.
End Frame.

(** Walks a computation down to its primitive steps; [leaf] settles
    those. *)
Ltac frame_with refl trans leaf :=
  repeat first
    [ leaf
    | apply (frame_find_section _ _ refl)
    | apply (frame_require_section _ _ refl trans)
    | apply (frame_ret _ _ refl)
    | apply (frame_raise _ _ refl)
    | apply (frame_gets _ _ refl)
    | apply (frame_for_each _ _ refl trans); intro
    | apply (frame_bind _ _ trans); [|intro]
    | match goal with
      | |- stable _ (match ?x with _ => _ end) => destruct x
      end ].

(** ** No step of [setup] removes a name from the cache *)

Section KeysKept.
Variable Uc : Type.
Variable ctx : Context Uc.

Lemma keys_kept_refl (e : Emulator Uc) : keys_kept e e.
Proof. intros k H. exact H. Qed.

Lemma keys_kept_trans (e1 e2 e3 : Emulator Uc) :
  keys_kept e1 e2 -> keys_kept e2 e3 -> keys_kept e1 e3.
Proof. intros H1 H2 k H. apply H2, H1, H. Qed.

Lemma keys_kept_same (e e' : Emulator Uc) :
  registers e' = registers e -> keys_kept e e'.
Proof. intros H k Hk. now rewrite H. Qed.

Lemma keys_modify_same (f : Emulator Uc -> Emulator Uc) :
  (forall e, registers (f e) = registers e) ->
  stable keys_kept (modify f).
Proof. intros H e. apply keys_kept_same, H. Qed.

Lemma keys_log (ev : Event) : stable keys_kept (@log Uc ev).
Proof. apply keys_modify_same. reflexivity. Qed.

Lemma keys_vm_call (ev : Event) (op : Uc -> uc_result Uc) :
  stable keys_kept (vm_call ev op).
Proof.
  intro e. apply keys_kept_same. unfold vm_call.
  destruct (vm e) as [uc|]; [destruct (op uc)|]; reflexivity.
Qed.

Lemma keys_registers_setitem (k : string) (v : Z) :
  stable keys_kept (@registers_setitem Uc k v).
Proof. intros e k' H. simpl. now apply dict_has_set. Qed.

Lemma keys_registers_getitem (k : string) :
  stable keys_kept (registers_getitem ctx k).
Proof.
  unfold registers_getitem.
  apply (frame_bind _ _ keys_kept_trans);
    [apply (frame_gets _ _ keys_kept_refl)|intro st].
  apply (frame_bind _ _ keys_kept_trans);
    [apply (frame_gets _ _ keys_kept_refl)|intro regs].
  apply (frame_bind _ _ keys_kept_trans).
  - destruct (execution_capable st && dict_has k regs);
      [|apply (frame_ret _ _ keys_kept_refl)].
    apply (frame_bind _ _ keys_kept_trans).
    + intro e. apply keys_kept_same. unfold get_register_value.
      destruct (vm e); reflexivity.
    + intros [v|]; [|apply (frame_ret _ _ keys_kept_refl)].
      intros e k' H. simpl. now apply dict_has_set.
  - intros _. apply (frame_bind _ _ keys_kept_trans);
      [apply (frame_gets _ _ keys_kept_refl)|intro regs'].
    destruct (dict_get k regs');
      [apply (frame_ret _ _ keys_kept_refl)
      |apply (frame_raise _ _ keys_kept_refl)].
Qed.

Ltac keys_frame :=
  frame_with keys_kept_refl keys_kept_trans
    ltac:(first
            [ apply keys_registers_getitem
            | apply keys_registers_setitem
            | apply keys_vm_call
            | apply keys_log
            | apply keys_modify_same; reflexivity ]).

Lemma keys_populate_memory : stable keys_kept (populate_memory ctx).
Proof. unfold populate_memory, map_section. keys_frame. Qed.

Lemma keys_populate_vm_registers :
  stable keys_kept (populate_vm_registers ctx).
Proof.
  unfold populate_vm_registers, populate_selectors, push_register.
  keys_frame.
Qed.

Lemma keys_populate_text_section :
  stable keys_kept (populate_text_section ctx).
Proof.
  unfold populate_text_section, generate_text_bytecode. keys_frame.
Qed.

Lemma keys_setup : stable keys_kept (setup ctx).
Proof.
  unfold setup, setup_engine.
  frame_with keys_kept_refl keys_kept_trans
    ltac:(first
            [ apply keys_populate_memory
            | apply keys_populate_vm_registers
            | apply keys_populate_text_section
            | apply keys_log
            | apply keys_modify_same; reflexivity ]).
Qed.
End KeysKept.

(** ** Reaching [FINISHED] *)

(** From [RUNNING] or [IDLE] with an engine, the entry action of [FINISHED]
    synchronises the cache; then the state is committed and the observers
    are fired. *)
Lemma set_with_finished_running {Uc : Type} (ctx : Context Uc)
  (on_exit : EmulatorState -> EmuM Uc unit) (e : Emulator Uc) (uc : Uc)
  (l : list Callback) :
  vm e = Some uc -> is_running e = true ->
  callbacks_for FINISHED (state_change_callbacks e) = Some l ->
  set_with ctx on_exit FINISHED e =
    on_exit FINISHED
      (with_trace
         (rev (map (EvCallback FINISHED) l) ++ EvNowState FINISHED
          :: rev (map EvRegRead (dict_keys (registers e))) ++ trace e)
         (with_state FINISHED
            (with_registers
               (fold_left (fun d n => dict_set n (uc_reg_read ctx uc n) d)
                  (dict_keys (registers e)) (registers e)) e))).
Proof.
  intros Hvm Hrun Hl.
  assert (Hne : state e <> FINISHED).
  { unfold is_running in Hrun. destruct (state e); congruence. }
  assert (Hentry : entry_action ctx FINISHED e
                   = (Ok tt,
                      with_trace
                        (rev (map EvRegRead (dict_keys (registers e)))
                         ++ trace e)
                        (with_registers
                           (fold_left
                              (fun d n => dict_set n (uc_reg_read ctx uc n) d)
                              (dict_keys (registers e)) (registers e)) e))).
  { unfold entry_action.
    now rewrite (bind_ok _ _ _ _ _
                   (refresh_registers_running ctx e uc Hvm Hrun)). }
  rewrite (set_with_commit ctx on_exit FINISHED e _ l Hne Hentry Hl).
  reflexivity.
Qed.

(** X12: a transition to [FINISHED] from [RUNNING] or [IDLE] with an
    engine returns normally and leaves the cache synchronised with the
    engine: every cached register is read once, in dictionary order,
    before the state is changed and before any observer of [FINISHED] is
    fired; the engine is not modified. *)
Theorem set_finished_synchronises {Uc : Type} (ctx : Context Uc)
  (e : Emulator Uc) (uc : Uc) (l : list Callback) :
  vm e = Some uc -> is_running e = true ->
  callbacks_for FINISHED (state_change_callbacks e) = Some l ->
  exists e',
    set ctx FINISHED e = (Ok tt, e') /\
    state e' = FINISHED /\ vm e' = Some uc /\
    (forall k, In k (dict_keys (registers e)) ->
               dict_get k (registers e') = Some (uc_reg_read ctx uc k)) /\
    dict_keys (registers e') = dict_keys (registers e) /\
    trace e' =
      rev (map (EvCallback FINISHED) l) ++ EvNowState FINISHED
      :: rev (map EvRegRead (dict_keys (registers e))) ++ trace e.
Proof.
  intros Hvm Hrun Hl. unfold set.
  rewrite (set_with_finished_running ctx _ e uc l Hvm Hrun Hl).
  eexists. split; [reflexivity|]. simpl. repeat split; auto.
  - intros k Hk. rewrite fold_set_lookup. now rewrite (str_in_In _ _ Hk).
  - apply fold_set_keys. intros n Hn. now apply dict_has_keys.
Qed.

Lemma set_finished_synchronises_witness :
  exists e',
    set Toy.ctx FINISHED
      (with_state IDLE
         (with_vm (Some [("pc", 0x4001); ("r0", 9)]) Toy.fresh))
    = (Ok tt, e') /\
    state e' = FINISHED /\
    dict_get "r0" (registers e') = Some 9.
Proof.
  destruct (set_finished_synchronises Toy.ctx
              (with_state IDLE
                 (with_vm (Some [("pc", 0x4001); ("r0", 9)]) Toy.fresh))
              [("pc", 0x4001); ("r0", 9)] ["update_layout_step_finished"]
              eq_refl eq_refl ltac:(vm_compute; reflexivity))
    as [e' [H1 [H2 [_ [H4 _]]]]].
  exists e'. split; [exact H1|]. split; [exact H2|].
  rewrite (H4 "r0" ltac:(vm_compute; auto)). vm_compute. reflexivity.
Defined.

(** ** The driver *)

(** The [try] block when step mode finds nothing to decode. *)
Lemma run_body_exhausted {Uc : Type} (ctx : Context Uc) (e : Emulator Uc)
  (uc : Uc) :
  vm e = Some uc -> is_running e = true ->
  dict_has (arch_pc ctx) (registers e) = true ->
  end_address_of ctx e
    (start_address_of (uc_reg_read ctx uc (arch_pc ctx)) (start_addr e))
  = None ->
  run_body ctx e =
    set_nested ctx FINISHED
      (with_registers
         (dict_set (arch_pc ctx) (uc_reg_read ctx uc (arch_pc ctx))
            (registers e))
         (emit (EvRegRead (arch_pc ctx)) e)).
Proof.
  intros Hvm Hrun Hpc Hstop.
  pose proof (is_running_capable e Hrun) as Hcap.
  unfold run_body, pc.
  rewrite (bind_ok _ _ _ _ _
             (registers_getitem_live ctx e _ uc Hcap Hvm Hpc)).
  unfold bind at 1, gets at 1. cbn [start_addr with_registers emit with_trace].
  unfold bind at 1, gets at 1.
  change (end_address_of ctx
            (with_registers
               (dict_set (arch_pc ctx) (uc_reg_read ctx uc (arch_pc ctx))
                  (registers e)) (emit (EvRegRead (arch_pc ctx)) e))
            (start_address_of (uc_reg_read ctx uc (arch_pc ctx))
               (start_addr e)))
    with (end_address_of ctx e
            (start_address_of (uc_reg_read ctx uc (arch_pc ctx))
               (start_addr e))).
  now rewrite Hstop.
Qed.

(** X13: in step mode, when nothing can be decoded at the program counter
    read from the engine (or at [start_addr] when that is zero), the
    driver moves the session to [FINISHED] without starting the engine:
    the trace gains the read of the program counter, the reads that
    synchronise the cache, the state line and the observers of
    [FINISHED], and the engine handle is the one it was. *)
Theorem run_step_mode_exhausted {Uc : Type} (ctx : Context Uc)
  (e : Emulator Uc) (uc : Uc) (l : list Callback) :
  vm e = Some uc -> is_running e = true ->
  dict_has (arch_pc ctx) (registers e) = true ->
  use_step_mode e = true ->
  next_instruction ctx
    (py_slice_from (code e)
       (start_address_of (uc_reg_read ctx uc (arch_pc ctx)) (start_addr e)
        - start_addr e))
    (start_address_of (uc_reg_read ctx uc (arch_pc ctx)) (start_addr e))
  = None ->
  callbacks_for FINISHED (state_change_callbacks e) = Some l ->
  exists e' t,
    run ctx e = (Ok tt, e') /\
    state e' = FINISHED /\ vm e' = Some uc /\
    trace e' = t ++ trace e /\
    t = rev (map (EvCallback FINISHED) l) ++ EvNowState FINISHED
        :: rev (map EvRegRead (dict_keys (registers e)))
        ++ [EvRegRead (arch_pc ctx)] /\
    Forall not_emu_start t.
Proof.
  intros Hvm Hrun Hpc Hstep Hnext Hl.
  assert (Hstop : end_address_of ctx e
                    (start_address_of (uc_reg_read ctx uc (arch_pc ctx))
                       (start_addr e)) = None).
  { unfold end_address_of. now rewrite Hstep, Hnext. }
  rewrite (run_guard_passed ctx e uc Hvm Hrun).
  unfold try_except.
  rewrite (run_body_exhausted ctx e uc Hvm Hrun Hpc Hstop).
  unfold set_nested.
  rewrite (set_with_finished_running ctx _
             (with_registers
                (dict_set (arch_pc ctx) (uc_reg_read ctx uc (arch_pc ctx))
                   (registers e))
                (emit (EvRegRead (arch_pc ctx)) e)) uc l Hvm Hrun Hl).
  cbn [registers with_registers emit with_trace trace ret].
  rewrite (dict_keys_set _ _ _ Hpc).
  eexists. eexists. split; [reflexivity|]. simpl.
  repeat split.
  - exact Hvm.
  - rewrite <- app_assoc. simpl. rewrite <- app_assoc. reflexivity.
  - apply Forall_app. split.
    + apply Forall_rev, Forall_map, Forall_forall. intros x _. exact I.
    + constructor; [exact I|]. apply Forall_app. split.
      * apply Forall_rev, Forall_map, Forall_forall. intros x _. exact I.
      * repeat constructor.
Qed.

Lemma run_step_mode_exhausted_witness :
  exists e',
    run Toy.ctx
      (Toy.with_step_mode true
         (with_state IDLE
            (with_vm (Some [("pc", 0x4002); ("sp", 0x8000); ("r0", 0)])
               (snd (setup Toy.ctx (Toy.with_source "ab" Toy.fresh))))))
    = (Ok tt, e') /\
    state e' = FINISHED.
Proof.
  destruct (run_step_mode_exhausted Toy.ctx
              (Toy.with_step_mode true
                 (with_state IDLE
                    (with_vm (Some [("pc", 0x4002); ("sp", 0x8000); ("r0", 0)])
                       (snd (setup Toy.ctx
                               (Toy.with_source "ab" Toy.fresh))))))
              [("pc", 0x4002); ("sp", 0x8000); ("r0", 0)]
              ["update_layout_step_finished"]
              ltac:(vm_compute; reflexivity) ltac:(vm_compute; reflexivity)
              ltac:(vm_compute; reflexivity) ltac:(vm_compute; reflexivity)
              ltac:(vm_compute; reflexivity) ltac:(vm_compute; reflexivity))
    as [e' [t [H1 [H2 _]]]].
  exists e'. split; assumption.
Defined.

(** The driver when the engine's run primitive faults. *)
Lemma run_faulted {Uc : Type} (ctx : Context Uc) (e : Emulator Uc)
  (uc uc' : Uc) (stop c : Z) :
  vm e = Some uc -> is_running e = true ->
  dict_has (arch_pc ctx) (registers e) = true ->
  dict_has (arch_sp ctx) (registers e) = true ->
  end_address_of ctx e
    (start_address_of (uc_reg_read ctx uc (arch_pc ctx)) (start_addr e))
  = Some stop ->
  uc_emu_start ctx uc
    (start_address_of (uc_reg_read ctx uc (arch_pc ctx)) (start_addr e))
    stop = (uc', Some c) ->
  exists e2,
    vm e2 <> None /\
    state_change_callbacks e2 = state_change_callbacks e /\
    run ctx e = set_nested ctx FINISHED e2.
Proof.
  intros Hvm Hrun Hpc Hsp Hstop Hstart.
  pose proof (is_running_capable e Hrun) as Hcap.
  pose proof (run_body_started ctx e uc uc' stop (Some c) Hvm Hrun Hpc
                Hstop Hstart) as Hbody.
  cbv zeta in Hbody.
  set (started := with_vm (Some uc') _) in Hbody.
  assert (Hpc1 : dict_has (arch_pc ctx) (registers started) = true).
  { simpl. now apply dict_has_set. }
  pose proof (registers_getitem_live ctx started _ uc' Hcap eq_refl Hpc1)
    as Hread1.
  set (e1 := with_registers _ (emit (EvRegRead (arch_pc ctx)) started))
    in Hread1.
  assert (Hsp1 : dict_has (arch_sp ctx) (registers e1) = true).
  { simpl. now do 2 apply dict_has_set. }
  pose proof (registers_getitem_live ctx e1 _ uc' Hcap eq_refl Hsp1)
    as Hread2.
  set (e2 := with_registers _ (emit (EvRegRead (arch_sp ctx)) e1)) in Hread2.
  exists (emit (EvPopup (PopupRunFault c (uc_reg_read ctx uc' (arch_pc ctx))
                           (uc_reg_read ctx uc' (arch_sp ctx)))) e2).
  split; [simpl; discriminate|]. split; [reflexivity|].
  rewrite (run_guard_passed ctx e uc Hvm Hrun).
  unfold try_except. rewrite Hbody. cbn [run_handler].
  unfold run_fault, pc, sp.
  rewrite (bind_ok _ _ _ _ _ Hread1), (bind_ok _ _ _ _ _ Hread2).
  reflexivity.
Qed.

(** A transition requested by the driver ends in [FINISHED] or [IDLE]. *)
Lemma nested_ends_stopped {Uc : Type} (ctx : Context Uc)
  (S : EmulatorState) (e e2 : Emulator Uc) :
  S = FINISHED \/ S = IDLE -> vm e2 <> None ->
  state_change_callbacks e2 = state_change_callbacks e ->
  exists r e',
    set_nested ctx S e2 = (r, e') /\
    (state e' = FINISHED \/ state e' = IDLE) /\
    (r = Ok tt \/ exists k, r = Raise (KeyError k)) /\
    (callbacks_for FINISHED (state_change_callbacks e) <> None ->
     callbacks_for IDLE (state_change_callbacks e) <> None -> r = Ok tt).
Proof.
  intros HS Hvm Hcb.
  destruct (set_nested_reaches ctx S e2 HS Hvm)
    as [r [e' [t [Hset [Hstate [_ [_ [Hr Hok]]]]]]]].
  exists r, e'. split; [exact Hset|]. split.
  - rewrite Hstate. exact HS.
  - split; [exact Hr|]. intros HF HI. apply Hok. rewrite Hcb.
    destruct HS as [-> | ->]; assumption.
Qed.

(** Whatever the engine does, the driver leaves the session in [FINISHED]
    or [IDLE]. *)
Lemma run_ends_stopped {Uc : Type} (ctx : Context Uc) (e : Emulator Uc) :
  vm e <> None -> is_running e = true ->
  dict_has (arch_pc ctx) (registers e) = true ->
  dict_has (arch_sp ctx) (registers e) = true ->
  exists r e',
    run ctx e = (r, e') /\
    (state e' = FINISHED \/ state e' = IDLE) /\
    (r = Ok tt \/ exists k, r = Raise (KeyError k)) /\
    (callbacks_for FINISHED (state_change_callbacks e) <> None ->
     callbacks_for IDLE (state_change_callbacks e) <> None -> r = Ok tt).
Proof.
  intros Hvm Hrun Hpc Hsp.
  destruct (vm e) as [uc|] eqn:Evm; [clear Hvm|contradiction].
  assert (Hvia : forall S e2,
             S = FINISHED \/ S = IDLE -> vm e2 <> None ->
             state_change_callbacks e2 = state_change_callbacks e ->
             run_body ctx e = set_nested ctx S e2 ->
             exists r e',
               run ctx e = (r, e') /\
               (state e' = FINISHED \/ state e' = IDLE) /\
               (r = Ok tt \/ exists k, r = Raise (KeyError k)) /\
               (callbacks_for FINISHED (state_change_callbacks e) <> None ->
                callbacks_for IDLE (state_change_callbacks e) <> None ->
                r = Ok tt)).
  { intros S e2 HS Hvm2 Hcb Hbody.
    destruct (nested_ends_stopped ctx S e e2 HS Hvm2 Hcb)
      as [r [e' [Hset [Hstate [Hr Hok]]]]].
    exists r, e'. split; [|auto].
    rewrite (run_guard_passed ctx e uc Evm Hrun).
    apply run_handler_passes; [|exact Hr]. now rewrite Hbody. }
  destruct (end_address_of ctx e
              (start_address_of (uc_reg_read ctx uc (arch_pc ctx))
                 (start_addr e))) as [stop|] eqn:Hstop.
  - destruct (uc_emu_start ctx uc
                (start_address_of (uc_reg_read ctx uc (arch_pc ctx))
                   (start_addr e)) stop) as [uc' [c|]] eqn:Hstart.
    + destruct (run_faulted ctx e uc uc' stop c Evm Hrun Hpc Hsp Hstop
                  Hstart) as [e2 [Hvm2 [Hcb Hres]]].
      rewrite Hres.
      apply (nested_ends_stopped ctx FINISHED e e2); auto.
    + pose proof (run_body_started ctx e uc uc' stop None Evm Hrun Hpc
                    Hstop Hstart) as Hbody.
      cbv zeta in Hbody.
      destruct (uc_reg_read ctx uc' (arch_pc ctx)
                =? start_addr e + Z.of_nat (List.length (code e))).
      * eapply (Hvia FINISHED); [now left| | |exact Hbody];
          [simpl; discriminate|reflexivity].
      * eapply (Hvia IDLE); [now right| | |exact Hbody];
          [simpl; discriminate|reflexivity].
  - eapply (Hvia FINISHED);
      [now left| | |exact (run_body_exhausted ctx e uc Evm Hrun Hpc Hstop)];
      [simpl; now rewrite Evm|reflexivity].
Qed.

(** The entry action of [RUNNING]: [setup], caught when it fails; the
    session it leaves has an engine and at least the register names it
    had. *)
Lemma entry_action_running_ready {Uc : Type} (ctx : Context Uc)
  (e : Emulator Uc) :
  state e <> RUNNING ->
  exists e1,
    entry_action ctx RUNNING e = (Ok tt, e1) /\
    evolves (fun _ => True) e e1 /\ vm e1 <> None /\ keys_kept e e1.
Proof.
  intro Hne.
  pose proof (stable_setup Uc ctx e) as Hsetup.
  pose proof (setup_leaves_engine Uc ctx e) as Hvm.
  pose proof (keys_setup Uc ctx e) as Hkeys.
  unfold entry_action, bind at 1, try_except.
  destruct (setup ctx e) as [[[]|x] e0]; simpl in Hsetup, Hvm, Hkeys.
  - unfold bind at 1, gets.
    destruct Hsetup as [Hconf Htr].
    assert (Hst : state e0 = state e) by apply Hconf.
    rewrite Hst, (state_eqb_neq _ _ Hne).
    exists e0. repeat split; auto; apply Hconf.
  - unfold log, modify. unfold bind at 1, gets.
    destruct Hsetup as [Hconf Htr].
    assert (Hst : state e0 = state e) by apply Hconf.
    cbn [state emit with_trace]. rewrite Hst, (state_eqb_neq _ _ Hne).
    eexists. split; [reflexivity|]. split; [|split; [exact Hvm|exact Hkeys]].
    apply evolves_emit; [exact I|]. split; assumption.
Qed.

(** X14: [RUNNING] is transient. Whatever the previous state, whether or
    not [setup] succeeds and whether the engine stops, steps or faults, a
    transition to [RUNNING] of a session with a runner and with the
    program counter and the stack pointer in its cache has left
    [RUNNING] by the time [set] returns: the session is in [FINISHED] or
    in [IDLE]. The call returns normally when both states have an
    observer list. *)
Theorem set_running_is_transient {Uc : Type} (ctx : Context Uc)
  (e : Emulator Uc) (l : list Callback) :
  state e <> RUNNING ->
  threaded_runner e = Some EmulationRunner ->
  dict_has (arch_pc ctx) (registers e) = true ->
  dict_has (arch_sp ctx) (registers e) = true ->
  callbacks_for RUNNING (state_change_callbacks e) = Some l ->
  (state (snd (set ctx RUNNING e)) = FINISHED \/
   state (snd (set ctx RUNNING e)) = IDLE) /\
  (callbacks_for FINISHED (state_change_callbacks e) <> None ->
   callbacks_for IDLE (state_change_callbacks e) <> None ->
   fst (set ctx RUNNING e) = Ok tt).
Proof.
  intros Hne Hrunner Hpc Hsp Hl.
  destruct (entry_action_running_ready ctx e Hne)
    as [e1 [Hentry [[[_ [_ [Hcb [Hthr _]]]] _] [Hvm Hkeys]]]].
  destruct (run_ends_stopped ctx
              (emit EvRunnerRun
                 (with_trace
                    (rev (map (EvCallback RUNNING) l)
                     ++ EvNowState RUNNING :: trace e1)
                    (with_state RUNNING e1))))
    as [r [e' [Hres [Hstate [_ Hok]]]]];
    [exact Hvm|reflexivity|apply Hkeys, Hpc|apply Hkeys, Hsp|].
  assert (Hset : set ctx RUNNING e = (r, e')).
  { unfold set.
    rewrite (set_with_commit ctx _ RUNNING e e1 l Hne Hentry);
      [|now rewrite Hcb].
    unfold exit_action, bind at 1, gets at 1.
    cbn [threaded_runner with_trace with_state].
    rewrite Hthr, Hrunner.
    unfold bind at 1, log at 1, modify at 1. exact Hres. }
  rewrite Hset. simpl. split; [exact Hstate|].
  intros HF HI. apply Hok; simpl; now rewrite Hcb.
Qed.

Lemma set_running_is_transient_witness :
  state (snd (set Toy.ctx RUNNING (Toy.with_source "ab" Toy.fresh)))
  = FINISHED.
Proof.
  destruct (set_running_is_transient Toy.ctx
              (Toy.with_source "ab" Toy.fresh) ["update_layout_running"]
              ltac:(vm_compute; discriminate) ltac:(vm_compute; reflexivity)
              ltac:(vm_compute; reflexivity) ltac:(vm_compute; reflexivity)
              ltac:(vm_compute; reflexivity))
    as [[H|H] _].
  - exact H.
  - vm_compute in H. discriminate H.
Defined.

(** X15: without a runner, a transition to [RUNNING] raises
    [AssertionError], but only after [setup] has been attempted, the state
    has been changed to [RUNNING] and the observers of [RUNNING] have been
    fired; the session stays in [RUNNING] and the driver is not
    invoked. *)
Theorem set_running_without_runner {Uc : Type} (ctx : Context Uc)
  (e : Emulator Uc) (l : list Callback) :
  state e <> RUNNING ->
  threaded_runner e = None ->
  callbacks_for RUNNING (state_change_callbacks e) = Some l ->
  exists e1,
    entry_action ctx RUNNING e = (Ok tt, e1) /\
    set ctx RUNNING e =
      (Raise (AssertionError "No threaded runner defined"),
       with_trace
         (rev (map (EvCallback RUNNING) l) ++ EvNowState RUNNING :: trace e1)
         (with_state RUNNING e1)).
Proof.
  intros Hne Hrunner Hl.
  destruct (entry_action_running_ready ctx e Hne)
    as [e1 [Hentry [[[_ [_ [Hcb [Hthr _]]]] _] _]]].
  exists e1. split; [exact Hentry|].
  unfold set.
  rewrite (set_with_commit ctx _ RUNNING e e1 l Hne Hentry);
    [|now rewrite Hcb].
  unfold exit_action, bind at 1, gets at 1.
  cbn [threaded_runner with_trace with_state]. now rewrite Hthr, Hrunner.
Qed.

Lemma set_running_without_runner_witness :
  fst (set Toy.ctx RUNNING
         (snd (reset Toy.ctx
                 (add_state_change_cb RUNNING "update_layout_running"
                    (add_state_change_cb NOT_RUNNING
                       "update_layout_not_running" new_emulator)))))
  = Raise (AssertionError "No threaded runner defined").
Proof.
  destruct (set_running_without_runner Toy.ctx
              (snd (reset Toy.ctx
                      (add_state_change_cb RUNNING "update_layout_running"
                         (add_state_change_cb NOT_RUNNING
                            "update_layout_not_running" new_emulator))))
              ["update_layout_running"]
              ltac:(vm_compute; discriminate) ltac:(vm_compute; reflexivity)
              ltac:(vm_compute; reflexivity))
    as [e1 [_ H]].
  rewrite H. reflexivity.
Defined.

(** ** Mapping the sections *)

Lemma map_section_trace {Uc : Type} (ctx : Context Uc) (s : MemorySection)
  (c : option bytes) (e e' : Emulator Uc) (r : result unit) :
  section_content s = Ok c -> vm e <> None ->
  map_section ctx s e = (r, e') ->
  (r = Ok tt /\ cache_kept e e' /\ end_addr e' = end_addr e /\
   trace e' = mapping_events s ++ trace e) \/ refused r.
Proof.
  intros Hc Hvm.
  unfold map_section, mapping_events, bind, vm_call, lift_result, cache_kept.
  rewrite Hc.
  destruct (vm e) as [uc|] eqn:E; [|contradiction].
  destruct (uc_mem_map ctx uc (sec_address s) (sec_size s)
              (sec_permission s)) as [uc1|c1].
  2:{ intro H. injection H as <- <-. right. eexists. reflexivity. }
  destruct c as [[|b bs]|]; simpl.
  - intro H. injection H as <- <-. left. simpl. repeat split. discriminate.
  - destruct (uc_mem_write ctx uc1 (sec_address s) (b :: bs)) as [uc2|c2];
      intro H; injection H as <- <-.
    + left. simpl. repeat split. discriminate.
    + right. eexists. reflexivity.
  - intro H. injection H as <- <-. left. simpl. repeat split. discriminate.
Qed.

Lemma map_sections_trace {Uc : Type} (ctx : Context Uc)
  (secs : list MemorySection) :
  (forall s, In s secs -> exists c, section_content s = Ok c) ->
  forall (e e' : Emulator Uc) (r : result unit),
    vm e <> None ->
    for_each secs (map_section ctx) e = (r, e') ->
    (r = Ok tt /\ cache_kept e e' /\ end_addr e' = end_addr e /\
     trace e' = flat_map mapping_events (rev secs) ++ trace e) \/ refused r.
Proof.
  induction secs as [|s secs IH]; intros Hfit e e' r Hvm H; simpl in H.
  - injection H as <- <-. left. unfold cache_kept. simpl. auto 10.
  - destruct (Hfit s (or_introl eq_refl)) as [c Hc].
    destruct (map_section ctx s e) as [r1 e1] eqn:E1.
    destruct (map_section_trace ctx s c e e1 r1 Hc Hvm E1)
      as [[-> [[V1 [R1 [S1 [A1 [C1 X1]]]]] [N1 T1]]]|[c1 ->]];
      [|refusal H E1].
    rewrite (bind_ok _ _ _ _ _ E1) in H.
    destruct (IH (fun s' Hin => Hfit s' (or_intror Hin)) e1 e' r V1 H)
      as [[-> [[V2 [R2 [S2 [A2 [C2 X2]]]]] [N2 T2]]]|Href]; [|now right].
    left. split; [reflexivity|]. split.
    + unfold cache_kept. repeat split; congruence.
    + split; [congruence|].
      rewrite T2, T1. simpl rev. rewrite flat_map_app. simpl.
      rewrite app_nil_r, <- app_assoc. reflexivity.
Qed.

(** X16: on a non-empty section list whose contents fit, when the engine
    refuses none of the requests, [__populate_memory] returns [True] after
    mapping the sections once each, in list order, writing the content of
    a section right after mapping it when it has some; it leaves [-1] as
    the provisional end address and touches neither the register cache
    nor the compiled code. *)
Theorem populate_memory_maps_in_order {Uc : Type} (ctx : Context Uc)
  (e : Emulator Uc) :
  vm e <> None -> sections e <> [] ->
  (forall s, In s (sections e) -> exists c, section_content s = Ok c) ->
  ~ refused (fst (populate_memory ctx e)) ->
  exists e',
    populate_memory ctx e = (Ok true, e') /\
    trace e' = flat_map mapping_events (rev (sections e)) ++ trace e /\
    end_addr e' = Some (-1) /\
    registers e' = registers e /\ code e' = code e /\
    sections e' = sections e.
Proof.
  intros Hvm Hsec Hfit Hnr.
  destruct (populate_memory ctx e) as [r e'] eqn:H. simpl in Hnr.
  unfold populate_memory in H.
  destruct (vm e) as [uc|] eqn:E; [|contradiction].
  unfold bind at 1, gets at 1 in H. rewrite E in H.
  unfold bind at 1, gets at 1 in H.
  destruct (for_each (sections e) (map_section ctx) e) as [r1 e1] eqn:E1.
  destruct (map_sections_trace ctx (sections e) Hfit e e1 r1)
    as [[-> [[V1 [R1 [S1 [A1 [C1 X1]]]]] [N1 T1]]]|[c ->]];
    [rewrite E; discriminate|exact E1| |].
  - destruct (sections e) as [|first rest] eqn:Hs; [contradiction|].
    rewrite (bind_ok _ _ _ _ _ E1) in H. injection H as <- <-.
    eexists. split; [reflexivity|]. simpl. auto 10.
  - destruct (sections e) as [|first rest] eqn:Hs; [contradiction|].
    rewrite (bind_raise _ _ _ _ _ E1) in H. injection H as <- <-.
    exfalso. apply Hnr. eexists. reflexivity.
Qed.

Lemma populate_memory_maps_in_order_witness :
  exists e',
    populate_memory Toy.ctx
      (with_sections
         [ mkSection "data" 0x5000 0x1000 "READ|WRITE" (Some [Byte.x90]);
           mkSection "text" 0x4000 0x1000 "READ|EXEC" None ]
         (with_vm (Some []) Toy.fresh)) = (Ok true, e') /\
    firstn 3 (trace e') =
      [ EvMemMap 0x4000 0x1000 "READ|EXEC";
        EvMemWrite 0x5000 [Byte.x90];
        EvMemMap 0x5000 0x1000 "READ|WRITE" ].
Proof.
  destruct (populate_memory_maps_in_order Toy.ctx
              (with_sections
                 [ mkSection "data" 0x5000 0x1000 "READ|WRITE"
                     (Some [Byte.x90]);
                   mkSection "text" 0x4000 0x1000 "READ|EXEC" None ]
                 (with_vm (Some []) Toy.fresh))
              ltac:(vm_compute; discriminate) ltac:(vm_compute; discriminate)
              ltac:(intros s [<-|[<-|[]]]; eexists; reflexivity)
              ltac:(intros [c H]; vm_compute in H; discriminate H))
    as [e' [H1 [H2 _]]].
  exists e'. split; [exact H1|]. rewrite H2. vm_compute. reflexivity.
Defined.

Lemma section_content_raise (s : MemorySection) (x : exn) :
  section_content s = Raise x -> x = AttributeError "Insufficient space".
Proof.
  unfold section_content. destruct (sec_content s) as [b|]; [|discriminate].
  destruct (sec_size s <? Z.of_nat (List.length b)); [|discriminate].
  intro H. now injection H as <-.
Qed.

Lemma map_section_outcome {Uc : Type} (ctx : Context Uc)
  (s : MemorySection) (e : Emulator Uc) :
  vm e <> None ->
  vm (snd (map_section ctx s e)) <> None /\
  start_addr (snd (map_section ctx s e)) = start_addr e /\
  end_addr (snd (map_section ctx s e)) = end_addr e /\
  match fst (map_section ctx s e) with
  | Ok _ => True
  | Raise x => (exists c, x = UcError c) \/ section_content s = Raise x
  end.
Proof.
  intro Hvm. unfold map_section, bind, vm_call, lift_result.
  destruct (vm e) as [uc|] eqn:E; [|contradiction].
  destruct (uc_mem_map ctx uc (sec_address s) (sec_size s)
              (sec_permission s)) as [uc1|c1]; simpl.
  - destruct (section_content s) as [[[|b c]|]|x]; simpl;
      try (repeat split; first [discriminate|now right]).
    destruct (uc_mem_write ctx uc1 (sec_address s) (b :: c)) as [uc2|c2];
      simpl; repeat split; try discriminate. left. eauto.
  - rewrite E. repeat split; try discriminate. left. eauto.
Qed.

Lemma map_sections_outcome {Uc : Type} (ctx : Context Uc)
  (secs : list MemorySection) :
  forall e : Emulator Uc,
    vm e <> None ->
    vm (snd (for_each secs (map_section ctx) e)) <> None /\
    start_addr (snd (for_each secs (map_section ctx) e)) = start_addr e /\
    end_addr (snd (for_each secs (map_section ctx) e)) = end_addr e /\
    match fst (for_each secs (map_section ctx) e) with
    | Ok _ => True
    | Raise x =>
        (exists c, x = UcError c) \/
        (exists s, In s secs /\ section_content s = Raise x)
    end.
Proof.
  induction secs as [|s secs IH]; intros e Hvm; simpl.
  - auto.
  - pose proof (map_section_outcome ctx s e Hvm) as [V1 [A1 [N1 X1]]].
    unfold bind.
    destruct (map_section ctx s e) as [[[]|x] e1]; simpl in *.
    + destruct (IH e1 V1) as [V2 [A2 [N2 X2]]].
      repeat split; try congruence.
      destruct (fst (for_each secs (map_section ctx) e1)) as [[]|x];
        [exact I|].
      destruct X2 as [X2|[s' [Hin Hs']]]; [now left|].
      right. exists s'. auto.
    + repeat split; auto.
      destruct X1 as [X1|X1]; [now left|]. right. exists s. auto.
Qed.

(** The three ways out of [__populate_memory]. *)
Lemma populate_memory_result {Uc : Type} (ctx : Context Uc)
  (e e' : Emulator Uc) (r : result bool) :
  populate_memory ctx e = (r, e') ->
  match r with
  | Ok true =>
      vm e <> None /\
      exists first rest,
        sections e = first :: rest /\
        start_addr e' = sec_address first /\ end_addr e' = Some (-1)
  | Ok false =>
      (vm e = None \/ sections e = []) /\
      exists msg, e' = emit (EvLogError msg) e
  | Raise x =>
      ((exists c, x = UcError c) \/
       (x = AttributeError "Insufficient space" /\
        exists s, In s (sections e) /\ section_content s = Raise x)) /\
      vm e <> None /\ sections e <> [] /\
      start_addr e' = start_addr e /\ end_addr e' = end_addr e
  end.
Proof.
  unfold populate_memory, bind at 1, gets at 1.
  destruct (vm e) as [uc|] eqn:E.
  - unfold bind at 1, gets at 1.
    destruct (sections e) as [|first rest] eqn:Hs.
    + intro H. injection H as <- <-. split; [now right|eauto].
    + pose proof (map_sections_outcome ctx (first :: rest) e
                    ltac:(rewrite E; discriminate)) as [V [A [N X]]].
      unfold bind at 1.
      destruct (for_each (first :: rest) (map_section ctx) e)
        as [[[]|x] e1]; simpl in V, A, N, X.
      * intro H. injection H as <- <-. split; [discriminate|].
        exists first, rest. auto.
      * intro H. injection H as <- <-.
        split; [|repeat split; auto; discriminate].
        destruct X as [X|[s [Hin Hx]]]; [now left|].
        right. split; [exact (section_content_raise s x Hx)|eauto].
  - intro H. injection H as <- <-. split; [now left|eauto].
Qed.

(** X17: [__populate_memory] returns [False] exactly when there is no
    engine or no section, and then it only logs an error; it raises what
    the engine raises when it refuses a request, or the [AttributeError]
    of a section whose content does not fit, and in both cases the code
    window is the one it was; when it returns [True] the window starts at
    the first section of the list and its end is the placeholder [-1]. *)
Theorem populate_memory_outcomes {Uc : Type} (ctx : Context Uc)
  (e : Emulator Uc) :
  match fst (populate_memory ctx e) with
  | Ok true =>
      vm e <> None /\
      exists first rest,
        sections e = first :: rest /\
        start_addr (snd (populate_memory ctx e)) = sec_address first /\
        end_addr (snd (populate_memory ctx e)) = Some (-1)
  | Ok false =>
      (vm e = None \/ sections e = []) /\
      exists msg, snd (populate_memory ctx e) = emit (EvLogError msg) e
  | Raise x =>
      ((exists c, x = UcError c) \/
       (x = AttributeError "Insufficient space" /\
        exists s, In s (sections e) /\ section_content s = Raise x)) /\
      vm e <> None /\ sections e <> [] /\
      start_addr (snd (populate_memory ctx e)) = start_addr e /\
      end_addr (snd (populate_memory ctx e)) = end_addr e
  end.
Proof.
  destruct (populate_memory ctx e) as [r e'] eqn:Hp. simpl.
  exact (populate_memory_result ctx e e' r Hp).
Qed.

Lemma populate_memory_outcomes_witness :
  fst (populate_memory Toy.ctx
         (with_sections
            [ mkSection "text" 0x4000 0x1000 "READ|EXEC" None;
              mkSection "data" 0x5000 1 "READ|WRITE"
                (Some [Byte.x90; Byte.x90]) ]
            (with_vm (Some []) Toy.fresh)))
  = Raise (AttributeError "Insufficient space") /\
  start_addr
    (snd (populate_memory Toy.ctx
            (with_sections
               [ mkSection "text" 0x4000 0x1000 "READ|EXEC" None;
                 mkSection "data" 0x5000 1 "READ|WRITE"
                   (Some [Byte.x90; Byte.x90]) ]
               (with_vm (Some []) Toy.fresh)))) = 0.
Proof.
  pose proof (populate_memory_outcomes Toy.ctx
                (with_sections
                   [ mkSection "text" 0x4000 0x1000 "READ|EXEC" None;
                     mkSection "data" 0x5000 1 "READ|WRITE"
                       (Some [Byte.x90; Byte.x90]) ]
                   (with_vm (Some []) Toy.fresh))) as H.
  assert (F : fst (populate_memory Toy.ctx
                     (with_sections
                        [ mkSection "text" 0x4000 0x1000 "READ|EXEC" None;
                          mkSection "data" 0x5000 1 "READ|WRITE"
                            (Some [Byte.x90; Byte.x90]) ]
                        (with_vm (Some []) Toy.fresh)))
              = Raise (AttributeError "Insufficient space"))
    by (vm_compute; reflexivity).
  rewrite F in H. destruct H as [_ [_ [_ [Hs _]]]].
  split; [exact F|]. rewrite Hs. reflexivity.
Defined.

(** ** What [setup] sends to the registers of the engine *)

Section TraceAdds.
Variable Uc : Type.
Variable ctx : Context Uc.
Variable P : Event -> Prop.

Lemma trace_adds_refl (e : Emulator Uc) : trace_adds P e e.
Proof. exists []. split; [reflexivity|constructor]. Qed.

Lemma trace_adds_trans (e1 e2 e3 : Emulator Uc) :
  trace_adds P e1 e2 -> trace_adds P e2 e3 -> trace_adds P e1 e3.
Proof.
  intros [t1 [T1 F1]] [t2 [T2 F2]]. exists (t2 ++ t1). split.
  - rewrite T2, T1. apply app_assoc.
  - apply Forall_app. split; assumption.
Qed.

Lemma adds_modify_same (f : Emulator Uc -> Emulator Uc) :
  (forall e, trace (f e) = trace e) -> stable (trace_adds P) (modify f).
Proof.
  intros H e. exists []. split; [apply H|constructor].
Qed.

Lemma adds_log (ev : Event) : P ev -> stable (trace_adds P) (@log Uc ev).
Proof.
  intros H e. exists [ev]. split; [reflexivity|]. repeat constructor. exact H.
Qed.

Lemma adds_vm_call (ev : Event) (op : Uc -> uc_result Uc) :
  P ev -> stable (trace_adds P) (vm_call ev op).
Proof.
  intros H e. unfold vm_call.
  destruct (vm e) as [uc|]; [|apply trace_adds_refl].
  destruct (op uc); exists [ev]; (split; [reflexivity|]);
    repeat constructor; exact H.
Qed.

Lemma adds_registers_setitem (k : string) (v : Z) :
  stable (trace_adds P) (@registers_setitem Uc k v).
Proof. apply adds_modify_same. reflexivity. Qed.

Hypothesis P_reg_read : forall n, P (EvRegRead n).

Lemma adds_registers_getitem (k : string) :
  stable (trace_adds P) (registers_getitem ctx k).
Proof.
  unfold registers_getitem.
  apply (frame_bind _ _ trace_adds_trans);
    [apply (frame_gets _ _ trace_adds_refl)|intro st].
  apply (frame_bind _ _ trace_adds_trans);
    [apply (frame_gets _ _ trace_adds_refl)|intro regs].
  apply (frame_bind _ _ trace_adds_trans).
  - destruct (execution_capable st && dict_has k regs);
      [|apply (frame_ret _ _ trace_adds_refl)].
    apply (frame_bind _ _ trace_adds_trans).
    + intro e. unfold get_register_value.
      destruct (vm e); [|apply trace_adds_refl].
      exists [EvRegRead k]. split; [reflexivity|].
      repeat constructor. apply P_reg_read.
    + intros [v|]; [|apply (frame_ret _ _ trace_adds_refl)].
      apply adds_modify_same. reflexivity.
  - intros _. apply (frame_bind _ _ trace_adds_trans);
      [apply (frame_gets _ _ trace_adds_refl)|intro regs'].
    destruct (dict_get k regs');
      [apply (frame_ret _ _ trace_adds_refl)
      |apply (frame_raise _ _ trace_adds_refl)].
Qed.
End TraceAdds.

Section NoSelectorWrite.
Variable Uc : Type.
Variable ctx : Context Uc.

Let spared : Emulator Uc -> Emulator Uc -> Prop :=
  trace_adds (spares_selectors ctx).

Lemma spared_push_register (n : string) : stable spared (push_register ctx n).
Proof.
  unfold push_register.
  apply (frame_bind _ _ (trace_adds_trans Uc _)).
  - apply adds_registers_getitem. intro k. exact I.
  - intro v. destruct (str_in n (selector_registers ctx)) eqn:E.
    + apply (frame_ret _ _ (trace_adds_refl Uc _)).
    + apply adds_vm_call. exact E.
Qed.

Ltac spared_frame :=
  frame_with (trace_adds_refl Uc (spares_selectors ctx))
    (trace_adds_trans Uc (spares_selectors ctx))
    ltac:(first
            [ apply spared_push_register
            | apply adds_registers_getitem; intro; exact I
            | apply adds_registers_setitem
            | apply adds_vm_call; exact I
            | apply adds_log; exact I
            | apply adds_modify_same; reflexivity ]).

Lemma spared_populate_vm_registers :
  stable spared (populate_vm_registers ctx).
Proof.
  unfold spared, populate_vm_registers, populate_selectors. spared_frame.
Qed.

Lemma spared_setup : stable spared (setup ctx).
Proof.
  pose proof spared_populate_vm_registers as Hregs.
  unfold spared in *.
  unfold setup, setup_engine, populate_memory, map_section,
    populate_text_section, generate_text_bytecode.
  repeat first [ apply Hregs | progress spared_frame ].
Qed.
End NoSelectorWrite.

(** X18: [setup] never writes a selector register to the engine, whether
    it returns or raises and whatever the architecture: every register
    write it sends is for a name outside [selector_registers]. *)
Theorem setup_spares_selectors {Uc : Type} (ctx : Context Uc)
  (e : Emulator Uc) :
  exists t,
    trace (snd (setup ctx e)) = t ++ trace e /\
    forall n v,
      In (EvRegWrite n v) t -> str_in n (selector_registers ctx) = false.
Proof.
  destruct (spared_setup Uc ctx e) as [t [Ht Hall]].
  exists t. split; [exact Ht|].
  intros n v Hin. rewrite Forall_forall in Hall.
  exact (Hall _ Hin).
Qed.

(** ** Pushing the cache to the engine *)

Lemma registers_getitem_quiet {Uc : Type} (ctx : Context Uc)
  (e : Emulator Uc) (k : string) :
  execution_capable (state e) = false ->
  registers_getitem ctx k e
  = (match dict_get k (registers e) with
     | Some v => Ok v
     | None => Raise (KeyError k)
     end, e).
Proof.
  intro Hcap. unfold registers_getitem, bind, gets, ret, raise. simpl.
  rewrite Hcap. simpl. now destruct (dict_get k (registers e)).
Qed.

Section Quiet.
Variable Uc : Type.
Variable ctx : Context Uc.

Lemma quiet_refl (e : Emulator Uc) : quiet e e.
Proof. intros _. auto. Qed.

Lemma quiet_trans (e1 e2 e3 : Emulator Uc) :
  quiet e1 e2 -> quiet e2 e3 -> quiet e1 e3.
Proof.
  intros H1 H2 Hcap. destruct (H1 Hcap) as [T1 S1].
  destruct H2 as [T2 S2]; [now rewrite S1|]. split; congruence.
Qed.

Lemma quiet_registers_getitem (k : string) :
  stable quiet (registers_getitem ctx k).
Proof.
  intros e Hcap. rewrite (registers_getitem_quiet ctx e k Hcap). auto.
Qed.

Lemma quiet_registers_setitem (k : string) (v : Z) :
  stable quiet (@registers_setitem Uc k v).
Proof. intros e _. auto. Qed.

Ltac quiet_frame :=
  frame_with quiet_refl quiet_trans
    ltac:(first
            [ apply quiet_registers_getitem
            | apply quiet_registers_setitem ]).

(** The steps of [__populate_vm_registers] that come before the loop. *)
Lemma quiet_seed_pc (pcv : Z) :
  stable quiet
    (if pcv =? 0
     then
       bind (find_section MEMORY_TEXT_SECTION_NAME)
         (fun section =>
            bind (registers_setitem (arch_pc ctx) (sec_address section))
              (fun _ =>
                 bind (registers_getitem ctx (arch_pc ctx))
                   (fun _ => @ret Uc unit tt)))
     else ret tt).
Proof. quiet_frame. Qed.

Lemma quiet_seed_sp (spv : Z) :
  stable quiet
    (if spv =? 0
     then
       bind (find_section MEMORY_STACK_SECTION_NAME)
         (fun section =>
            bind (registers_setitem (arch_sp ctx)
                    (sec_address section + sec_size section / 2))
              (fun _ =>
                 bind (registers_getitem ctx (arch_sp ctx))
                   (fun _ => @ret Uc unit tt)))
     else ret tt).
Proof. quiet_frame. Qed.

Lemma quiet_selectors :
  stable quiet
    (if arch_is_x86_32 ctx then populate_selectors ctx else @ret Uc unit tt).
Proof. unfold populate_selectors. quiet_frame. Qed.

(** The loop of [__populate_vm_registers], when it runs to its end. *)
Lemma push_registers_trace (regs : list (string * Z))
  (keys : list string) :
  forall e e' : Emulator Uc,
    execution_capable (state e) = false -> registers e = regs ->
    for_each keys (push_register ctx) e = (Ok tt, e') ->
    registers e' = regs /\
    trace e' =
      rev (map (fun k => EvRegWrite k (match dict_get k regs with
                                       | Some v => v
                                       | None => 0
                                       end))
             (filter (fun k => negb (str_in k (selector_registers ctx)))
                keys))
      ++ trace e.
Proof.
  induction keys as [|k keys IH]; intros e e' Hcap Hregs H.
  - injection H as <-. auto.
  - simpl in H. apply bind_inv in H. destruct H as [[] [e1 [Hk H]]].
    assert (H1 : execution_capable (state e1) = false /\
                 registers e1 = regs /\
                 trace e1 =
                   (if negb (str_in k (selector_registers ctx))
                    then [EvRegWrite k (match dict_get k regs with
                                        | Some v => v
                                        | None => 0
                                        end)]
                    else []) ++ trace e).
    { unfold push_register in Hk.
      unfold bind at 1 in Hk.
      rewrite (registers_getitem_quiet ctx e k Hcap), Hregs in Hk.
      destruct (dict_get k regs) as [v|]; [|discriminate Hk].
      destruct (str_in k (selector_registers ctx)).
      - injection Hk as <-. auto.
      - unfold vm_call in Hk. destruct (vm e) as [uc|]; [|discriminate Hk].
        destruct (uc_reg_write ctx uc k v); [|discriminate Hk].
        injection Hk as <-. auto. }
    destruct H1 as [Hcap1 [Hregs1 Ht1]].
    destruct (IH e1 e' Hcap1 Hregs1 H) as [Hr Ht].
    split; [exact Hr|]. rewrite Ht, Ht1. simpl.
    destruct (negb (str_in k (selector_registers ctx))); simpl.
    + rewrite <- app_assoc. reflexivity.
    + reflexivity.
Qed.
End Quiet.

(** X19: outside [RUNNING], [IDLE] and [FINISHED], when
    [__populate_vm_registers] returns [True] the engine has received
    exactly the cache it leaves: one write per cached name that is not a
    selector register, in dictionary order, with the cached value, after
    the defaults for the program counter and the stack pointer and the
    selectors have been stored; nothing else is added to the trace. *)
Theorem populate_vm_registers_pushes_cache {Uc : Type} (ctx : Context Uc)
  (e e' : Emulator Uc) :
  execution_capable (state e) = false ->
  populate_vm_registers ctx e = (Ok true, e') ->
  trace e' = rev (register_writes ctx (registers e')) ++ trace e.
Proof.
  intros Hcap H. unfold populate_vm_registers in H.
  unfold bind at 1, gets at 1 in H.
  destruct (vm e) as [uc|]; [|discriminate H].
  apply bind_inv in H. destruct H as [pcv [e1 [H1 H]]].
  pose proof (quiet_registers_getitem Uc ctx (arch_pc ctx) e Hcap) as Q1.
  rewrite H1 in Q1. simpl in Q1. destruct Q1 as [T1 S1].
  apply bind_inv in H. destruct H as [[] [e2 [H2 H]]].
  pose proof (quiet_seed_pc Uc ctx pcv e1 ltac:(now rewrite S1)) as Q2.
  rewrite H2 in Q2. simpl in Q2. destruct Q2 as [T2 S2].
  apply bind_inv in H. destruct H as [spv [e3 [H3 H]]].
  pose proof (quiet_registers_getitem Uc ctx (arch_sp ctx) e2
                ltac:(now rewrite S2, S1)) as Q3.
  rewrite H3 in Q3. simpl in Q3. destruct Q3 as [T3 S3].
  apply bind_inv in H. destruct H as [[] [e4 [H4 H]]].
  pose proof (quiet_seed_sp Uc ctx spv e3
                ltac:(now rewrite S3, S2, S1)) as Q4.
  rewrite H4 in Q4. simpl in Q4. destruct Q4 as [T4 S4].
  apply bind_inv in H. destruct H as [[] [e5 [H5 H]]].
  pose proof (quiet_selectors Uc ctx e4
                ltac:(now rewrite S4, S3, S2, S1)) as Q5.
  rewrite H5 in Q5. simpl in Q5. destruct Q5 as [T5 S5].
  unfold bind at 1, gets at 1 in H.
  apply bind_inv in H. destruct H as [[] [e6 [H6 H]]].
  injection H as <-.
  destruct (push_registers_trace Uc ctx (registers e5)
              (dict_keys (registers e5)) e5 e6
              ltac:(now rewrite S5, S4, S3, S2, S1) eq_refl H6)
    as [Hr Ht].
  unfold register_writes. rewrite Hr, Ht. congruence.
Qed.

Lemma populate_vm_registers_pushes_cache_witness :
  trace (snd (populate_vm_registers Toy.ctx
                (with_registers [("pc", 0); ("CS", 7); ("sp", 0)]
                   (with_trace [] (with_vm (Some []) Toy.fresh)))))
  = [ EvRegWrite "sp" 0x8000; EvRegWrite "pc" 0x4000 ].
Proof.
  rewrite (populate_vm_registers_pushes_cache Toy.ctx
             (with_registers [("pc", 0); ("CS", 7); ("sp", 0)]
                (with_trace [] (with_vm (Some []) Toy.fresh)))
             (snd (populate_vm_registers Toy.ctx
                     (with_registers [("pc", 0); ("CS", 7); ("sp", 0)]
                        (with_trace [] (with_vm (Some []) Toy.fresh)))))
             ltac:(vm_compute; reflexivity) ltac:(vm_compute; reflexivity)).
  vm_compute. reflexivity.
Defined.

(** ** What a successful [setup] establishes *)

Section Window.
Variable Uc : Type.
Variable ctx : Context Uc.

Lemma same_window_refl (e : Emulator Uc) : same_window e e.
Proof. unfold same_window. auto. Qed.

Lemma same_window_trans (e1 e2 e3 : Emulator Uc) :
  same_window e1 e2 -> same_window e2 e3 -> same_window e1 e3.
Proof.
  intros [A1 [B1 C1]] [A2 [B2 C2]]. unfold same_window.
  repeat split; congruence.
Qed.

Lemma window_vm_call (ev : Event) (op : Uc -> uc_result Uc) :
  stable same_window (vm_call ev op).
Proof.
  intro e. unfold vm_call, same_window.
  destruct (vm e) as [uc|]; [destruct (op uc)|]; simpl; auto.
Qed.

Lemma window_get_register_value (n : string) :
  stable same_window (get_register_value ctx n).
Proof.
  intro e. unfold get_register_value, same_window.
  destruct (vm e); simpl; auto.
Qed.

Lemma window_modify_registers (f : list (string * Z) -> list (string * Z)) :
  stable same_window
    (modify (fun e : Emulator Uc => with_registers (f (registers e)) e)).
Proof. intro e. unfold same_window. simpl. auto. Qed.

Lemma window_populate_vm_registers :
  stable same_window (populate_vm_registers ctx).
Proof.
  unfold populate_vm_registers, populate_selectors, push_register,
    registers_getitem, registers_setitem.
  frame_with same_window_refl same_window_trans
    ltac:(first
            [ apply window_vm_call
            | apply window_get_register_value
            | apply (window_modify_registers (dict_set _ _)) ]).
Qed.
End Window.

(** [__generate_text_bytecode] returns [True] only after a successful
    assembly at [start_addr]. *)
Lemma generate_text_bytecode_true {Uc : Type} (ctx : Context Uc)
  (e e' : Emulator Uc) :
  generate_text_bytecode ctx e = (Ok true, e') ->
  exists i insns,
    assemble ctx (codelines e) (start_addr e) = Some (i :: insns) /\
    e' = with_end_addr
           (Some (start_addr e
                  + Z.of_nat (List.length
                                (List.concat (map insn_bytes (i :: insns))))))
           (with_code (List.concat (map insn_bytes (i :: insns))) e).
Proof.
  unfold generate_text_bytecode, bind at 1, gets at 1.
  unfold bind at 1, gets at 1.
  destruct (assemble ctx (codelines e) (start_addr e)) as [[|i insns]|];
    try discriminate.
  intro H. injection H as <-. eauto.
Qed.

(** [__populate_text_section] returns [True] only after writing the
    compiled code at the address of the text section. *)
Lemma populate_text_section_true {Uc : Type} (ctx : Context Uc)
  (e e' : Emulator Uc) :
  populate_text_section ctx e = (Ok true, e') ->
  exists text i insns,
    find_section_in (sections e) MEMORY_TEXT_SECTION_NAME = Ok text /\
    assemble ctx (codelines e) (start_addr e) = Some (i :: insns) /\
    code e' = List.concat (map insn_bytes (i :: insns)) /\
    start_addr e' = start_addr e /\
    end_addr e' = Some (start_addr e + Z.of_nat (List.length (code e'))) /\
    trace e' = EvMemWrite (sec_address text) (code e') :: trace e.
Proof.
  unfold populate_text_section. unfold bind at 1, gets at 1.
  destruct (vm e) as [uc|] eqn:Hvm; [|discriminate].
  intro H. apply bind_inv in H. destruct H as [[] [e1 [Hreq H]]].
  assert (He1 : e = e1).
  { pose proof (frame_for_each Uc eq (@eq_refl _) (@eq_trans _)
                  [ MEMORY_TEXT_SECTION_NAME; MEMORY_DATA_SECTION_NAME;
                    MEMORY_STACK_SECTION_NAME ] require_section
                  (frame_require_section Uc eq (@eq_refl _) (@eq_trans _))
                  e) as Hsame.
    now rewrite Hreq in Hsame. }
  subst e1.
  apply bind_inv in H. destruct H as [text [e1 [Hfind H]]].
  unfold find_section in Hfind. injection Hfind as Hfind <-.
  apply bind_inv in H. destruct H as [ok [e2 [Hgen H]]].
  destruct ok; simpl in H.
  2:{ unfold bind, log, modify, ret in H. discriminate H. }
  destruct (generate_text_bytecode_true ctx e e2 Hgen)
    as [i [insns [Hasm ->]]].
  unfold bind at 1, gets at 1 in H.
  apply bind_inv in H. destruct H as [[] [e3 [Hwrite H]]].
  injection H as <-.
  unfold vm_call in Hwrite. cbn [vm with_end_addr with_code] in Hwrite.
  rewrite Hvm in Hwrite.
  cbn [code with_end_addr with_code] in Hwrite.
  destruct (uc_mem_write ctx uc (sec_address text)
              (List.concat (map insn_bytes (i :: insns)))) as [uc'|c];
    [|discriminate Hwrite].
  injection Hwrite as <-.
  exists text, i, insns. simpl. auto 10.
Qed.

(** X20: when [setup] builds an engine and returns normally, the section
    list is not empty and has a text section; the code window starts at
    the address of the first section of the list, which is also the base
    address the source was assembled for; the compiled code is the
    concatenation of the bytes of the instructions, the window ends right
    after it, and the last thing sent to the engine is the write of that
    code at the address of the text section. *)
Theorem setup_establishes_window {Uc : Type} (ctx : Context Uc)
  (e e' : Emulator Uc) :
  vm e = None -> setup ctx e = (Ok tt, e') ->
  exists first rest text i insns,
    sections e = first :: rest /\
    find_section_in (sections e) MEMORY_TEXT_SECTION_NAME = Ok text /\
    assemble ctx (codelines e) (sec_address first) = Some (i :: insns) /\
    code e' = List.concat (map insn_bytes (i :: insns)) /\
    start_addr e' = sec_address first /\
    end_addr e' = Some (sec_address first + Z.of_nat (List.length (code e'))) /\
    hd_error (trace e') = Some (EvMemWrite (sec_address text) (code e')).
Proof.
  intros Hvm H. unfold setup, bind at 1, gets at 1 in H. rewrite Hvm in H.
  unfold bind at 1, modify at 1 in H. unfold setup_engine in H.
  do 5 (apply bind_inv in H; destruct H as [[] [? [E H]]];
        injection E as <-).
  apply bind_inv in H. destruct H as [[] [e1 [Ex86 H]]].
  assert (He1 : sections e1 = sections e /\ codelines e1 = codelines e).
  { destruct (arch_is_x86 ctx); injection Ex86 as <-; split; reflexivity. }
  destruct He1 as [Hs1 Hc1].
  apply bind_inv in H. destruct H as [ok1 [e2 [Hpm H]]].
  apply bind_inv in H. destruct H as [[] [e2' [E H]]].
  destruct ok1; [|discriminate E]. injection E as <-.
  apply bind_inv in H. destruct H as [ok2 [e3 [Hpr H]]].
  apply bind_inv in H. destruct H as [[] [e3' [E H]]].
  destruct ok2; [|discriminate E]. injection E as <-.
  apply bind_inv in H. destruct H as [ok3 [e4 [Hpt H]]].
  destruct ok3; [|discriminate H]. injection H as <-.
  pose proof (populate_memory_result ctx e1 e2 _ Hpm)
    as [_ [first [rest [Hsec [Hstart _]]]]].
  pose proof (stable_populate_memory Uc ctx e1) as S1.
  rewrite Hpm in S1. destruct S1 as [[_ [_ [_ [_ [Hc2 [Hs2 _]]]]]] _].
  simpl in Hc2, Hs2.
  pose proof (stable_populate_vm_registers Uc ctx (fun _ => True)
                (fun _ => I) (fun _ _ => I) e2) as S2.
  rewrite Hpr in S2. destruct S2 as [[_ [_ [_ [_ [Hc3 [Hs3 _]]]]]] _].
  simpl in Hc3, Hs3.
  pose proof (window_populate_vm_registers Uc ctx e2) as W.
  rewrite Hpr in W. destruct W as [Hw _]. simpl in Hw.
  destruct (populate_text_section_true ctx e3 e4 Hpt)
    as [text [i [insns [Hfind [Hasm [Hcode [Hst [Hend Htr]]]]]]]].
  exists first, rest, text, i, insns.
  rewrite Hs3, Hs2, Hs1 in Hfind. rewrite Hc3, Hc2, Hc1, Hw, Hstart in Hasm.
  rewrite Hw, Hstart in Hst, Hend. rewrite Htr.
  rewrite Hs1 in Hsec.
  repeat split; assumption || reflexivity.
Qed.

Lemma setup_establishes_window_witness :
  start_addr
    (snd (setup Toy.ctx
            (with_sections
               [ mkSection "data" 0x5000 0x1000 "READ|WRITE" None;
                 mkSection "text" 0x4000 0x1000 "READ|EXEC" None;
                 mkSection "stack" 0x6000 0x4000 "READ|WRITE" None ]
               (Toy.with_source "ab" Toy.fresh)))) = 0x5000 /\
  hd_error
    (trace
       (snd (setup Toy.ctx
               (with_sections
                  [ mkSection "data" 0x5000 0x1000 "READ|WRITE" None;
                    mkSection "text" 0x4000 0x1000 "READ|EXEC" None;
                    mkSection "stack" 0x6000 0x4000 "READ|WRITE" None ]
                  (Toy.with_source "ab" Toy.fresh)))))
  = Some (EvMemWrite 0x4000 [Byte.x90; Byte.x90]).
Proof.
  destruct (setup_establishes_window Toy.ctx
              (with_sections
                 [ mkSection "data" 0x5000 0x1000 "READ|WRITE" None;
                   mkSection "text" 0x4000 0x1000 "READ|EXEC" None;
                   mkSection "stack" 0x6000 0x4000 "READ|WRITE" None ]
                 (Toy.with_source "ab" Toy.fresh))
              (snd (setup Toy.ctx
                      (with_sections
                         [ mkSection "data" 0x5000 0x1000 "READ|WRITE" None;
                           mkSection "text" 0x4000 0x1000 "READ|EXEC" None;
                           mkSection "stack" 0x6000 0x4000 "READ|WRITE" None ]
                         (Toy.with_source "ab" Toy.fresh))))
              ltac:(vm_compute; reflexivity) ltac:(vm_compute; reflexivity))
    as [first [rest [text [i [insns [H1 [H2 [H3 [H4 [H5 [H6 H7]]]]]]]]]]].
  vm_compute in H1. injection H1 as <- <-.
  vm_compute in H2. injection H2 as <-.
  split.
  - rewrite H5. reflexivity.
  - rewrite H7, H4. vm_compute in H3. injection H3 as <- <-.
    reflexivity.
Defined.
